(** * Cooperative kernel threads: src/kernel/threads.cpp

    A shallow embedding of the thread registry, the suspension queue and the
    suspend / yield / resume / exit protocol of [kernel::Thread] and
    [kernel::ThreadManager], followed by the properties of the specification
    that are settled against it.

    Conventions of the embedding
    - a [Thread*] is a [tptr]: either the address of a heap object made by
      [new Thread], or the address of the [main_thread] member embedded in
      the manager of one CPU; a nullable pointer is an [option tptr];
    - a [void*] is an address in [Z], with [0] for [nullptr];
    - [long] is a 64-bit and [int] a 32-bit two's complement integer, the
      conversions are written out ([wrap_long], [to_int]);
    - a function of the source is a computation [M A]: it reads and updates
      the [World], and ends by returning, by throwing a C++ exception, by
      transferring control to a saved continuation (the two assembly entry
      points never return), or by trapping. *)

From Stdlib Require Import Sorting.Sorted.
From stdpp Require Import gmap list.

Module kernel.

(** ** Data model *)

Inductive tptr : Type :=
| MainOf (cpu : nat)      (* &thread_managers[cpu].main_thread *)
| Heap (a : N).            (* result of [new Thread] *)

#[global] Instance tptr_eq_dec : EqDecision tptr.
Proof. solve_decision. Defined.

(** [struct Thread].  The declaration is in kernel/threads.hpp; the fields are
    the ones threads.cpp reads and writes. *)
Record Thread : Type := mkThread {
  tid          : Z;
  self         : option tptr;
  parent       : option tptr;
  my_tls       : Z;
  my_stack     : Z;
  stored_stack : Z;
  stored_nexti : Z;
  yielded      : bool;
  clear_tid    : Z;
  children     : list tptr
}.

(** [struct ThreadManager]: [std::map<long, Thread*> threads],
    [std::deque<Thread*> suspended], and the embedded [main_thread]. *)
Record ThreadManager : Type := mkManager {
  threads     : gmap Z tptr;
  suspended   : list tptr;
  main_thread : Thread
}.

(** Everything threads.cpp can observe or change. *)
Record World : Type := mkWorld {
  thread_counter  : Z;                    (* static long thread_counter *)
  thread_managers : list ThreadManager;   (* SMP::Array<ThreadManager> *)
  heap            : gmap N Thread;        (* live [new Thread] objects *)
  fs_base         : gmap nat Z;           (* per-CPU thread area register *)
  tls_kthread     : gmap Z tptr;          (* libc_internal::kthread at a TLS address *)
  umem            : gmap Z Z;             (* user memory, byte by byte *)
  allocs          : list bool             (* outcome of the coming allocations *)
}.

#[global] Instance Thread_eq_dec : EqDecision Thread.
Proof. solve_decision. Defined.

(** Field updates. *)
Definition set_tid (v : Z) (t : Thread) : Thread :=
  mkThread v (self t) (parent t) (my_tls t) (my_stack t) (stored_stack t)
           (stored_nexti t) (yielded t) (clear_tid t) (children t).
Definition set_self (v : option tptr) (t : Thread) : Thread :=
  mkThread (tid t) v (parent t) (my_tls t) (my_stack t) (stored_stack t)
           (stored_nexti t) (yielded t) (clear_tid t) (children t).
Definition set_parent (v : option tptr) (t : Thread) : Thread :=
  mkThread (tid t) (self t) v (my_tls t) (my_stack t) (stored_stack t)
           (stored_nexti t) (yielded t) (clear_tid t) (children t).
Definition set_my_tls (v : Z) (t : Thread) : Thread :=
  mkThread (tid t) (self t) (parent t) v (my_stack t) (stored_stack t)
           (stored_nexti t) (yielded t) (clear_tid t) (children t).
Definition set_my_stack (v : Z) (t : Thread) : Thread :=
  mkThread (tid t) (self t) (parent t) (my_tls t) v (stored_stack t)
           (stored_nexti t) (yielded t) (clear_tid t) (children t).
Definition set_stored (nexti stack : Z) (t : Thread) : Thread :=
  mkThread (tid t) (self t) (parent t) (my_tls t) (my_stack t) stack
           nexti (yielded t) (clear_tid t) (children t).
Definition set_yielded (v : bool) (t : Thread) : Thread :=
  mkThread (tid t) (self t) (parent t) (my_tls t) (my_stack t) (stored_stack t)
           (stored_nexti t) v (clear_tid t) (children t).
Definition set_clear_tid (v : Z) (t : Thread) : Thread :=
  mkThread (tid t) (self t) (parent t) (my_tls t) (my_stack t) (stored_stack t)
           (stored_nexti t) (yielded t) v (children t).
Definition set_children (v : list tptr) (t : Thread) : Thread :=
  mkThread (tid t) (self t) (parent t) (my_tls t) (my_stack t) (stored_stack t)
           (stored_nexti t) (yielded t) (clear_tid t) v.

Definition set_threads (v : gmap Z tptr) (m : ThreadManager) : ThreadManager :=
  mkManager v (suspended m) (main_thread m).
Definition set_suspended (v : list tptr) (m : ThreadManager) : ThreadManager :=
  mkManager (threads m) v (main_thread m).
Definition set_main_thread (v : Thread) (m : ThreadManager) : ThreadManager :=
  mkManager (threads m) (suspended m) v.

Definition set_thread_counter (v : Z) (w : World) : World :=
  mkWorld v (thread_managers w) (heap w) (fs_base w) (tls_kthread w) (umem w) (allocs w).
Definition set_thread_managers (v : list ThreadManager) (w : World) : World :=
  mkWorld (thread_counter w) v (heap w) (fs_base w) (tls_kthread w) (umem w) (allocs w).
Definition set_heap (v : gmap N Thread) (w : World) : World :=
  mkWorld (thread_counter w) (thread_managers w) v (fs_base w) (tls_kthread w) (umem w) (allocs w).
Definition set_fs_base (v : gmap nat Z) (w : World) : World :=
  mkWorld (thread_counter w) (thread_managers w) (heap w) v (tls_kthread w) (umem w) (allocs w).
Definition set_tls_kthread (v : gmap Z tptr) (w : World) : World :=
  mkWorld (thread_counter w) (thread_managers w) (heap w) (fs_base w) v (umem w) (allocs w).
Definition set_umem (v : gmap Z Z) (w : World) : World :=
  mkWorld (thread_counter w) (thread_managers w) (heap w) (fs_base w) (tls_kthread w) v (allocs w).
Definition set_allocs (v : list bool) (w : World) : World :=
  mkWorld (thread_counter w) (thread_managers w) (heap w) (fs_base w) (tls_kthread w) (umem w) v.

(** ** Machine integers *)

Definition wrap_long (z : Z) : Z := (z + 2 ^ 63) `mod` 2 ^ 64 - 2 ^ 63.
Definition to_int (z : Z) : Z := (z + 2 ^ 31) `mod` 2 ^ 32 - 2 ^ 31.

(** <sched.h> *)
Definition CLONE_CHILD_CLEARTID : Z := 0x00200000.
Definition CLONE_CHILD_SETTID : Z := 0x01000000.

(** ** Computations *)

Inductive exn : Type := bad_alloc | out_of_range.

(** The two assembly entry points that leave the current stack. *)
Inductive transfer : Type :=
| clone_return (nexti stack : Z)       (* __clone_return *)
| thread_restore (nexti stack : Z).    (* __thread_restore *)

(** Where execution stops for good.  The use of a null or dangling pointer is
    undefined in C++; the model stops there. *)
Inductive trap : Type :=
| assert_failed    (* a failed [assert] *)
| fault.           (* use of a null or dangling pointer *)

Inductive outcome (A : Type) : Type :=
| Ret (a : A) (w : World)
| Throw (e : exn) (w : World)
| Jump (k : transfer) (w : World)
| Trap (r : trap).
Arguments Ret {A} a w.
Arguments Throw {A} e w.
Arguments Jump {A} k w.
Arguments Trap {A} r.

Definition M (A : Type) : Type := World → outcome A.

Definition ret {A} (a : A) : M A := λ w, Ret a w.
Definition bind {A B} (c : M A) (f : A → M B) : M B :=
  λ w, match c w with
       | Ret a w' => f a w'
       | Throw e w' => Throw e w'
       | Jump k w' => Jump k w'
       | Trap r => Trap r
       end.
Definition jump {A} (k : transfer) : M A := λ w, Jump k w.
Definition abort {A} (r : trap) : M A := λ _, Trap r.
Definition gets {A} (f : World → A) : M A := λ w, Ret (f w) w.
Definition modify (f : World → World) : M unit := λ w, Ret tt (f w).
(** [try { c } catch (...) { h }] *)
Definition try_catch {A} (c : M A) (h : M A) : M A :=
  λ w, match c w with
       | Throw _ w' => h w'
       | o => o
       end.

Declare Scope kthread_scope.
Delimit Scope kthread_scope with kthread.
Notation "'let*' x ':=' c 'in' k" := (bind c (λ x, k))
  (at level 10, x name, c at level 100, k at level 200) : kthread_scope.
Open Scope kthread_scope.

Definition assert (b : bool) : M unit :=
  if b then ret tt else abort assert_failed.

(** One allocation of the C++ runtime ([operator new], a container growing).
    The next entry of [allocs] decides it; with no entry left it succeeds. *)
Definition allocate : M unit :=
  λ w, match allocs w with
       | [] => Ret tt w
       | true :: rest => Ret tt (set_allocs rest w)
       | false :: rest => Throw bad_alloc (set_allocs rest w)
       end.

Fixpoint foreach {A} (l : list A) (body : A → M unit) : M unit :=
  match l with
  | [] => ret tt
  | x :: l' => let* _ := body x in foreach l' body
  end.

(** ** Memory: reading and writing through a [Thread*] *)

Definition load (w : World) (p : tptr) : option Thread :=
  match p with
  | MainOf c => main_thread <$> thread_managers w !! c
  | Heap a => heap w !! a
  end.

Definition store (p : tptr) (t : Thread) (w : World) : World :=
  match p with
  | MainOf c =>
      set_thread_managers
        (alter (set_main_thread t) c (thread_managers w)) w
  | Heap a => set_heap (<[a := t]> (heap w)) w
  end.

(** [*p]; a null or dangling pointer faults. *)
Definition deref (p : tptr) : M Thread :=
  λ w, match load w p with
       | Some t => Ret t w
       | None => Trap fault
       end.

(** [p->field = v] *)
Definition update (p : tptr) (f : Thread → Thread) : M unit :=
  let* t := deref p in modify (store p (f t)).

Definition nonnull (p : option tptr) : M tptr :=
  match p with
  | Some q => ret q
  | None => abort fault
  end.

(** ** User memory

    The two stores through [ctid] and [clear_tid] go to user memory, which is
    a map from addresses to bytes.  On x86-64, the one architecture
    [get_thread_area] is written for, integers lie least significant byte
    first, a [pid_t] has 4 bytes and a [pthread_t] has 8. *)

(** The [n] low bytes of [v], least significant first. *)
Fixpoint le_bytes (n : nat) (v : Z) : list Z :=
  match n with
  | O => []
  | S n' => (v `mod` 256)%Z :: le_bytes n' (v `div` 256)%Z
  end.

Fixpoint store_bytes (a : Z) (bs : list Z) (m : gmap Z Z) : gmap Z Z :=
  match bs with
  | [] => m
  | b :: bs' => store_bytes (a + 1) bs' (<[a := b]> m)
  end.

(** A store of the [n]-byte integer [v] through the pointer [p]; a null
    pointer faults. *)
Definition store_user (p : Z) (n : nat) (v : Z) : M unit :=
  if bool_decide (p = 0%Z) then abort fault
  else modify (λ w, set_umem (store_bytes p (le_bytes n v) (umem w)) w).

(** [new struct Thread]: one allocation, then an object at an address that is
    not live.  The member initialisers are in kernel/threads.hpp; pointers
    start null, [yielded] false and [children] empty. *)
Definition fresh_thread : Thread :=
  mkThread 0 None None 0 0 0 0 false 0 [].

Definition new_Thread : M tptr :=
  let* _ := allocate in
  λ w, let a := fresh (dom (heap w)) in
       Ret (Heap a) (set_heap (<[a := fresh_thread]> (heap w)) w).

(** [delete p], for a live heap object. *)
Definition delete_Thread (p : tptr) : M unit :=
  λ w, match p with
       | Heap a =>
           match heap w !! a with
           | Some _ => Ret tt (set_heap (delete a (heap w)) w)
           | None => Trap fault
           end
       | MainOf _ => Trap fault
       end.

(** [PER_CPU(thread_managers)] on CPU [cpu], and [thread_managers[i]]. *)
Definition manager (i : nat) : M ThreadManager :=
  λ w, match thread_managers w !! i with
       | Some m => Ret m w
       | None => Trap fault
       end.

Definition update_manager (i : nat) (f : ThreadManager → ThreadManager) : M unit :=
  let* m := manager i in
  modify (λ w, set_thread_managers (<[i := f m]> (thread_managers w)) w).

(** [thread_managers.at(cpu)] for an [int cpu]: range-checked. *)
Definition manager_at (cpu : Z) : M nat :=
  λ w, if bool_decide (0 ≤ cpu < Z.of_nat (length (thread_managers w)))%Z
       then Ret (Z.to_nat cpu) w
       else Throw out_of_range w.

(** ** Thread identifiers *)

(** [__sync_fetch_and_add(&thread_counter, 1)]: the old value is returned. *)
Definition generate_new_thread_id : M Z :=
  λ w, Ret (thread_counter w)
           (set_thread_counter (wrap_long (thread_counter w + 1)) w).

Definition get_last_thread_id : M Z :=
  gets (λ w, wrap_long (thread_counter w - 1)).

(** ** The thread area *)

(** [x86::CPU::read_msr(IA32_FS_BASE)] on CPU [cpu]. *)
Definition get_thread_area (cpu : nat) : M Z :=
  gets (λ w, default 0%Z (fs_base w !! cpu)).

(** [syscall_SYS_set_thread_area(new_area)] on CPU [cpu]. *)
Definition set_thread_area (cpu : nat) (new_area : Z) : M unit :=
  modify (λ w, set_fs_base (<[cpu := new_area]> (fs_base w)) w).

(** Modelled from the spec: [get_thread()] without argument is declared in
    kernel/threads.hpp, not in threads.cpp.  It recovers the thread that is
    executing on this CPU from the storage register alone: the back-pointer
    that [libc_store_this] wrote into the storage block the register points
    at. *)
Definition get_thread_self (cpu : nat) : M (option tptr) :=
  let* area := get_thread_area cpu in
  gets (λ w, tls_kthread w !! area).

(** ** ThreadManager *)

(** [get_thread(long tid)] *)
Definition get_thread (cpu : nat) (tid : Z) : M (option tptr) :=
  let* mgr := manager cpu in
  ret (threads mgr !! tid).

(** [threads.emplace(piecewise_construct, thread->tid, thread)]: the node is
    allocated, and linked in only if the key is not there yet. *)
Definition ThreadManager_insert_thread (this : nat) (thread : tptr) : M unit :=
  let* t := deref thread in
  let* _ := allocate in
  update_manager this (λ m,
    match threads m !! tid t with
    | Some _ => m
    | None => set_threads (<[tid t := thread]> (threads m)) m
    end).

(** The three assertions, then [threads.erase(it)]. *)
Definition ThreadManager_erase_thread_safely (this : nat) (thread : option tptr)
  : M unit :=
  let* _ := assert (bool_decide (thread ≠ None)) in
  let* p := nonnull thread in
  let* t := deref p in
  let* m := manager this in
  let it := threads m !! tid t in
  let* _ := assert (bool_decide (it ≠ None)) in
  let* _ := assert (bool_decide (it = Some p)) in
  update_manager this (λ m, set_threads (delete (tid t) (threads m)) m).

(** [assert(!suspended.empty())], [front()], [pop_front()]. *)
Definition ThreadManager_wakeup_next (this : nat) : M tptr :=
  let* m := manager this in
  let* _ := assert (bool_decide (suspended m ≠ [])) in
  match suspended m with
  | next :: rest =>
      let* _ := update_manager this (set_suspended rest) in
      ret next
  | [] => abort fault
  end.

(** Every occurrence of [t] is erased. *)
Definition ThreadManager_erase_suspension (this : nat) (t : tptr) : M unit :=
  update_manager this (λ m,
    set_suspended (filter (λ x, x ≠ t) (suspended m)) m).

(** Modelled from the spec: [ThreadManager::suspend] is defined in
    kernel/threads.hpp, not in threads.cpp.  It registers the thread in the
    manager's suspended queue, at the back (the queue holds the threads in
    the order they were suspended), and the insertion can fail with an
    allocation failure. *)
Definition ThreadManager_suspend (this : nat) (t : tptr) : M unit :=
  let* _ := allocate in
  update_manager this (λ m, set_suspended (suspended m ++ [t]) m).

(** [this] is the manager the method is called on, [cpu] the CPU that runs
    the call ([get_thread] looks in that CPU's manager), [target] the
    [int cpu] argument. *)
Definition ThreadManager_migrate (cpu this : nat) (tid : Z) (target : Z) : M unit :=
  let* thread := get_thread cpu tid in
  let* _ := assert (bool_decide (thread ≠ None)) in
  let* _ := ThreadManager_erase_thread_safely this thread in
  let* dst := manager_at target in
  let* p := nonnull thread in
  ThreadManager_insert_thread dst p.

(** ** Thread *)

Definition Thread_init (this : tptr) (tid : Z) : M unit :=
  let* _ := update this (set_self (Some this)) in
  update this (set_tid (to_int tid)).

(** [s->kthread = this] through [s = (libc_internal* ) this->my_tls]; a null
    [my_tls] faults. *)
Definition Thread_libc_store_this (this : tptr) : M unit :=
  let* t := deref this in
  if bool_decide (my_tls t = 0%Z) then abort fault
  else modify (λ w, set_tls_kthread (<[my_tls t := this]> (tls_kthread w)) w).

Definition Thread_store_return (this : tptr) (ret_instr ret_stack : Z) : M unit :=
  let* _ := update this (λ t, set_stored ret_instr (stored_stack t) t) in
  update this (λ t, set_stored (stored_nexti t) ret_stack t).

Definition Thread_activate (cpu : nat) (this : tptr) (newtls : Z) : M unit :=
  let* _ := update this (set_my_tls newtls) in
  let* _ := Thread_libc_store_this this in
  let* t := deref this in
  set_thread_area cpu (my_tls t).

Definition Thread_suspend (cpu : nat) (this : tptr) (ret_instr ret_stack : Z)
  : M unit :=
  let* _ := Thread_store_return this ret_instr ret_stack in
  ThreadManager_suspend cpu this.

(** Never returns: ends in one of the two control transfers. *)
Definition Thread_resume (cpu : nat) (this : tptr) : M unit :=
  let* t := deref this in
  if negb (yielded t) then
    let* _ := set_thread_area cpu (my_tls t) in
    jump (clone_return (stored_nexti t) (stored_stack t))
  else
    let* _ := update this (set_yielded false) in
    let* _ := set_thread_area cpu (my_tls t) in
    jump (thread_restore (stored_nexti t) (stored_stack t)).

Definition Thread_yield (cpu : nat) (this : tptr) : M unit :=
  let* next := ThreadManager_wakeup_next cpu in
  let* _ := update this (set_yielded true) in
  Thread_resume cpu next.

(** [pcvec.erase(it); break;] at the first [*it == x]. *)
Fixpoint erase_first (x : tptr) (l : list tptr) : list tptr :=
  match l with
  | [] => []
  | y :: l' => if decide (y = x) then l' else y :: erase_first x l'
  end.

Definition Thread_exit (cpu : nat) (this : tptr) : M unit :=
  let* current := get_thread_self cpu in
  let exiting_myself := bool_decide (current = Some this) in
  let* t := deref this in
  let* _ := assert (bool_decide (parent t ≠ None)) in
  (* detach children *)
  let* _ := foreach (children t) (λ child,
              update child (set_parent (Some (MainOf cpu)))) in
  (* remove myself from parent *)
  let* t := deref this in
  let* par := nonnull (parent t) in
  let* _ := update par (λ pt, set_children (erase_first this (children pt)) pt) in
  (* temporary copy of parent Thread pointer *)
  let* t := deref this in
  let next := parent t in
  let* _ := if bool_decide (clear_tid t ≠ 0%Z)
            then store_user (clear_tid t) 8 0
            else ret tt in
  (* delete this Thread *)
  let* _ := ThreadManager_erase_thread_safely cpu (Some this) in
  let* _ := delete_Thread this in
  (* resume parent Thread *)
  if exiting_myself then
    let* next := nonnull next in
    let* _ := ThreadManager_erase_suspension cpu next in
    Thread_resume cpu next
  else ret tt.

(** ** Free functions *)

Definition thread_create (cpu : nat) (parent : option tptr) (flags : Z)
    (ctid stack : Z) : M (option tptr) :=
  let* id := generate_new_thread_id in
  let tid := to_int id in
  try_catch
    (let* thread := new_Thread in
     let* _ := Thread_init thread tid in
     let* _ := update thread (set_parent parent) in
     let* t := deref thread in
     let* par := nonnull (kernel.parent t) in
     let* _ := allocate in
     let* _ := update par (λ pt, set_children (children pt ++ [thread]) pt) in
     let* _ := update thread (set_my_stack stack) in
     let* _ := if bool_decide (Z.land flags CLONE_CHILD_SETTID ≠ 0%Z)
               then let* t := deref thread in
                    store_user ctid 4 (to_int (kernel.tid t))
               else ret tt in
     let* _ := if bool_decide (Z.land flags CLONE_CHILD_CLEARTID ≠ 0%Z)
               then update thread (set_clear_tid ctid)
               else ret tt in
     let* _ := ThreadManager_insert_thread cpu thread in
     ret (Some thread))
    (ret None).

Definition setup_main_thread (cpu : nat) (stack_value : Z) : M unit :=
  let main := MainOf cpu in
  let* _ := Thread_init main 0 in
  let* _ := update main (set_my_stack stack_value) in
  let* area := get_thread_area cpu in
  Thread_activate cpu main area.

(** [resume(long tid)] *)
Definition resume (cpu : nat) (tid : Z) : M unit :=
  let* thread := get_thread cpu tid in
  let* _ := assert (bool_decide (thread ≠ None)) in
  let* p := nonnull thread in
  Thread_resume cpu p.

Definition __thread_suspend_and_yield (cpu : nat) (next_instr stack : Z) : M unit :=
  let* m := manager cpu in
  if bool_decide (suspended m = []) then ret tt
  else
    let* current := get_thread_self cpu in
    let* p := nonnull current in
    let* _ := Thread_suspend cpu p next_instr stack in
    Thread_yield cpu p.

Definition syscall_SYS_sched_setscheduler (pid policy param : Z) : M Z :=
  ret 0%Z.

End kernel.

Import kernel.

(** * Sample configurations *)

Module sample.

(** One CPU.  Its main thread, suspended with the continuation (5, 7), has
    one child [A] (id 1, at [Heap 0]).  [A] is registered, has the
    continuation (10, 20) saved from an earlier suspension, and is the thread
    that is executing: the thread area of the CPU is the storage block of
    [A]. *)
Definition main_0 : Thread :=
  mkThread 0 (Some (MainOf 0)) None 4096 0 7 5 true 0 [Heap 0].
Definition thread_A : Thread :=
  mkThread 1 (Some (Heap 0)) (Some (MainOf 0)) 8192 100 20 10 false 0 [].
Definition areas : gmap Z tptr := {[4096%Z := MainOf 0; 8192%Z := Heap 0]}.
Definition one_thread (queue : list tptr) (allocs : list bool) : World :=
  mkWorld 2 [mkManager {[1%Z := Heap 0]} queue main_0]
          {[0%N := thread_A]} {[0%nat := 8192%Z]} areas ∅ allocs.

(** The same, and [A] has a child [B] (id 2, at [Heap 1]) of its own. *)
Definition parent_A : Thread :=
  mkThread 1 (Some (Heap 0)) (Some (MainOf 0)) 8192 100 20 10 false 0 [Heap 1].
Definition child_B : Thread :=
  mkThread 2 (Some (Heap 1)) (Some (Heap 0)) 0 200 0 0 false 0 [].
Definition family : World :=
  mkWorld 3 [mkManager {[1%Z := Heap 0; 2%Z := Heap 1]} [] main_0]
          {[0%N := parent_A; 1%N := child_B]} {[0%nat := 8192%Z]} areas ∅ [].

(** [family] where [B] was created with [CLONE_CHILD_CLEARTID] and the
    address 500.  User memory holds the [pthread_t] of [B] in the eight bytes
    from 500 on, all of them set, and one more byte after them. *)
Definition cleared_B : Thread :=
  mkThread 2 (Some (Heap 1)) (Some (Heap 0)) 0 200 0 0 false 500 [].
Definition family_clear : World :=
  mkWorld 3 [mkManager {[1%Z := Heap 0; 2%Z := Heap 1]} [] main_0]
          {[0%N := parent_A; 1%N := cleared_B]} {[0%nat := 8192%Z]} areas
          (list_to_map ((λ i, (i, 255%Z)) <$> seqZ 500 9)) [].


(** [one_thread] with a second thread object that carries the id 1 as well
    and is not registered. *)
Definition twin_A : Thread :=
  mkThread 1 (Some (Heap 1)) (Some (MainOf 0)) 0 300 0 0 false 0 [].
Definition duplicate_id : World :=
  mkWorld 2 [mkManager {[1%Z := Heap 0]} [] main_0]
          {[0%N := thread_A; 1%N := twin_A]} {[0%nat := 8192%Z]} areas ∅ [].

(** Two CPUs; [A] is registered with the first. *)
Definition main_1 : Thread :=
  mkThread 0 (Some (MainOf 1)) None 0 0 0 0 false 0 [].
Definition two_cpus : World :=
  mkWorld 2 [mkManager {[1%Z := Heap 0]} [] main_0; mkManager ∅ [] main_1]
          {[0%N := thread_A]} {[0%nat := 8192%Z]} areas ∅ [].

(** One CPU with three threads, none suspended. *)
Definition three_threads : World :=
  mkWorld 4
    [mkManager {[1%Z := Heap 0; 2%Z := Heap 1; 3%Z := Heap 2]} []
       (mkThread 0 (Some (MainOf 0)) None 4096 0 0 0 false 0
          [Heap 0; Heap 1; Heap 2])]
    {[0%N := mkThread 1 (Some (Heap 0)) (Some (MainOf 0)) 0 100 0 0 false 0 [];
      1%N := mkThread 2 (Some (Heap 1)) (Some (MainOf 0)) 0 200 0 0 false 0 [];
      2%N := mkThread 3 (Some (Heap 2)) (Some (MainOf 0)) 0 300 0 0 false 0 []]}
    ∅ ∅ ∅ [].

(** [one_thread] after 2^32 ids have been taken from the counter while [A]
    lived on: the next value of the counter, as an [int], is the id of [A]
    again. *)
Definition wrapped : World :=
  mkWorld (2 ^ 32 + 1) [mkManager {[1%Z := Heap 0]} [] main_0]
          {[0%N := thread_A]} {[0%nat := 8192%Z]} areas ∅ [].

(** [wrapped] after [A] has created a thread. *)
Definition wrapped_after_create : World :=
  mkWorld (2 ^ 32 + 2) [mkManager {[1%Z := Heap 0]} [] main_0]
          {[0%N := mkThread 1 (Some (Heap 0)) (Some (MainOf 0)) 8192 100 20 10
                     false 0 [Heap 1];
            1%N := mkThread 1 (Some (Heap 1)) (Some (Heap 0)) 0 200 0 0
                     false 0 []]}
          {[0%nat := 8192%Z]} areas ∅ [].

(** One CPU after [setup_main_thread], before any creation. *)
Definition boot (allocs : list bool) : World :=
  mkWorld 1
    [mkManager ∅ [] (mkThread 0 (Some (MainOf 0)) None 4096 0 0 0 false 0 [])]
    ∅ {[0%nat := 4096%Z]} {[4096%Z := MainOf 0]} ∅ allocs.

End sample.

(** * Observations, and calls in sequence *)

(** The suspended queue of the manager of [cpu], if there is such a CPU. *)
Definition queue (cpu : nat) (w : World) : option (list tptr) :=
  suspended <$> thread_managers w !! cpu.

(** The registry of the manager of [cpu]. *)
Definition registry (cpu : nat) (w : World) : option (gmap Z tptr) :=
  threads <$> thread_managers w !! cpu.

(** The [n] bytes from address [a] on, if all of them have been written. *)
Fixpoint load_bytes (a : Z) (n : nat) (m : gmap Z Z) : option (list Z) :=
  match n with
  | O => Some []
  | S n' =>
      match m !! a, load_bytes (a + 1) n' m with
      | Some b, Some bs => Some (b :: bs)
      | _, _ => None
      end
  end.

Fixpoint of_le_bytes (bs : list Z) : Z :=
  match bs with
  | [] => 0
  | b :: bs' => b + 256 * of_le_bytes bs'
  end.

(** The [int] that user memory holds at [a]. *)
Definition load_int (a : Z) (m : gmap Z Z) : option Z :=
  (λ bs, to_int (of_le_bytes bs)) <$> load_bytes a 4 m.

(** [t.suspend(nexti, stack)] for each [(t, (nexti, stack))] of the list, in
    order, with nothing in between. *)
Fixpoint suspend_each (cpu : nat) (ts : list (tptr * (Z * Z))) : M unit :=
  match ts with
  | [] => ret tt
  | (t, (nexti, stack)) :: ts' =>
      let* _ := Thread_suspend cpu t nexti stack in
      suspend_each cpu ts'
  end.

(** [w'] differs from [w] at most in thread objects and in the allocations
    still to come: counter, registries, queues, thread areas and user memory
    are the same. *)
Record same_rest (w w' : World) : Prop := {
  sr_registry : ∀ i, registry i w' = registry i w;
  sr_queue : ∀ i, queue i w' = queue i w;
  sr_umem : umem w' = umem w;
  sr_fs_base : fs_base w' = fs_base w;
  sr_tls : tls_kthread w' = tls_kthread w;
  sr_counter : thread_counter w' = thread_counter w
}.

(** The control transfer by which [resume] enters a thread whose record is
    [t]. *)
Definition transfer_of (t : Thread) : transfer :=
  if yielded t
  then thread_restore (stored_nexti t) (stored_stack t)
  else clone_return (stored_nexti t) (stored_stack t).

(** The thread that is executing on [cpu], as [get_thread()] finds it. *)
Definition current_thread (cpu : nat) (w : World) : option tptr :=
  tls_kthread w !! default 0%Z (fs_base w !! cpu).

(** What [exit] of the thread at [this], with children [l] and parent [par],
    run on [cpu], makes of the record [x] of another thread [q]: a child is
    given the main thread of [cpu] as parent, and the parent loses the first
    occurrence of [this] among its children. *)
Definition detached (cpu : nat) (l : list tptr) (par this q : tptr)
    (x : Thread) : Thread :=
  let x1 := if decide (q ∈ l) then set_parent (Some (MainOf cpu)) x else x in
  if decide (q = par)
  then set_children (erase_first this (children x1)) x1
  else x1.

(** A world in which a creation with parent [par] goes through once the new
    thread [th] is allocated: both are live, the CPU has its manager, and no
    allocation fails. *)
Record ready (cpu : nat) (th par : tptr) (w : World) : Prop := {
  ready_thread : is_Some (load w th);
  ready_parent : is_Some (load w par);
  ready_manager : is_Some (registry cpu w);
  ready_allocs : allocs w = []
}.

(** A thread, with record [t] at [this], that [exit] on [cpu] can tear down:
    a heap object, registered with the manager of [cpu] under its id, with a
    live parent and live children, neither its own parent nor its own
    child. *)
Record exit_ready (cpu : nat) (this : tptr) (t : Thread) (w : World) : Prop := {
  er_heap : ∃ a, this = Heap a;
  er_parent : ∃ par, parent t = Some par ∧ par ≠ this ∧ is_Some (load w par);
  er_self : this ∉ children t;
  er_children : ∀ c, c ∈ children t → is_Some (load w c);
  er_registered : ∃ r, registry cpu w = Some r ∧ r !! tid t = Some this
}.

(** The calls of the interface. *)
Inductive call : Type :=
| do_thread_create (parent : option tptr) (flags ctid stack : Z)
| do_suspend (t : tptr) (ret_instr ret_stack : Z)
| do_yield (t : tptr)
| do_exit (t : tptr)
| do_resume (tid : Z)
| do_migrate (this : nat) (tid target : Z)
| do_wakeup_next
| do_suspend_and_yield (next_instr stack : Z)
| do_setup_main_thread (stack_value : Z).

Definition run_call (cpu : nat) (c : call) : M unit :=
  match c with
  | do_thread_create parent flags ctid stack =>
      let* _ := thread_create cpu parent flags ctid stack in ret tt
  | do_suspend t ret_instr ret_stack => Thread_suspend cpu t ret_instr ret_stack
  | do_yield t => Thread_yield cpu t
  | do_exit t => Thread_exit cpu t
  | do_resume tid => resume cpu tid
  | do_migrate this tid target => ThreadManager_migrate cpu this tid target
  | do_wakeup_next => let* _ := ThreadManager_wakeup_next cpu in ret tt
  | do_suspend_and_yield next_instr stack =>
      __thread_suspend_and_yield cpu next_instr stack
  | do_setup_main_thread stack_value => setup_main_thread cpu stack_value
  end.

(** The world in which execution goes on after a call: the caller's after a
    return or an exception, the resumed thread's after a control transfer.
    After a trap nothing goes on. *)
Definition world_after {A} (o : outcome A) : option World :=
  match o with
  | Ret _ w | Throw _ w | Jump _ w => Some w
  | Trap _ => None
  end.


(** The world after the two assignments of [store_return] to the thread [t]
    at [this]. *)
Definition stored_world (this : tptr) (t : Thread) (w : World)
    (ret_instr ret_stack : Z) : World :=
  store this (set_stored ret_instr ret_stack t)
    (store this (set_stored ret_instr (stored_stack t) t) w).

(** [n] successive calls of [wakeup_next], collecting what they return. *)
Fixpoint wakeup_times (cpu : nat) (n : nat) : M (list tptr) :=
  match n with
  | O => ret []
  | S n' =>
      let* next := ThreadManager_wakeup_next cpu in
      let* more := wakeup_times cpu n' in
      ret (next :: more)
  end.

(** The calls [cs], each on its CPU, run one after the other from [w]; the
    world they end in, unless one of them traps. *)
Fixpoint run_calls (cs : list (nat * call)) (w : World) : option World :=
  match cs with
  | [] => Some w
  | (cpu, c) :: cs' =>
      match world_after (run_call cpu c w) with
      | Some w' => run_calls cs' w'
      | None => None
      end
  end.

(** Every id in use is below [n]: the id of every thread object, and every
    key of every registry. *)
Definition ids_below (n : Z) (w : World) : Prop :=
  (∀ q t, load w q = Some t → (tid t < n)%Z)
  ∧ (∀ i r k p, registry i w = Some r → r !! k = Some p → (k < n)%Z).

(** The world [resume] ends in. *)
Definition resumed_world (cpu : nat) (p : tptr) (t : Thread) (w : World) : World :=
  set_fs_base (<[cpu := my_tls t]> (fs_base w))
    (if yielded t then store p (set_yielded false t) w else w).

(** The record [thread_create] has built for the thread at [th] when it
    comes to register it. *)
Definition created_thread (th par : tptr) (id flags ctid stack : Z) : Thread :=
  let t := set_my_stack stack
             (set_parent (Some par)
                (set_tid (to_int id) (set_self (Some th) fresh_thread))) in
  if bool_decide (Z.land flags CLONE_CHILD_CLEARTID ≠ 0%Z)
  then set_clear_tid ctid t else t.

(** The registries are sound: every entry is a live heap object whose id is
    the key, and no thread object is entered twice.  With [x = Some p], the
    thread at [p] is a heap object that is in no registry (it has just been
    allocated, or just been taken out). *)
Definition registry_sound (x : option tptr) (w : World) : Prop :=
  (∀ i r k p, registry i w = Some r → r !! k = Some p →
     ∃ a t, p = Heap a ∧ heap w !! a = Some t ∧ tid t = k)
  ∧ (∀ i j r r' k k' p,
       registry i w = Some r → r !! k = Some p →
       registry j w = Some r' → r' !! k' = Some p → i = j)
  ∧ (∀ p, x = Some p →
       (∃ a, p = Heap a)
       ∧ ∀ i r k, registry i w = Some r → r !! k ≠ Some p).

(** * Properties of computations *)

(** [preserves I c]: if [I] holds before [c], it holds in the world [c] ends
    in, however it ends. *)
Definition preserves {A} (I : World → Prop) (c : M A) : Prop :=
  ∀ w, I w → match c w with
             | Ret _ w' | Throw _ w' | Jump _ w' => I w'
             | Trap _ => True
             end.

(** [I] does not depend on the thread id counter. *)
Record counter_free (I : World → Prop) : Prop := {
  cf_managers : ∀ v w, I w → I (set_thread_managers v w);
  cf_heap : ∀ v w, I w → I (set_heap v w);
  cf_fs_base : ∀ v w, I w → I (set_fs_base v w);
  cf_tls : ∀ v w, I w → I (set_tls_kthread v w);
  cf_umem : ∀ v w, I w → I (set_umem v w);
  cf_allocs : ∀ v w, I w → I (set_allocs v w)
}.

(** [quiet c]: [c] returns or traps; it neither throws nor leaves by a
    control transfer. *)
Definition quiet {A} (c : M A) : Prop :=
  ∀ w, match c w with
       | Ret _ _ | Trap _ => True
       | Throw _ _ | Jump _ _ => False
       end.

(** [calm c]: where no allocation fails, [c] does not throw, and no
    allocation fails after it. *)
Definition calm {A} (c : M A) : Prop :=
  ∀ w, false ∉ allocs w →
       match c w with
       | Ret _ w' => false ∉ allocs w'
       | Throw _ _ => False
       | Jump _ _ | Trap _ => True
       end.

(** [triple P c Q E]: from a world in [P], [c] returns [a] into a world in
    [Q a], and leaves by an exception or a control transfer into a world in
    [E]. *)
Definition triple {A} (P : World → Prop) (c : M A)
    (Q : A → World → Prop) (E : World → Prop) : Prop :=
  ∀ w, P w → match c w with
             | Ret a w' => Q a w'
             | Throw _ w' | Jump _ w' => E w'
             | Trap _ => True
             end.

(** * Reasoning about computations *)

Section Running.
Context {A B : Type}.

Lemma bind_eq (c : M A) (f : A → M B) (w : World) :
  bind c f w = match c w with
               | Ret a w' => f a w'
               | Throw e w' => Throw e w'
               | Jump k w' => Jump k w'
               | Trap r => Trap r
               end.
Proof. reflexivity. Qed.

Lemma bind_Ret (c : M A) (f : A → M B) w a w1 :
  c w = Ret a w1 → bind c f w = f a w1.
Proof. intros H. by rewrite bind_eq, H. Qed.

Lemma bind_Throw (c : M A) (f : A → M B) w e w1 :
  c w = Throw e w1 → bind c f w = Throw e w1.
Proof. intros H. by rewrite bind_eq, H. Qed.

End Running.

Lemma deref_run p w t : load w p = Some t → deref p w = Ret t w.
Proof. unfold deref. by intros ->. Qed.

Lemma update_run p f w t :
  load w p = Some t → update p f w = Ret tt (store p (f t) w).
Proof. intros H. unfold update. by rewrite (bind_Ret _ _ _ _ _ (deref_run _ _ _ H)). Qed.

Lemma manager_run i w m :
  thread_managers w !! i = Some m → manager i w = Ret m w.
Proof. unfold manager. by intros ->. Qed.

Lemma update_manager_run i f w m :
  thread_managers w !! i = Some m →
  update_manager i f w
  = Ret tt (set_thread_managers (<[i := f m]> (thread_managers w)) w).
Proof.
  intros H. unfold update_manager.
  by rewrite (bind_Ret _ _ _ _ _ (manager_run _ _ _ H)).
Qed.

Lemma allocate_run w : allocs w = [] → allocate w = Ret tt w.
Proof. unfold allocate. by intros ->. Qed.

Lemma allocate_fail w rest :
  allocs w = false :: rest → allocate w = Throw bad_alloc (set_allocs rest w).
Proof. unfold allocate. by intros ->. Qed.

(** ** Loads after stores *)

Lemma load_store_eq p t w : is_Some (load w p) → load (store p t w) p = Some t.
Proof.
  destruct p as [c|a]; simpl.
  - intros [t0 H]. rewrite list_lookup_alter_eq.
    destruct (thread_managers w !! c); by simplify_eq/=.
  - intros _. apply lookup_insert_eq.
Qed.

Lemma load_store_ne p q t w : p ≠ q → load (store p t w) q = load w q.
Proof.
  intros Hne. destruct p as [c|a], q as [c'|a']; simpl; try done.
  - rewrite list_lookup_alter_ne; [done | congruence].
  - rewrite lookup_insert_ne; [done | congruence].
Qed.

(** A store through a [Thread*] touches no registry and no queue. *)
Lemma threads_store p t w i :
  threads <$> thread_managers (store p t w) !! i
  = threads <$> thread_managers w !! i.
Proof.
  destruct p as [c|a]; simpl; [|done].
  destruct (decide (c = i)) as [->|Hne].
  - rewrite list_lookup_alter_eq. by destruct (thread_managers w !! i).
  - by rewrite list_lookup_alter_ne.
Qed.

Lemma suspended_store p t w i :
  suspended <$> thread_managers (store p t w) !! i
  = suspended <$> thread_managers w !! i.
Proof.
  destruct p as [c|a]; simpl; [|done].
  destruct (decide (c = i)) as [->|Hne].
  - rewrite list_lookup_alter_eq. by destruct (thread_managers w !! i).
  - by rewrite list_lookup_alter_ne.
Qed.

(** * The suspended queue *)

Section Wakeup.
Variables (cpu : nat) (w : World) (m : ThreadManager).
Hypothesis Hm : thread_managers w !! cpu = Some m.

Lemma wakeup_next_empty :
  suspended m = [] → ThreadManager_wakeup_next cpu w = Trap assert_failed.
Proof.
  intros Hq. unfold ThreadManager_wakeup_next.
  rewrite (bind_Ret _ _ _ _ _ (manager_run _ _ _ Hm)). by rewrite Hq.
Qed.

Lemma wakeup_next_front next rest :
  suspended m = next :: rest →
  ThreadManager_wakeup_next cpu w
  = Ret next (set_thread_managers
                (<[cpu := set_suspended rest m]> (thread_managers w)) w).
Proof.
  intros Hq. unfold ThreadManager_wakeup_next.
  rewrite (bind_Ret _ _ _ _ _ (manager_run _ _ _ Hm)), Hq. simpl.
  rewrite bind_eq. unfold assert, bool_decide. simpl.
  by rewrite (bind_Ret _ _ _ _ _ (update_manager_run _ _ _ _ Hm)).
Qed.
End Wakeup.

(** C7. [wakeup_next] on a manager whose suspended queue is empty stops at
    the failed assertion: it neither returns nor continues.  On a non-empty
    queue it does not reach that branch: it returns the front element, and
    the queue that is left is the old one without its front. *)
Theorem wakeup_next_contract (cpu : nat) (w : World) (m : ThreadManager) :
  thread_managers w !! cpu = Some m →
  (suspended m = [] →
     ThreadManager_wakeup_next cpu w = Trap assert_failed)
  ∧ (∀ next rest, suspended m = next :: rest →
       ∃ w', ThreadManager_wakeup_next cpu w = Ret next w'
             ∧ suspended <$> thread_managers w' !! cpu = Some rest
             ∧ threads <$> thread_managers w' !! cpu = Some (threads m)
             ∧ heap w' = heap w).
Proof.
  intros Hm. split.
  - by apply wakeup_next_empty.
  - intros next rest Hq. eexists. split; [by apply wakeup_next_front|].
    simpl. rewrite list_lookup_insert_eq by (by eapply lookup_lt_Some).
    done.
Qed.

(** * Lookup by id and [resume] *)

Lemma get_thread_run cpu tid w m :
  thread_managers w !! cpu = Some m →
  get_thread cpu tid w = Ret (threads m !! tid) w.
Proof.
  intros Hm. unfold get_thread.
  by rewrite (bind_Ret _ _ _ _ _ (manager_run _ _ _ Hm)).
Qed.

(** C9. [get_thread(tid)] reads the registry of the manager of the CPU that
    calls it and nothing else.  So an id that is registered with the manager
    of another CPU, and not with this one, is not found from here, and
    [resume(tid)] from here stops at its assertion although the thread
    exists. *)
Theorem get_thread_calling_cpu_only
    (w : World) (cpu other : nat) (m m' : ThreadManager) (tid : Z) (p : tptr) :
  thread_managers w !! cpu = Some m →
  thread_managers w !! other = Some m' →
  other ≠ cpu →
  threads m' !! tid = Some p →
  threads m !! tid = None →
  get_thread cpu tid w = Ret None w
  ∧ resume cpu tid w = Trap assert_failed
  ∧ get_thread other tid w = Ret (Some p) w.
Proof.
  intros Hm Hm' _ Hp Hnone. split_and!.
  - by rewrite (get_thread_run _ _ _ _ Hm), Hnone.
  - unfold resume.
    by rewrite (bind_Ret _ _ _ _ _ (get_thread_run _ _ _ _ Hm)), Hnone.
  - by rewrite (get_thread_run _ _ _ _ Hm'), Hp.
Qed.

(** * The registry *)

Section Insert.
Variables (this : nat) (w : World) (m : ThreadManager).
Variables (thread : tptr) (t : Thread).
Hypothesis Hm : thread_managers w !! this = Some m.
Hypothesis Ht : load w thread = Some t.

Lemma insert_thread_eq :
  ThreadManager_insert_thread this thread w
  = bind allocate (λ _, update_manager this (λ m,
      match threads m !! tid t with
      | Some _ => m
      | None => set_threads (<[tid t := thread]> (threads m)) m
      end)) w.
Proof.
  unfold ThreadManager_insert_thread.
  by rewrite (bind_Ret _ _ _ _ _ (deref_run _ _ _ Ht)).
Qed.

Lemma insert_thread_fresh :
  allocs w = [] → threads m !! tid t = None →
  ThreadManager_insert_thread this thread w
  = Ret tt (set_thread_managers
              (<[this := set_threads (<[tid t := thread]> (threads m)) m]>
                 (thread_managers w)) w).
Proof.
  intros Ha Hk. rewrite insert_thread_eq.
  rewrite (bind_Ret _ _ _ _ _ (allocate_run _ Ha)).
  by rewrite (update_manager_run _ _ _ _ Hm), Hk.
Qed.

Lemma insert_thread_present :
  is_Some (threads m !! tid t) →
  ThreadManager_insert_thread this thread w = allocate w.
Proof.
  intros [q Hq]. rewrite insert_thread_eq, bind_eq.
  unfold allocate. destruct (allocs w) as [|[] rest]; try done.
  - rewrite (update_manager_run _ _ _ _ Hm), Hq.
    rewrite list_insert_id by done. by destruct w.
  - assert (Hm' : thread_managers (set_allocs rest w) !! this = Some m) by done.
    rewrite (update_manager_run _ _ _ _ Hm'), Hq. simpl.
    by rewrite list_insert_id by done.
Qed.
End Insert.

(** C3, as the code has it.  [insert_thread] of a thread whose id is already
    a key of the registry does not trap.  The map's [emplace] allocates its
    node and then finds the key taken: if the allocation succeeds the call
    returns with every manager, registry and thread as before, the old entry
    kept and the new thread not registered; if it fails, [bad_alloc] is
    thrown.  In neither case is anything but the allocation consumed. *)
Theorem insert_thread_duplicate_is_silent
    (this : nat) (w : World) (m : ThreadManager) (thread : tptr) (t : Thread) :
  thread_managers w !! this = Some m →
  load w thread = Some t →
  is_Some (threads m !! tid t) →
  (∀ r, ThreadManager_insert_thread this thread w ≠ Trap r)
  ∧ (allocs w = [] → ThreadManager_insert_thread this thread w = Ret tt w)
  ∧ (∀ rest, allocs w = true :: rest →
       ThreadManager_insert_thread this thread w = Ret tt (set_allocs rest w))
  ∧ (∀ rest, allocs w = false :: rest →
       ThreadManager_insert_thread this thread w
       = Throw bad_alloc (set_allocs rest w)).
Proof.
  intros Hm Ht Hk.
  rewrite (insert_thread_present _ _ _ _ _ Hm Ht Hk). unfold allocate.
  split_and!.
  - intros r. by destruct (allocs w) as [|[] ?].
  - by intros ->.
  - by intros rest ->.
  - by intros rest ->.
Qed.

(** * Suspension *)

Lemma load_set_managers w i m m' p :
  thread_managers w !! i = Some m →
  main_thread m' = main_thread m →
  load (set_thread_managers (<[i := m']> (thread_managers w)) w) p = load w p.
Proof.
  intros Hm Hmain. destruct p as [c|a]; simpl; [|done].
  destruct (decide (i = c)) as [->|Hne].
  - rewrite list_lookup_insert_eq by (by eapply lookup_lt_Some).
    rewrite Hm. simpl. by rewrite Hmain.
  - by rewrite list_lookup_insert_ne.
Qed.

Lemma queue_store p t w i : queue i (store p t w) = queue i w.
Proof. apply suspended_store. Qed.

Lemma registry_store p t w i : registry i (store p t w) = registry i w.
Proof. apply threads_store. Qed.

Lemma allocs_store p t w : allocs (store p t w) = allocs w.
Proof. by destruct p. Qed.

Section StoreReturn.
Variables (this : tptr) (t : Thread) (w : World) (ret_instr ret_stack : Z).
Hypothesis Ht : load w this = Some t.

Local Abbreviation stored_world := (stored_world this t w ret_instr ret_stack).

Lemma store_return_run :
  Thread_store_return this ret_instr ret_stack w = Ret tt stored_world.
Proof.
  unfold Thread_store_return.
  rewrite (bind_Ret _ _ _ _ _ (update_run _ _ _ _ Ht)).
  rewrite (update_run _ _ _ (set_stored ret_instr (stored_stack t) t)).
  - reflexivity.
  - by rewrite load_store_eq.
Qed.

Lemma stored_world_load_eq :
  load stored_world this = Some (set_stored ret_instr ret_stack t).
Proof.
  unfold stored_world. rewrite load_store_eq; [done|].
  by rewrite load_store_eq.
Qed.

Lemma stored_world_load_ne q : q ≠ this → load stored_world q = load w q.
Proof.
  intros Hne. unfold stored_world. by rewrite !load_store_ne.
Qed.

Lemma stored_world_live q : is_Some (load w q) → is_Some (load stored_world q).
Proof.
  intros Hq. destruct (decide (q = this)) as [->|Hne].
  - by rewrite stored_world_load_eq.
  - by rewrite stored_world_load_ne.
Qed.

Lemma stored_world_queue i : queue i stored_world = queue i w.
Proof. unfold stored_world. by rewrite !queue_store. Qed.

Lemma stored_world_registry i : registry i stored_world = registry i w.
Proof. unfold stored_world. by rewrite !registry_store. Qed.

Lemma stored_world_allocs : allocs stored_world = allocs w.
Proof. unfold stored_world. by rewrite !allocs_store. Qed.
End StoreReturn.

Lemma queue_Some cpu w q :
  queue cpu w = Some q →
  ∃ m, thread_managers w !! cpu = Some m ∧ suspended m = q.
Proof.
  unfold queue. destruct (thread_managers w !! cpu) as [m|]; [|done].
  intros [= <-]. by eauto.
Qed.

Lemma manager_suspend_run cpu t w m :
  thread_managers w !! cpu = Some m → allocs w = [] →
  ThreadManager_suspend cpu t w
  = Ret tt (set_thread_managers
              (<[cpu := set_suspended (suspended m ++ [t]) m]>
                 (thread_managers w)) w).
Proof.
  intros Hm Ha. unfold ThreadManager_suspend.
  rewrite (bind_Ret _ _ _ _ _ (allocate_run _ Ha)).
  by rewrite (update_manager_run _ _ _ _ Hm).
Qed.

Lemma manager_suspend_fail cpu t w rest :
  allocs w = false :: rest →
  ThreadManager_suspend cpu t w = Throw bad_alloc (set_allocs rest w).
Proof.
  intros Ha. unfold ThreadManager_suspend.
  by rewrite (bind_Throw _ _ _ _ _ (allocate_fail _ _ Ha)).
Qed.

(** One successful [suspend]: the thread goes to the back of the queue. *)
Lemma suspend_run cpu this t w q ret_instr ret_stack :
  load w this = Some t → queue cpu w = Some q → allocs w = [] →
  ∃ w', Thread_suspend cpu this ret_instr ret_stack w = Ret tt w'
        ∧ queue cpu w' = Some (q ++ [this])
        ∧ allocs w' = []
        ∧ (∀ p, is_Some (load w p) → is_Some (load w' p)).
Proof.
  intros Ht Hq Ha.
  pose (w1 := stored_world this t w ret_instr ret_stack).
  assert (Hq1 : queue cpu w1 = Some q) by (by unfold w1; rewrite stored_world_queue).
  destruct (queue_Some _ _ _ Hq1) as (m & Hm & Hsm).
  assert (Ha1 : allocs w1 = []) by (by unfold w1; rewrite stored_world_allocs).
  eexists. split_and!.
  - unfold Thread_suspend.
    rewrite (bind_Ret _ _ _ _ _ (store_return_run _ _ _ ret_instr ret_stack Ht)).
    by apply manager_suspend_run.
  - unfold queue. simpl.
    rewrite list_lookup_insert_eq by (by eapply lookup_lt_Some).
    simpl. by rewrite Hsm.
  - done.
  - intros p Hp. erewrite load_set_managers; [|done|done].
    by apply stored_world_live.
Qed.

(** C4, as the code has it.  [suspend] stores the new continuation first and
    enqueues second.  When the enqueue fails, [bad_alloc] reaches the caller,
    the thread is in no queue it was not in, every registry is as before and
    every other thread is untouched; of the thread itself all fields are as
    before except the stored continuation, which already is the new one. *)
Theorem suspend_enqueue_failure
    (cpu : nat) (this : tptr) (t : Thread) (w : World) (rest : list bool)
    (ret_instr ret_stack : Z) :
  load w this = Some t →
  allocs w = false :: rest →
  ∃ w', Thread_suspend cpu this ret_instr ret_stack w = Throw bad_alloc w'
        ∧ load w' this = Some (set_stored ret_instr ret_stack t)
        ∧ (∀ q, q ≠ this → load w' q = load w q)
        ∧ (∀ i, registry i w' = registry i w)
        ∧ (∀ i, queue i w' = queue i w).
Proof.
  intros Ht Ha.
  pose (w1 := stored_world this t w ret_instr ret_stack).
  exists (set_allocs rest w1). split_and!.
  - unfold Thread_suspend.
    rewrite (bind_Ret _ _ _ _ _ (store_return_run _ _ _ ret_instr ret_stack Ht)).
    apply manager_suspend_fail. unfold w1. by rewrite stored_world_allocs.
  - by apply (stored_world_load_eq this t w ret_instr ret_stack).
  - intros q Hq. by apply (stored_world_load_ne this t w ret_instr ret_stack).
  - intros i. apply stored_world_registry.
  - intros i. apply stored_world_queue.
Qed.

(** Counterexample to C4 as stated: the enqueue of [A] fails, and the
    continuation (10, 20) that [A] had stored is gone. *)
Lemma suspend_enqueue_failure_overwrites :
  let w := sample.one_thread [] [false] in
  ∃ w', Thread_suspend 0 (Heap 0) 30 40 w = Throw bad_alloc w'
        ∧ (stored_nexti <$> load w (Heap 0) = Some 10%Z
           ∧ stored_stack <$> load w (Heap 0) = Some 20%Z)
        ∧ (stored_nexti <$> load w' (Heap 0) = Some 30%Z
           ∧ stored_stack <$> load w' (Heap 0) = Some 40%Z)
        ∧ load w' (Heap 0) ≠ load w (Heap 0).
Proof. eexists. split_and!; [reflexivity | done..]. Qed.

Lemma suspend_each_run cpu ts : ∀ w q,
  queue cpu w = Some q → allocs w = [] →
  Forall (λ x, is_Some (load w x.1)) ts →
  ∃ w', suspend_each cpu ts w = Ret tt w'
        ∧ queue cpu w' = Some (q ++ ts.*1)
        ∧ allocs w' = [].
Proof.
  induction ts as [|[t [nexti stack]] ts IH]; intros w q Hq Ha Hlive.
  - exists w. simpl. by rewrite app_nil_r.
  - apply Forall_cons in Hlive as [[t0 Ht] Hlive]. simpl in Ht.
    destruct (suspend_run cpu t t0 w q nexti stack Ht Hq Ha)
      as (w1 & Hrun & Hq1 & Ha1 & Hlive1).
    destruct (IH w1 (q ++ [t]) Hq1 Ha1) as (w' & Hrun' & Hq' & Ha').
    { eapply Forall_impl; [exact Hlive|]. intros x Hx. by apply Hlive1. }
    exists w'. split_and!; [|by rewrite Hq', <- app_assoc|done].
    simpl. by rewrite (bind_Ret _ _ _ _ _ Hrun).
Qed.

Lemma wakeup_times_run cpu l : ∀ w rest,
  queue cpu w = Some (l ++ rest) →
  ∃ w', wakeup_times cpu (length l) w = Ret l w' ∧ queue cpu w' = Some rest.
Proof.
  induction l as [|x l IH]; intros w rest Hq.
  - by exists w.
  - destruct (queue_Some _ _ _ Hq) as (m & Hm & Hsm).
    pose proof (wakeup_next_front cpu w m Hm x (l ++ rest) Hsm) as Hrun.
    destruct (IH (set_thread_managers
                    (<[cpu := set_suspended (l ++ rest) m]> (thread_managers w)) w)
                 rest) as (w' & Hrun' & Hq').
    { unfold queue. simpl.
      by rewrite list_lookup_insert_eq by (by eapply lookup_lt_Some). }
    exists w'. split; [|done]. simpl.
    rewrite (bind_Ret _ _ _ _ _ Hrun).
    by rewrite (bind_Ret _ _ _ _ _ Hrun').
Qed.

(** C5. Threads suspended one after the other on one manager, with no resume
    in between, are handed out by successive [wakeup_next] calls in the order
    of their suspension: whatever was queued before comes first, then the
    first suspended, then the second, and so on.  For three suspensions
    [T1], [T2], [T3] on an empty queue the calls return [T1], [T2], [T3]. *)
Theorem suspended_queue_is_fifo
    (cpu : nat) (w : World) (q : list tptr) (ts : list (tptr * (Z * Z))) :
  queue cpu w = Some q →
  allocs w = [] →
  Forall (λ x, is_Some (load w x.1)) ts →
  ∃ w', (let* _ := suspend_each cpu ts in
         wakeup_times cpu (length q + length ts)) w
        = Ret (q ++ ts.*1) w'
        ∧ queue cpu w' = Some [].
Proof.
  intros Hq Ha Hlive.
  destruct (suspend_each_run cpu ts w q Hq Ha Hlive) as (w1 & Hrun & Hq1 & _).
  destruct (wakeup_times_run cpu (q ++ ts.*1) w1 []) as (w' & Hrun' & Hq').
  { by rewrite app_nil_r. }
  exists w'. split; [|done].
  rewrite (bind_Ret _ _ _ _ _ Hrun).
  by rewrite length_app, length_fmap in Hrun'.
Qed.

(** * Erasing from the registry, and migration *)

Lemma erase_thread_safely_run this p t w m :
  thread_managers w !! this = Some m →
  load w p = Some t →
  threads m !! tid t = Some p →
  ThreadManager_erase_thread_safely this (Some p) w
  = Ret tt (set_thread_managers
              (<[this := set_threads (delete (tid t) (threads m)) m]>
                 (thread_managers w)) w).
Proof.
  intros Hm Ht Hk. unfold ThreadManager_erase_thread_safely.
  rewrite bind_eq. simpl. rewrite bind_eq. simpl.
  rewrite (bind_Ret _ _ _ _ _ (deref_run _ _ _ Ht)).
  rewrite (bind_Ret _ _ _ _ _ (manager_run _ _ _ Hm)).
  rewrite Hk, bind_eq. simpl. rewrite bind_eq.
  unfold assert. rewrite bool_decide_eq_true_2 by done. unfold ret.
  by rewrite (update_manager_run _ _ _ _ Hm).
Qed.

Lemma manager_at_run w (i : nat) :
  i < length (thread_managers w) → manager_at (Z.of_nat i) w = Ret i w.
Proof.
  intros Hi. unfold manager_at.
  rewrite bool_decide_eq_true_2 by lia. by rewrite Nat2Z.id.
Qed.

(** C6. [migrate(tid, cpuB)], called on the manager of [cpuA] by [cpuA], for
    a thread that is registered there under its id: the call returns, the id
    is no longer a key of the registry of [cpuA] and is a key of the registry
    of [cpuB] (bound to the migrated thread, the id being free there before).
    No thread object is written: every field of every thread, the migrated
    one included, reads as before, and so do all the queues and the
    registries of the other CPUs. *)
Theorem migrate_moves_registration
    (w : World) (cpuA cpuB : nat) (mA mB : ThreadManager)
    (tid : Z) (p : tptr) (t : Thread) :
  thread_managers w !! cpuA = Some mA →
  thread_managers w !! cpuB = Some mB →
  cpuA ≠ cpuB →
  threads mA !! tid = Some p →
  load w p = Some t →
  kernel.tid t = tid →
  allocs w = [] →
  ∃ w', ThreadManager_migrate cpuA cpuA tid (Z.of_nat cpuB) w = Ret tt w'
        ∧ registry cpuA w' = Some (delete tid (threads mA))
        ∧ (∃ rB, registry cpuB w' = Some rB
                 ∧ is_Some (rB !! tid)
                 ∧ (threads mB !! tid = None → rB = <[tid := p]> (threads mB)))
        ∧ (∀ q, load w' q = load w q)
        ∧ heap w' = heap w
        ∧ (∀ i, queue i w' = queue i w)
        ∧ (∀ i, i ≠ cpuA → i ≠ cpuB → registry i w' = registry i w).
Proof.
  intros HmA HmB Hne Hp Ht Htid Ha. subst tid.
  pose (mA' := set_threads (delete (kernel.tid t) (threads mA)) mA).
  pose (w1 := set_thread_managers (<[cpuA := mA']> (thread_managers w)) w).
  assert (HA : cpuA < length (thread_managers w)) by (by eapply lookup_lt_Some).
  assert (Hrun1 : ThreadManager_erase_thread_safely cpuA (Some p) w = Ret tt w1)
    by (by apply erase_thread_safely_run).
  assert (Ht1 : load w1 p = Some t).
  { unfold w1. by erewrite load_set_managers. }
  assert (HmB1 : thread_managers w1 !! cpuB = Some mB).
  { unfold w1. simpl. by rewrite list_lookup_insert_ne. }
  assert (HmA1 : thread_managers w1 !! cpuA = Some mA').
  { unfold w1. simpl. by rewrite list_lookup_insert_eq. }
  assert (Hat : manager_at (Z.of_nat cpuB) w1 = Ret cpuB w1).
  { apply manager_at_run. unfold w1. simpl. rewrite length_insert.
    by eapply lookup_lt_Some. }
  assert (Hload1 : ∀ q, load w1 q = load w q).
  { intros q. unfold w1. by erewrite load_set_managers. }
  assert (Hstart :
    ThreadManager_migrate cpuA cpuA (kernel.tid t) (Z.of_nat cpuB) w
    = ThreadManager_insert_thread cpuB p w1).
  { unfold ThreadManager_migrate.
    rewrite (bind_Ret _ _ _ _ _ (get_thread_run _ _ _ _ HmA)), Hp.
    rewrite bind_eq. simpl.
    rewrite (bind_Ret _ _ _ _ _ Hrun1).
    by rewrite (bind_Ret _ _ _ _ _ Hat). }
  rewrite Hstart.
  destruct (threads mB !! kernel.tid t) as [old|] eqn:Hk.
  - (* the id is taken on cpuB: the registry there stays as it is *)
    exists w1. split_and!.
    + rewrite (insert_thread_present cpuB w1 mB p t HmB1 Ht1) by (by rewrite Hk).
      by apply allocate_run.
    + unfold registry. by rewrite HmA1.
    + exists (threads mB). unfold registry. rewrite HmB1. by split_and!.
    + done.
    + done.
    + intros i. unfold queue, w1. simpl.
      destruct (decide (i = cpuA)) as [->|Hi].
      * rewrite list_lookup_insert_eq by done. by rewrite HmA.
      * by rewrite list_lookup_insert_ne.
    + intros i Hi _. unfold registry, w1. simpl.
      by rewrite list_lookup_insert_ne.
  - eexists. split_and!.
    + by apply (insert_thread_fresh cpuB w1 mB p t HmB1 Ht1).
    + unfold registry. simpl.
      rewrite list_lookup_insert_ne by done.
      by rewrite list_lookup_insert_eq by done.
    + eexists. unfold registry. simpl.
      rewrite list_lookup_insert_eq
        by (rewrite length_insert; by eapply lookup_lt_Some).
      split_and!; [done| |done]. simpl. by rewrite lookup_insert_eq.
    + intros q. erewrite load_set_managers; [|exact HmB1|done]. done.
    + done.
    + intros i. unfold queue. simpl.
      destruct (decide (i = cpuB)) as [->|Hi].
      * rewrite list_lookup_insert_eq
          by (rewrite length_insert; by eapply lookup_lt_Some).
        simpl. by rewrite HmB.
      * rewrite list_lookup_insert_ne by done.
        destruct (decide (i = cpuA)) as [->|Hi'].
        -- rewrite list_lookup_insert_eq by done. by rewrite HmA.
        -- by rewrite list_lookup_insert_ne.
    + intros i Hi Hi'. unfold registry. simpl.
      by rewrite !list_lookup_insert_ne.
Qed.

(** * What a call leaves alone *)

Section Preserves.
Context (I : World → Prop).

Lemma preserves_ret {A} (a : A) : preserves I (ret a).
Proof. by intros w H. Qed.

Lemma preserves_bind {A B} (c : M A) (f : A → M B) :
  preserves I c → (∀ a, preserves I (f a)) → preserves I (bind c f).
Proof.
  intros Hc Hf w H. rewrite bind_eq. specialize (Hc w H).
  destruct (c w); try done. by apply Hf.
Qed.

Lemma preserves_try_catch {A} (c h : M A) :
  preserves I c → preserves I h → preserves I (try_catch c h).
Proof.
  intros Hc Hh w H. unfold try_catch. specialize (Hc w H).
  destruct (c w); try done. by apply Hh.
Qed.

Lemma preserves_abort {A} r : preserves I (@abort A r).
Proof. by intros w H. Qed.

Lemma preserves_jump {A} k : preserves I (@jump A k).
Proof. by intros w H. Qed.

Lemma preserves_gets {A} (f : World → A) : preserves I (gets f).
Proof. by intros w H. Qed.

Lemma preserves_assert b : preserves I (assert b).
Proof. intros w H. by destruct b. Qed.

Lemma preserves_nonnull p : preserves I (nonnull p).
Proof. intros w H. by destruct p. Qed.

Lemma preserves_deref p : preserves I (deref p).
Proof. intros w H. unfold deref. by destruct (load w p). Qed.

Lemma preserves_manager i : preserves I (manager i).
Proof. intros w H. unfold manager. by destruct (thread_managers w !! i). Qed.

Lemma preserves_manager_at i : preserves I (manager_at i).
Proof. intros w H. unfold manager_at. by case_bool_decide. Qed.

Lemma preserves_modify f :
  (∀ w, I w → I (f w)) → preserves I (modify f).
Proof. intros Hf w H. by apply Hf. Qed.

Lemma preserves_foreach {A} (l : list A) body :
  (∀ x, preserves I (body x)) → preserves I (foreach l body).
Proof.
  intros Hb. induction l as [|x l IH]; simpl.
  - apply preserves_ret.
  - apply preserves_bind; [apply Hb | by intros _].
Qed.

Hypothesis Hfree : counter_free I.

Lemma preserves_store p t w : I w → I (store p t w).
Proof.
  intros H. destruct p; simpl.
  - by apply cf_managers.
  - by apply cf_heap.
Qed.

Lemma preserves_update p f : preserves I (update p f).
Proof.
  apply preserves_bind; [apply preserves_deref|].
  intros t. apply preserves_modify. intros w. apply preserves_store.
Qed.

Lemma preserves_update_manager i f : preserves I (update_manager i f).
Proof.
  apply preserves_bind; [apply preserves_manager|].
  intros m. apply preserves_modify. intros w. by apply cf_managers.
Qed.

Lemma preserves_allocate : preserves I allocate.
Proof.
  intros w H. unfold allocate.
  destruct (allocs w) as [|[] rest]; try done; by apply cf_allocs.
Qed.

Lemma preserves_new_Thread : preserves I new_Thread.
Proof.
  apply preserves_bind; [apply preserves_allocate|].
  intros _ w H. cbv beta zeta. by apply cf_heap.
Qed.

Lemma preserves_delete_Thread p : preserves I (delete_Thread p).
Proof.
  intros w H. unfold delete_Thread. destruct p as [c|a]; [done|].
  destruct (heap w !! a); [|done]. by apply cf_heap.
Qed.

Lemma preserves_set_thread_area cpu a : preserves I (set_thread_area cpu a).
Proof. apply preserves_modify. intros w. by apply cf_fs_base. Qed.

Lemma preserves_store_user p n v : preserves I (store_user p n v).
Proof.
  unfold store_user. case_bool_decide; [apply preserves_abort|].
  apply preserves_modify. intros w. by apply cf_umem.
Qed.
End Preserves.

Create HintDb preserves.

(** Goals [preserves I c] for straight-line code over the primitives. *)
Ltac preserves_step :=
  lazymatch goal with
  | |- preserves _ (bind _ _) => apply preserves_bind; [|intros ?]
  | |- preserves _ (ret _) => apply preserves_ret
  | |- preserves _ (assert _) => apply preserves_assert
  | |- preserves _ (nonnull _) => apply preserves_nonnull
  | |- preserves _ (deref _) => apply preserves_deref
  | |- preserves _ (manager _) => apply preserves_manager
  | |- preserves _ (manager_at _) => apply preserves_manager_at
  | |- preserves _ (gets _) => apply preserves_gets
  | |- preserves _ (jump _) => apply preserves_jump
  | |- preserves _ (abort _) => apply preserves_abort
  | |- preserves _ (update _ _) => apply preserves_update; assumption
  | |- preserves _ (update_manager _ _) =>
      apply preserves_update_manager; assumption
  | |- preserves _ allocate => apply preserves_allocate; assumption
  | |- preserves _ new_Thread => apply preserves_new_Thread; assumption
  | |- preserves _ (delete_Thread _) =>
      apply preserves_delete_Thread; assumption
  | |- preserves _ (set_thread_area _ _) =>
      apply preserves_set_thread_area; assumption
  | |- preserves _ (store_user _ _ _) =>
      apply preserves_store_user; assumption
  | |- preserves _ (foreach _ _) => apply preserves_foreach; intros ?
  | |- preserves _ (try_catch _ _) => apply preserves_try_catch
  | |- preserves _ (modify (λ w, set_umem _ w)) =>
      apply preserves_modify; intros ?; apply cf_umem; assumption
  | |- preserves _ (modify (λ w, set_tls_kthread _ w)) =>
      apply preserves_modify; intros ?; apply cf_tls; assumption
  | |- preserves _ (if ?b then _ else _) => destruct b
  | |- preserves _ (match ?x with _ => _ end) => destruct x
  | |- preserves _ _ => solve [eauto with preserves]
  end.

Ltac preserves_tac := repeat preserves_step.

Section CounterFree.
Context (I : World → Prop) (Hfree : counter_free I).

Lemma preserves_get_thread_area cpu : preserves I (get_thread_area cpu).
Proof. unfold get_thread_area. preserves_tac. Qed.
#[local] Hint Resolve preserves_get_thread_area : preserves.

Lemma preserves_get_thread_self cpu : preserves I (get_thread_self cpu).
Proof. unfold get_thread_self, get_thread_area. preserves_tac. Qed.
#[local] Hint Resolve preserves_get_thread_self : preserves.

Lemma preserves_get_thread cpu tid : preserves I (get_thread cpu tid).
Proof. unfold get_thread. preserves_tac. Qed.
#[local] Hint Resolve preserves_get_thread : preserves.

Lemma preserves_insert_thread this p :
  preserves I (ThreadManager_insert_thread this p).
Proof. unfold ThreadManager_insert_thread. preserves_tac. Qed.
#[local] Hint Resolve preserves_insert_thread : preserves.

Lemma preserves_erase_thread_safely this p :
  preserves I (ThreadManager_erase_thread_safely this p).
Proof. unfold ThreadManager_erase_thread_safely. preserves_tac. Qed.
#[local] Hint Resolve preserves_erase_thread_safely : preserves.

Lemma preserves_wakeup_next this : preserves I (ThreadManager_wakeup_next this).
Proof. unfold ThreadManager_wakeup_next. preserves_tac. Qed.
#[local] Hint Resolve preserves_wakeup_next : preserves.

Lemma preserves_erase_suspension this t :
  preserves I (ThreadManager_erase_suspension this t).
Proof. unfold ThreadManager_erase_suspension. preserves_tac. Qed.
#[local] Hint Resolve preserves_erase_suspension : preserves.

Lemma preserves_manager_suspend this t :
  preserves I (ThreadManager_suspend this t).
Proof. unfold ThreadManager_suspend. preserves_tac. Qed.
#[local] Hint Resolve preserves_manager_suspend : preserves.

Lemma preserves_migrate cpu this tid target :
  preserves I (ThreadManager_migrate cpu this tid target).
Proof.
  unfold ThreadManager_migrate.
  preserves_tac.
Qed.
#[local] Hint Resolve preserves_migrate : preserves.

Lemma preserves_init this tid : preserves I (Thread_init this tid).
Proof. unfold Thread_init. preserves_tac. Qed.
#[local] Hint Resolve preserves_init : preserves.

Lemma preserves_libc_store_this this : preserves I (Thread_libc_store_this this).
Proof.
  unfold Thread_libc_store_this. preserves_tac.
Qed.
#[local] Hint Resolve preserves_libc_store_this : preserves.

Lemma preserves_store_return this ri rs :
  preserves I (Thread_store_return this ri rs).
Proof. unfold Thread_store_return. preserves_tac. Qed.
#[local] Hint Resolve preserves_store_return : preserves.

Lemma preserves_activate cpu this tls : preserves I (Thread_activate cpu this tls).
Proof.
  unfold Thread_activate.
  preserves_tac.
Qed.
#[local] Hint Resolve preserves_activate : preserves.

Lemma preserves_suspend cpu this ri rs :
  preserves I (Thread_suspend cpu this ri rs).
Proof.
  unfold Thread_suspend.
  preserves_tac.
Qed.
#[local] Hint Resolve preserves_suspend : preserves.

Lemma preserves_resume cpu this : preserves I (Thread_resume cpu this).
Proof. unfold Thread_resume. preserves_tac. Qed.
#[local] Hint Resolve preserves_resume : preserves.

Lemma preserves_yield cpu this : preserves I (Thread_yield cpu this).
Proof.
  unfold Thread_yield.
  preserves_tac.
Qed.
#[local] Hint Resolve preserves_yield : preserves.

Lemma preserves_exit cpu this : preserves I (Thread_exit cpu this).
Proof.
  unfold Thread_exit.
  preserves_tac.
Qed.
#[local] Hint Resolve preserves_exit : preserves.

Lemma preserves_resume_tid cpu tid : preserves I (resume cpu tid).
Proof.
  unfold resume.
  preserves_tac.
Qed.
#[local] Hint Resolve preserves_resume_tid : preserves.

Lemma preserves_suspend_and_yield cpu ni st :
  preserves I (__thread_suspend_and_yield cpu ni st).
Proof.
  unfold __thread_suspend_and_yield.
  preserves_tac.
Qed.
#[local] Hint Resolve preserves_suspend_and_yield : preserves.

Lemma preserves_setup_main_thread cpu sv :
  preserves I (setup_main_thread cpu sv).
Proof.
  unfold setup_main_thread.
  preserves_tac.
Qed.
#[local] Hint Resolve preserves_setup_main_thread : preserves.

(** The [try] block of [thread_create]. *)
Lemma preserves_thread_create_body cpu parent flags ctid stack tid :
  preserves I
    (let* thread := new_Thread in
     let* _ := Thread_init thread tid in
     let* _ := update thread (set_parent parent) in
     let* t := deref thread in
     let* par := nonnull (kernel.parent t) in
     let* _ := allocate in
     let* _ := update par (λ pt, set_children (children pt ++ [thread]) pt) in
     let* _ := update thread (set_my_stack stack) in
     let* _ := if bool_decide (Z.land flags CLONE_CHILD_SETTID ≠ 0%Z)
               then let* t := deref thread in
                    store_user ctid 4 (to_int (kernel.tid t))
               else ret tt in
     let* _ := if bool_decide (Z.land flags CLONE_CHILD_CLEARTID ≠ 0%Z)
               then update thread (set_clear_tid ctid)
               else ret tt in
     let* _ := ThreadManager_insert_thread cpu thread in
     ret (Some thread)).
Proof.
  preserves_tac.
Qed.
#[local] Hint Resolve preserves_thread_create_body : preserves.
End CounterFree.

(** * Integer conversions *)

Lemma wrap_long_id z : (- 2 ^ 63 ≤ z < 2 ^ 63)%Z → wrap_long z = z.
Proof. intros Hz. unfold wrap_long. rewrite Z.mod_small; lia. Qed.

Lemma to_int_id z : (- 2 ^ 31 ≤ z < 2 ^ 31)%Z → to_int z = z.
Proof. intros Hz. unfold to_int. rewrite Z.mod_small; lia. Qed.

Lemma to_int_idemp z : to_int (to_int z) = to_int z.
Proof.
  apply to_int_id. unfold to_int.
  pose proof (Z.mod_pos_bound (z + 2 ^ 31) (2 ^ 32)). lia.
Qed.

(** * User memory *)

Lemma lookup_store_bytes_out bs : ∀ a m x,
  ¬ (a ≤ x < a + Z.of_nat (length bs))%Z → store_bytes a bs m !! x = m !! x.
Proof.
  induction bs as [|b bs IH]; intros a m x Hx; simpl; [done|].
  simpl in Hx. rewrite IH by lia. apply lookup_insert_ne. lia.
Qed.

Lemma load_store_bytes bs : ∀ a m,
  load_bytes a (length bs) (store_bytes a bs m) = Some bs.
Proof.
  induction bs as [|b bs IH]; intros a m; simpl; [done|].
  rewrite IH, lookup_store_bytes_out by lia.
  by rewrite lookup_insert_eq.
Qed.

Lemma length_le_bytes n : ∀ v, length (le_bytes n v) = n.
Proof. induction n as [|n IH]; intros v; simpl; [done|]. by rewrite IH. Qed.

Lemma of_le_bytes_le_bytes n : ∀ v,
  of_le_bytes (le_bytes n v) = (v `mod` 256 ^ Z.of_nat n)%Z.
Proof.
  induction n as [|n IH]; intros v.
  - simpl. by rewrite Z.mod_1_r.
  - cbn [le_bytes of_le_bytes]. rewrite IH.
    rewrite Nat2Z.inj_succ, Z.pow_succ_r by lia.
    rewrite Z.rem_mul_r by lia. lia.
Qed.

Lemma to_int_mod v : to_int (v `mod` 2 ^ 32) = to_int v.
Proof.
  unfold to_int. f_equal.
  rewrite <- (Z.add_mod_idemp_l (v `mod` 2 ^ 32)) by lia.
  rewrite Z.mod_mod by lia. by rewrite Z.add_mod_idemp_l by lia.
Qed.

Lemma load_int_store a v m :
  load_int a (store_bytes a (le_bytes 4 v) m) = Some (to_int v).
Proof.
  unfold load_int.
  pose proof (load_store_bytes (le_bytes 4 v) a m) as H.
  rewrite length_le_bytes in H. rewrite H.
  change (Some (to_int (of_le_bytes (le_bytes 4 v))) = Some (to_int v)).
  rewrite (of_le_bytes_le_bytes 4). f_equal. apply to_int_mod.
Qed.

Lemma le_bytes_zero n : le_bytes n 0 = replicate n 0%Z.
Proof.
  induction n as [|n IH]; cbn [le_bytes replicate]; [done|].
  by rewrite Zmod_0_l, Zdiv_0_l, IH.
Qed.

Lemma lookup_store_bytes_in bs : ∀ a m (i : nat) b,
  bs !! i = Some b → store_bytes a bs m !! (a + Z.of_nat i)%Z = Some b.
Proof.
  induction bs as [|b0 bs IH]; intros a m i b Hi; [done|].
  destruct i as [|i]; cbn [store_bytes].
  - injection Hi as <-. rewrite lookup_store_bytes_out by lia.
    rewrite Z.add_0_r. apply lookup_insert_eq.
  - replace (a + Z.of_nat (S i))%Z with ((a + 1) + Z.of_nat i)%Z by lia.
    by apply IH.
Qed.

Lemma lookup_store_zero a n m i :
  (0 ≤ i < Z.of_nat n)%Z →
  store_bytes a (le_bytes n 0) m !! (a + i)%Z = Some 0%Z.
Proof.
  intros Hi. rewrite <- (Z2Nat.id i) by lia.
  apply lookup_store_bytes_in. rewrite le_bytes_zero.
  apply lookup_replicate_2. lia.
Qed.

Lemma load_int_zero a m :
  (∀ i, (0 ≤ i < 4)%Z → m !! (a + i)%Z = Some 0%Z) → load_int a m = Some 0%Z.
Proof.
  intros H. unfold load_int. cbn [load_bytes].
  pose proof (H 0%Z ltac:(lia)) as H0. rewrite Z.add_0_r in H0.
  pose proof (H 1%Z ltac:(lia)) as H1.
  pose proof (H 2%Z ltac:(lia)) as H2.
  pose proof (H 3%Z ltac:(lia)) as H3.
  replace (a + 1 + 1)%Z with (a + 2)%Z by lia.
  replace (a + 2 + 1)%Z with (a + 3)%Z by lia.
  by rewrite H0, H1, H2, H3.
Qed.

Lemma umem_set_umem v w : umem (set_umem v w) = v.
Proof. done. Qed.

Lemma store_user_run p n v w :
  p ≠ 0%Z →
  store_user p n v w
  = Ret tt (set_umem (store_bytes p (le_bytes n v) (umem w)) w).
Proof. intros Hp. unfold store_user. by rewrite bool_decide_eq_false_2. Qed.

Lemma store_user_null n v w : store_user 0 n v w = Trap fault.
Proof. done. Qed.

Lemma store_user_Ret_inv p n v w u w' :
  store_user p n v w = Ret u w' →
  p ≠ 0%Z ∧ w' = set_umem (store_bytes p (le_bytes n v) (umem w)) w.
Proof.
  unfold store_user. case_bool_decide; [done|].
  unfold modify. by intros [= <-].
Qed.

(** * Stepping backwards through a computation that returned *)

Lemma bind_Ret_inv {A B} (c : M A) (f : A → M B) w b w' :
  bind c f w = Ret b w' → ∃ a w1, c w = Ret a w1 ∧ f a w1 = Ret b w'.
Proof. rewrite bind_eq. destruct (c w) as [a w1| | |]; try done. by eauto. Qed.

Lemma ret_Ret_inv {A} (a b : A) w w' : ret a w = Ret b w' → a = b ∧ w = w'.
Proof. unfold ret. by intros [= -> ->]. Qed.

Lemma deref_Ret_inv p w t w' :
  deref p w = Ret t w' → load w p = Some t ∧ w' = w.
Proof. unfold deref. destruct (load w p); by intros [= -> ->]. Qed.

Lemma update_Ret_inv p f w u w' :
  update p f w = Ret u w' → ∃ t, load w p = Some t ∧ w' = store p (f t) w.
Proof.
  unfold update. intros (t & w1 & [Ht ->]%deref_Ret_inv & H)%bind_Ret_inv.
  exists t. split; [done|]. unfold modify in H. by simplify_eq.
Qed.

Lemma nonnull_Ret_inv o w q w' : nonnull o w = Ret q w' → o = Some q ∧ w' = w.
Proof. destruct o; simpl; [|done]. unfold ret. by intros [= -> ->]. Qed.

Lemma assert_Ret_inv b w u w' : assert b w = Ret u w' → b = true ∧ w' = w.
Proof. destruct b, u; simpl; [|done]. unfold ret. by intros [= ->]. Qed.

Lemma allocate_Ret_inv w u w' :
  allocate w = Ret u w' → ∃ l, w' = set_allocs l w.
Proof.
  unfold allocate. destruct (allocs w) as [|[] rest] eqn:E; intros [= <-].
  - exists []. destruct w. simpl in E. by subst.
  - by eauto.
Qed.

Lemma manager_Ret_inv i w m w' :
  manager i w = Ret m w' → thread_managers w !! i = Some m ∧ w' = w.
Proof. unfold manager. destruct (thread_managers w !! i); by intros [= -> ->]. Qed.

Lemma update_manager_Ret_inv i f w u w' :
  update_manager i f w = Ret u w' →
  ∃ m, thread_managers w !! i = Some m
       ∧ w' = set_thread_managers (<[i := f m]> (thread_managers w)) w.
Proof.
  unfold update_manager.
  intros (m & w1 & [Hm ->]%manager_Ret_inv & H)%bind_Ret_inv.
  exists m. split; [done|]. unfold modify in H. by simplify_eq.
Qed.

Lemma new_Thread_Ret_inv w p w' :
  new_Thread w = Ret p w' →
  ∃ a l, p = Heap a ∧ heap w !! a = None
         ∧ w' = set_heap (<[a := fresh_thread]> (heap w)) (set_allocs l w).
Proof.
  unfold new_Thread.
  intros (u & w1 & [l ->]%allocate_Ret_inv & H)%bind_Ret_inv.
  cbv beta zeta in H. simpl in H. simplify_eq.
  exists (fresh (dom (heap w))), l. split_and!; [done| |done].
  apply not_elem_of_dom, is_fresh.
Qed.

Lemma insert_thread_Ret_inv this p w u w' :
  ThreadManager_insert_thread this p w = Ret u w' →
  ∃ t m l, load w p = Some t
           ∧ thread_managers w !! this = Some m
           ∧ w' = set_thread_managers
                    (<[this := match threads m !! tid t with
                               | Some _ => m
                               | None => set_threads (<[tid t := p]> (threads m)) m
                               end]> (thread_managers w))
                    (set_allocs l w).
Proof.
  unfold ThreadManager_insert_thread.
  intros (t & w1 & [Ht ->]%deref_Ret_inv & H)%bind_Ret_inv.
  apply bind_Ret_inv in H as (u1 & w2 & [l ->]%allocate_Ret_inv & H).
  apply update_manager_Ret_inv in H as (m & Hm & ->).
  by exists t, m, l.
Qed.

(** ** Reading one field of a thread through the steps *)

Lemma field_store {X} (π : Thread → X) p q t t' w :
  load w p = Some t → π t' = π t →
  π <$> load (store p t' w) q = π <$> load w q.
Proof.
  intros Ht Hπ. destruct (decide (p = q)) as [->|Hne].
  - rewrite load_store_eq by eauto. rewrite Ht. simpl. by rewrite Hπ.
  - by rewrite load_store_ne.
Qed.

Lemma load_set_allocs l w p : load (set_allocs l w) p = load w p.
Proof. by destruct p. Qed.

Lemma load_set_umem v w p : load (set_umem v w) p = load w p.
Proof. by destruct p. Qed.

Lemma load_set_fs_base v w p : load (set_fs_base v w) p = load w p.
Proof. by destruct p. Qed.

(** ** What a step changes *)

Lemma same_rest_refl w : same_rest w w.
Proof. by split. Qed.

Lemma same_rest_trans w1 w2 w3 :
  same_rest w1 w2 → same_rest w2 w3 → same_rest w1 w3.
Proof.
  intros [] []. split; intros; etrans; eauto.
Qed.

Lemma same_rest_store p t w : same_rest w (store p t w).
Proof.
  split; try (by destruct p).
  - intros i. apply registry_store.
  - intros i. apply queue_store.
Qed.

Lemma same_rest_set_allocs l w : same_rest w (set_allocs l w).
Proof. by split. Qed.

Lemma same_rest_set_heap h w : same_rest w (set_heap h w).
Proof. by split. Qed.

Lemma update_inv p f w u w' :
  update p f w = Ret u w' →
  ∃ t, load w p = Some t
       ∧ load w' p = Some (f t)
       ∧ (∀ q, q ≠ p → load w' q = load w q)
       ∧ same_rest w w'
       ∧ allocs w' = allocs w.
Proof.
  intros (t & Ht & ->)%update_Ret_inv. exists t. split_and!; [done|..].
  - by rewrite load_store_eq by eauto.
  - intros q Hq. by rewrite load_store_ne.
  - apply same_rest_store.
  - apply allocs_store.
Qed.

(** An update that keeps the field [π] keeps it in every thread. *)
Lemma update_keeps {X} (π : Thread → X) p f w u w' q :
  update p f w = Ret u w' → (∀ t, π (f t) = π t) →
  π <$> load w' q = π <$> load w q.
Proof.
  intros (t & Ht & ->)%update_Ret_inv Hπ. by apply (field_store π p q t).
Qed.

Lemma allocate_inv w u w' :
  allocate w = Ret u w' → (∀ q, load w' q = load w q) ∧ same_rest w w'.
Proof.
  intros [l ->]%allocate_Ret_inv. split.
  - intros q. apply load_set_allocs.
  - apply same_rest_set_allocs.
Qed.

Lemma new_Thread_inv w p w' :
  new_Thread w = Ret p w' →
  load w p = None
  ∧ load w' p = Some fresh_thread
  ∧ (∀ q, q ≠ p → load w' q = load w q)
  ∧ same_rest w w'.
Proof.
  intros (a & l & -> & Ha & ->)%new_Thread_Ret_inv. split_and!.
  - done.
  - simpl. apply lookup_insert_eq.
  - intros q Hq. destruct q as [c|b]; simpl; [done|].
    rewrite lookup_insert_ne; [done|congruence].
  - eapply same_rest_trans;
      [apply same_rest_set_allocs | apply (same_rest_set_heap _ (set_allocs l w))].
Qed.

Lemma insert_thread_inv this p w u w' :
  ThreadManager_insert_thread this p w = Ret u w' →
  ∃ t r, load w p = Some t
         ∧ registry this w = Some r
         ∧ registry this w'
           = Some (match r !! tid t with
                   | Some _ => r
                   | None => <[tid t := p]> r
                   end)
         ∧ (∀ i, i ≠ this → registry i w' = registry i w)
         ∧ (∀ i, queue i w' = queue i w)
         ∧ (∀ q, load w' q = load w q)
         ∧ umem w' = umem w.
Proof.
  intros (t & m & l & Ht & Hm & ->)%insert_thread_Ret_inv.
  assert (Hlen : this < length (thread_managers w)) by (by eapply lookup_lt_Some).
  exists t, (threads m). unfold registry, queue. simpl. split_and!; try done.
  - by rewrite Hm.
  - rewrite list_lookup_insert_eq by done. simpl.
    by destruct (threads m !! tid t).
  - intros i Hi. by rewrite list_lookup_insert_ne.
  - intros i. destruct (decide (i = this)) as [->|Hi].
    + rewrite list_lookup_insert_eq by done. rewrite Hm. simpl.
      by destruct (threads m !! tid t).
    + by rewrite list_lookup_insert_ne.
  - intros q.
    erewrite (load_set_managers (set_allocs l w)); [apply load_set_allocs|done|].
    by destruct (threads m !! tid t).
Qed.

Lemma try_catch_Some_inv {A} (c : M (option A)) w p w' :
  try_catch c (ret None) w = Ret (Some p) w' → c w = Ret (Some p) w'.
Proof. unfold try_catch. by destruct (c w). Qed.

(** * Creation *)

(** Carry [π <$> load w q = Some v] over an update that keeps [π]. *)
Ltac step_keeps π q Hstep Hold :=
  let Hn := fresh in
  pose proof (update_keeps π _ _ _ _ _ q Hstep (λ _, eq_refl)) as Hn;
  rewrite Hold in Hn; clear Hold; rename Hn into Hold.

Lemma thread_create_inv cpu parent flags ctid stack w p w' :
  thread_create cpu parent flags ctid stack w = Ret (Some p) w' →
  ∃ par r,
    parent = Some par
    ∧ load w p = None
    ∧ tid <$> load w' p = Some (to_int (thread_counter w))
    ∧ kernel.parent <$> load w' p = Some (Some par)
    ∧ (∃ pt, load w' par = Some pt ∧ p ∈ children pt)
    ∧ registry cpu w = Some r
    ∧ registry cpu w'
      = Some (match r !! to_int (thread_counter w) with
              | Some _ => r
              | None => <[to_int (thread_counter w) := p]> r
              end)
    ∧ (∀ i, i ≠ cpu → registry i w' = registry i w)
    ∧ (Z.land flags CLONE_CHILD_SETTID ≠ 0%Z →
       ctid ≠ 0%Z
       ∧ load_int ctid (umem w') = Some (to_int (thread_counter w)))
    ∧ (Z.land flags CLONE_CHILD_CLEARTID ≠ 0%Z →
       clear_tid <$> load w' p = Some ctid).
Proof.
  unfold thread_create. intros H.
  apply bind_Ret_inv in H as (id & w0 & Hid & H).
  unfold generate_new_thread_id in Hid. injection Hid as <- <-.
  set (w0 := set_thread_counter _ w) in H.
  assert (R0 : ∀ i, registry i w0 = registry i w) by done.
  assert (L0 : ∀ q, load w0 q = load w q) by (intros []; done).
  assert (U0 : umem w0 = umem w) by done.
  clearbody w0.
  apply try_catch_Some_inv in H.
  (* new Thread *)
  apply bind_Ret_inv in H as (th & w1 & (Hfresh & _ & _ & S)%new_Thread_inv & H).
  rewrite L0 in Hfresh.
  (* init *)
  apply bind_Ret_inv in H as (u & w2 & Hinit & H).
  unfold Thread_init in Hinit.
  apply bind_Ret_inv in Hinit
    as (? & w2a & (? & _ & _ & _ & S2a & _)%update_inv & Hinit).
  apply update_inv in Hinit as (t2 & _ & T2 & _ & S2 & _).
  rewrite to_int_idemp in T2.
  assert (I : tid <$> load w2 th = Some (to_int (thread_counter w)))
    by (by rewrite T2).
  pose proof (same_rest_trans _ _ _ (same_rest_trans _ _ _ S S2a) S2) as S'.
  clear S S2a S2 T2 t2. rename S' into S.
  (* parent *)
  apply bind_Ret_inv in H as (? & w3 & H3 & H).
  step_keeps tid th H3 I.
  apply update_inv in H3 as (t3 & _ & T3 & _ & S3 & _).
  pose proof (same_rest_trans _ _ _ S S3) as S'. clear S S3. rename S' into S.
  apply bind_Ret_inv in H as (t4 & ? & [Ht4 ->]%deref_Ret_inv & H).
  rewrite T3 in Ht4. injection Ht4 as <-. simpl in H.
  apply bind_Ret_inv in H as (par & ? & [Hpar ->]%nonnull_Ret_inv & H).
  subst parent.
  assert (P : kernel.parent <$> load w3 th = Some (Some par)) by (by rewrite T3).
  clear T3 t3.
  (* push_back *)
  apply bind_Ret_inv in H as (? & w4 & [L4 S4]%allocate_inv & H).
  rewrite <- (L4 th) in I, P.
  pose proof (same_rest_trans _ _ _ S S4) as S'. clear S S4 L4. rename S' into S.
  apply bind_Ret_inv in H as (? & w5 & H5 & H).
  step_keeps tid th H5 I. step_keeps kernel.parent th H5 P.
  apply update_inv in H5 as (pt & _ & T5 & _ & S5 & _).
  pose proof (same_rest_trans _ _ _ S S5) as S'. clear S S5. rename S' into S.
  assert (C : ∃ l, children <$> load w5 par = Some l ∧ th ∈ l).
  { rewrite T5. eexists. split; [done|]. simpl.
    apply elem_of_app. right. apply elem_of_cons. by left. }
  clear T5 pt.
  (* my_stack *)
  apply bind_Ret_inv in H as (? & w6 & H6 & H).
  step_keeps tid th H6 I. step_keeps kernel.parent th H6 P.
  destruct C as (l & C & Hl). step_keeps children par H6 C.
  apply update_inv in H6 as (_ & _ & _ & _ & S6 & _).
  pose proof (same_rest_trans _ _ _ S S6) as S'. clear S S6. rename S' into S.
  (* CLONE_CHILD_SETTID *)
  apply bind_Ret_inv in H as (? & w7 & H7 & H).
  assert (∃ um, umem w7 = um
     ∧ (Z.land flags CLONE_CHILD_SETTID ≠ 0%Z →
        ctid ≠ 0%Z ∧ load_int ctid um = Some (to_int (thread_counter w)))
     ∧ (∀ q, load w7 q = load w6 q)
     ∧ (∀ i, registry i w7 = registry i w0)) as (um & U & Hum & L7 & R7).
  { destruct (decide (Z.land flags CLONE_CHILD_SETTID ≠ 0%Z)) as [Hflag|Hflag];
      [rewrite bool_decide_eq_true_2 in H7 by done
      |rewrite bool_decide_eq_false_2 in H7 by done].
    - apply bind_Ret_inv in H7 as (t7 & ? & [Ht7 ->]%deref_Ret_inv & H7).
      apply store_user_Ret_inv in H7 as [Hctid ->].
      rewrite Ht7 in I. injection I as I.
      eexists. split_and!; [done| | |].
      + intros _. split; [done|].
        rewrite umem_set_umem, load_int_store, I. by rewrite !to_int_idemp.
      + intros q. apply load_set_umem.
      + intros i. apply (sr_registry _ _ S).
    - apply ret_Ret_inv in H7 as [_ <-]. eexists. split_and!; [done|done|done|].
      intros i. apply (sr_registry _ _ S). }
  rewrite <- (L7 th) in I, P. rewrite <- (L7 par) in C. clear H7 L7 S U0.
  (* CLONE_CHILD_CLEARTID *)
  apply bind_Ret_inv in H as (? & w8 & H8 & H).
  assert (tid <$> load w8 th = Some (to_int (thread_counter w))
     ∧ kernel.parent <$> load w8 th = Some (Some par)
     ∧ children <$> load w8 par = Some l
     ∧ umem w8 = um
     ∧ (∀ i, registry i w8 = registry i w0)
     ∧ (Z.land flags CLONE_CHILD_CLEARTID ≠ 0%Z →
        clear_tid <$> load w8 th = Some ctid)) as (I8 & P8 & C8 & U8 & R8 & K8).
  { destruct (decide (Z.land flags CLONE_CHILD_CLEARTID ≠ 0%Z)) as [Hflag|Hflag];
      [rewrite bool_decide_eq_true_2 in H8 by done
      |rewrite bool_decide_eq_false_2 in H8 by done].
    - step_keeps tid th H8 I. step_keeps kernel.parent th H8 P.
      step_keeps children par H8 C.
      apply update_inv in H8 as (t8 & _ & T8 & _ & S8 & _).
      split_and!; try done.
      + rewrite <- U. apply (sr_umem _ _ S8).
      + intros i. rewrite <- R7. apply (sr_registry _ _ S8).
      + intros _. by rewrite T8.
    - by apply ret_Ret_inv in H8 as [_ <-]. }
  clear I P C U R7 H8.
  (* insert_thread *)
  apply bind_Ret_inv in H as (? & w9 & H9 & H).
  apply ret_Ret_inv in H as [[= <-] <-].
  apply insert_thread_inv in H9
    as (t9 & r & T9 & Hr & Hr' & Hother & _ & L9 & U9).
  rewrite T9 in I8. injection I8 as I8. rewrite I8 in Hr'.
  exists par, r. split_and!; try done.
  - by rewrite L9, T9, <- I8.
  - by rewrite L9.
  - rewrite L9. destruct (load w8 par) as [pt|]; [|done].
    injection C8 as <-. by eauto.
  - by rewrite <- R0, <- R8.
  - intros i Hi. by rewrite Hother, R8, R0.
  - rewrite U9, U8. done.
  - intros Hflag. rewrite L9. by apply K8.
Qed.

(** ** When a creation succeeds *)

Lemma update_progress p f w :
  is_Some (load w p) → ∃ w', update p f w = Ret tt w'.
Proof. intros [t Ht]. eexists. by apply update_run. Qed.

Lemma registry_Some cpu w r :
  registry cpu w = Some r →
  ∃ m, thread_managers w !! cpu = Some m ∧ threads m = r.
Proof.
  unfold registry. destruct (thread_managers w !! cpu) as [m|]; [|done].
  intros [= <-]. by eauto.
Qed.

Lemma update_live p f w u w' q :
  update p f w = Ret u w' → is_Some (load w q) → is_Some (load w' q).
Proof.
  intros (t & Ht & Hp & Hne & _)%update_inv Hq.
  destruct (decide (q = p)) as [->|Hqp]; [by rewrite Hp|by rewrite Hne].
Qed.

Lemma ready_update cpu th par p f w u w' :
  update p f w = Ret u w' → ready cpu th par w → ready cpu th par w'.
Proof.
  intros Hrun [Hth Hpar Hm Ha]. split.
  - by eapply update_live.
  - by eapply update_live.
  - apply update_inv in Hrun as (_ & _ & _ & _ & S & _).
    by rewrite (sr_registry _ _ S).
  - apply update_inv in Hrun as (_ & _ & _ & _ & _ & ->). done.
Qed.

Lemma thread_create_succeeds cpu par flags ctid stack w :
  is_Some (load w par) →
  is_Some (registry cpu w) →
  allocs w = [] →
  (Z.land flags CLONE_CHILD_SETTID ≠ 0%Z → ctid ≠ 0%Z) →
  ∃ p w', thread_create cpu (Some par) flags ctid stack w = Ret (Some p) w'.
Proof.
  intros Hpar Hm Ha Hctid. unfold thread_create.
  rewrite bind_eq. simpl.
  set (w0 := set_thread_counter _ w).
  set (th := Heap (fresh (dom (heap w0)))).
  assert (H1 : new_Thread w0
               = Ret th (set_heap (<[fresh (dom (heap w0)) := fresh_thread]>
                                     (heap w0)) w0)).
  { unfold new_Thread. by rewrite (bind_Ret _ _ _ _ _ (allocate_run w0 Ha)). }
  set (w1 := set_heap _ w0) in H1.
  assert (R1 : ready cpu th par w1).
  { apply new_Thread_inv in H1 as (Hnew & Hth & Hne & S).
    split.
    - by rewrite Hth.
    - assert (Hpar0 : is_Some (load w0 par)) by (by destruct par).
      rewrite Hne; [done|]. intros Heq.
      rewrite Heq, Hnew in Hpar0. by destruct Hpar0.
    - by rewrite (sr_registry _ _ S).
    - done. }
  clearbody w1 th.
  cut (∃ p w', (let* _ := Thread_init th (to_int (thread_counter w)) in
       let* _ := update th (set_parent (Some par)) in
       let* t := deref th in
       let* par := nonnull (kernel.parent t) in
       let* _ := allocate in
       let* _ := update par (λ pt, set_children (children pt ++ [th]) pt) in
       let* _ := update th (set_my_stack stack) in
       let* _ := if bool_decide (Z.land flags CLONE_CHILD_SETTID ≠ 0%Z)
                 then let* t := deref th in
                      store_user ctid 4 (to_int (kernel.tid t))
                 else ret tt in
       let* _ := if bool_decide (Z.land flags CLONE_CHILD_CLEARTID ≠ 0%Z)
                 then update th (set_clear_tid ctid)
                 else ret tt in
       let* _ := ThreadManager_insert_thread cpu th in
       ret (Some th)) w1 = Ret (Some p) w').
  { intros (p & w' & Hrun). exists p, w'. unfold try_catch.
    by rewrite (bind_Ret _ _ _ _ _ H1), Hrun. }
  clear H1 Hpar Hm Ha. clearbody w0. clear w0.
  (* init *)
  unfold Thread_init.
  destruct (update_progress th (set_self (Some th)) w1) as [w2 H2];
    [apply R1|].
  pose proof (ready_update _ _ _ _ _ _ _ _ H2 R1) as R2.
  destruct (update_progress th (set_tid (to_int (to_int (thread_counter w)))) w2)
    as [w3 H3]; [apply R2|].
  pose proof (ready_update _ _ _ _ _ _ _ _ H3 R2) as R3.
  rewrite bind_eq, (bind_Ret _ _ _ _ _ H2), H3. clear H2 H3 R1 R2 w1 w2.
  (* parent *)
  destruct (update_progress th (set_parent (Some par)) w3) as [w4 H4];
    [apply R3|].
  pose proof (ready_update _ _ _ _ _ _ _ _ H4 R3) as R4.
  rewrite (bind_Ret _ _ _ _ _ H4).
  apply update_inv in H4 as (t3 & _ & T4 & _).
  rewrite (bind_Ret _ _ _ _ _ (deref_run _ _ _ T4)). simpl.
  rewrite bind_eq. simpl.
  (* push_back *)
  rewrite (bind_Ret _ _ _ _ _ (allocate_run w4 (ready_allocs _ _ _ _ R4))).
  destruct (update_progress par
              (λ pt, set_children (children pt ++ [th]) pt) w4) as [w5 H5];
    [apply R4|].
  pose proof (ready_update _ _ _ _ _ _ _ _ H5 R4) as R5.
  rewrite (bind_Ret _ _ _ _ _ H5). clear H5 T4 R3 R4 w3 w4.
  (* my_stack *)
  destruct (update_progress th (set_my_stack stack) w5) as [w6 H6];
    [apply R5|].
  pose proof (ready_update _ _ _ _ _ _ _ _ H6 R5) as R6.
  rewrite (bind_Ret _ _ _ _ _ H6). clear H6 R5 w5.
  (* CLONE_CHILD_SETTID *)
  assert (∃ w7, (if bool_decide (Z.land flags CLONE_CHILD_SETTID ≠ 0%Z)
                 then let* t := deref th in
                      store_user ctid 4 (to_int (tid t))
                 else ret tt) w6 = Ret tt w7
                ∧ ready cpu th par w7) as (w7 & H7 & R7).
  { destruct (decide (Z.land flags CLONE_CHILD_SETTID ≠ 0%Z)) as [Hflag|Hflag];
      [rewrite bool_decide_eq_true_2 by done
      |rewrite bool_decide_eq_false_2 by done].
    - destruct (ready_thread _ _ _ _ R6) as [t6 Ht6].
      rewrite (bind_Ret _ _ _ _ _ (deref_run _ _ _ Ht6)).
      rewrite store_user_run by auto.
      eexists. split; [done|]. destruct R6 as [? ? ? ?].
      split; rewrite ?load_set_umem; done.
    - by exists w6. }
  rewrite (bind_Ret _ _ _ _ _ H7). clear H7 R6 w6.
  (* CLONE_CHILD_CLEARTID *)
  assert (∃ w8, (if bool_decide (Z.land flags CLONE_CHILD_CLEARTID ≠ 0%Z)
                 then update th (set_clear_tid ctid)
                 else ret tt) w7 = Ret tt w8
                ∧ ready cpu th par w8) as (w8 & H8 & R8).
  { destruct (bool_decide (Z.land flags CLONE_CHILD_CLEARTID ≠ 0%Z)).
    - destruct (update_progress th (set_clear_tid ctid) w7) as [w8 H8];
        [apply R7|].
      exists w8. split; [done|]. by eapply ready_update.
    - by exists w7. }
  rewrite (bind_Ret _ _ _ _ _ H8). clear H8 R7 w7.
  (* insert_thread *)
  destruct R8 as [[t8 Ht8] _ [r Hr] Ha8].
  destruct (registry_Some _ _ _ Hr) as (m & Hm & _).
  rewrite bind_eq, (insert_thread_eq cpu w8 th t8 Ht8).
  rewrite (bind_Ret _ _ _ _ _ (allocate_run w8 Ha8)).
  rewrite (update_manager_run _ _ _ _ Hm). by eexists _, _.
Qed.

(** C8, as the code has it.  [thread_create] with a live parent returns a
    thread when no allocation fails and, with [CLONE_CHILD_SETTID], [ctid] is
    not null.  Whenever it returns a thread, the thread is an object that was
    not live before, has the id taken from the counter (as an [int]) and the
    parent it was given, and is among the children of that parent; with
    [CLONE_CHILD_SETTID], [ctid] is not null and the thread's id stands there.
    The registries of the other CPUs are as before.  The registry of the
    calling CPU depends on the id: if the id is free there, the thread is
    entered under it and nothing else changes; if the id is a key already,
    the registry stays as it is and [get_thread] of the id finds the old
    holder.  So where the registries held live threads only, the thread is in
    the registry of no other CPU and, if its id was free, under its id and
    no other key with the calling CPU; if its id was taken, it is in no
    registry at all. *)
Theorem thread_create_registers_free_id
    (cpu : nat) (parent : option tptr) (flags ctid stack : Z) (w : World) :
  (∀ par, parent = Some par → is_Some (load w par) →
          is_Some (registry cpu w) → allocs w = [] →
          (Z.land flags CLONE_CHILD_SETTID ≠ 0%Z → ctid ≠ 0%Z) →
          ∃ p w', thread_create cpu parent flags ctid stack w = Ret (Some p) w')
  ∧ (∀ p w',
       thread_create cpu parent flags ctid stack w = Ret (Some p) w' →
       ∃ t par pt r r',
         load w p = None
         ∧ load w' p = Some t
         ∧ tid t = to_int (thread_counter w)
         ∧ parent = Some par ∧ kernel.parent t = Some par
         ∧ load w' par = Some pt ∧ p ∈ children pt
         ∧ (Z.land flags CLONE_CHILD_SETTID ≠ 0%Z →
            ctid ≠ 0%Z ∧ load_int ctid (umem w') = Some (tid t))
         ∧ registry cpu w = Some r
         ∧ registry cpu w' = Some r'
         ∧ (∀ i, i ≠ cpu → registry i w' = registry i w)
         ∧ (r !! tid t = None → r' = <[tid t := p]> r)
         ∧ (∀ q, r !! tid t = Some q →
              r' = r ∧ get_thread cpu (tid t) w' = Ret (Some q) w')
         ∧ ((∀ i r0 k q, registry i w = Some r0 → r0 !! k = Some q →
                         is_Some (load w q)) →
            (∀ i r0 k, i ≠ cpu → registry i w' = Some r0 → r0 !! k ≠ Some p)
            ∧ (r !! tid t = None →
               r' !! tid t = Some p ∧ ∀ k, r' !! k = Some p → k = tid t)
            ∧ (∀ q, r !! tid t = Some q →
                 q ≠ p ∧ ∀ k, r' !! k ≠ Some p))).
Proof.
  split.
  { intros par -> Hpar Hm Ha Hctid. by apply thread_create_succeeds. }
  intros p w' Hrun.
  destruct (thread_create_inv _ _ _ _ _ _ _ _ Hrun)
    as (par & r & -> & Hnew & Htid & Hpar & (pt & Hpt & Hin) & Hr & Hr'
        & Hother & Hset & _).
  destruct (load w' p) as [t|] eqn:Ht; [|done].
  injection Htid as Htid. injection Hpar as Hpar.
  eexists t, par, pt, r, _. rewrite Htid.
  split_and!;
    [done|done|done|done|done|done|done|done|done|exact Hr'|done|..].
  - intros Hfree. by rewrite Hfree.
  - intros q Hq. rewrite Hq. split; [done|].
    rewrite Hq in Hr'. destruct (registry_Some _ _ _ Hr') as (m & Hm & <-).
    by rewrite (get_thread_run _ _ _ _ Hm), Hq.
  - intros Hlive.
    assert (Hnot : ∀ i r0 k, registry i w = Some r0 → r0 !! k ≠ Some p).
    { intros i r0 k Hr0 Hk.
      destruct (Hlive i r0 k p Hr0 Hk) as [? Hp]. congruence. }
    split_and!.
    + intros i r0 k Hi Hr0. rewrite (Hother i Hi) in Hr0. by eapply Hnot.
    + intros Hfree. rewrite Hfree. split; [apply lookup_insert_eq|].
      intros k Hk.
      destruct (decide (k = to_int (thread_counter w))) as [|Hne]; [done|].
      rewrite lookup_insert_ne in Hk by done. by destruct (Hnot cpu r k Hr).
    + intros q Hq. rewrite Hq. split.
      * intros ->. by destruct (Hnot cpu r (to_int (thread_counter w)) Hr).
      * intros k. by apply (Hnot cpu).
Qed.

(** * The id counter *)

Lemma counter_is_free n : counter_free (λ w, thread_counter w = n).
Proof. by split. Qed.

Lemma preserved_after {A} (I : World → Prop) (c : M A) w w' :
  preserves I c → I w → world_after (c w) = Some w' → I w'.
Proof.
  intros Hc HI Hw. specialize (Hc w HI).
  destruct (c w); simpl in Hw; by simplify_eq.
Qed.

Section Create.
Variables (cpu : nat) (parent : option tptr) (flags ctid stack : Z) (w : World).

Lemma thread_create_counter w' :
  world_after (thread_create cpu parent flags ctid stack w) = Some w' →
  thread_counter w' = wrap_long (thread_counter w + 1).
Proof.
  unfold thread_create. rewrite bind_eq. simpl.
  apply (preserved_after (λ v, thread_counter v = wrap_long (thread_counter w + 1)));
    [|done].
  apply preserves_try_catch; [|apply preserves_ret].
  apply preserves_thread_create_body, counter_is_free.
Qed.


End Create.

Lemma counter_after {A} (c : M A) w w' :
  (∀ n, preserves (λ v, thread_counter v = n) c) →
  world_after (c w) = Some w' → thread_counter w' = thread_counter w.
Proof.
  intros Hc H.
  by apply (preserved_after (λ v, thread_counter v = thread_counter w) c w w').
Qed.

Lemma run_call_counter cpu c w w' :
  world_after (run_call cpu c w) = Some w' →
  thread_counter w' = match c with
                      | do_thread_create _ _ _ _ =>
                          wrap_long (thread_counter w + 1)
                      | _ => thread_counter w
                      end.
Proof.
  destruct c as [par flags ctid stack| | | | | | | |]; simpl.
  - intros H. apply (thread_create_counter cpu par flags ctid stack).
    rewrite bind_eq in H.
    by destruct (thread_create cpu par flags ctid stack w).
  - apply counter_after. intros n. apply preserves_suspend, counter_is_free.
  - apply counter_after. intros n. apply preserves_yield, counter_is_free.
  - apply counter_after. intros n. apply preserves_exit, counter_is_free.
  - apply counter_after. intros n. apply preserves_resume_tid, counter_is_free.
  - apply counter_after. intros n. apply preserves_migrate, counter_is_free.
  - apply counter_after. intros n.
    apply preserves_bind; [apply preserves_wakeup_next, counter_is_free|].
    intros _. apply preserves_ret.
  - apply counter_after. intros n.
    apply preserves_suspend_and_yield, counter_is_free.
  - apply counter_after. intros n.
    apply preserves_setup_main_thread, counter_is_free.
Qed.



(** * Exit *)

Lemma bind_quiet_inv {A B} (c : M A) (f : A → M B) w o w' :
  quiet c → bind c f w = o → world_after o = Some w' →
  ∃ a w1, c w = Ret a w1 ∧ f a w1 = o.
Proof.
  intros Hq <- Hw. rewrite bind_eq in *. specialize (Hq w).
  destruct (c w) as [a w1| | |]; try done. by eauto.
Qed.

Lemma quiet_ret {A} (a : A) : quiet (ret a).
Proof. by intros w. Qed.

Lemma quiet_bind {A B} (c : M A) (f : A → M B) :
  quiet c → (∀ a, quiet (f a)) → quiet (bind c f).
Proof.
  intros Hc Hf w. rewrite bind_eq. specialize (Hc w).
  destruct (c w); try done. apply Hf.
Qed.

Lemma quiet_abort {A} r : quiet (@abort A r).
Proof. by intros w. Qed.

Lemma quiet_gets {A} (f : World → A) : quiet (gets f).
Proof. by intros w. Qed.

Lemma quiet_modify f : quiet (modify f).
Proof. by intros w. Qed.

Lemma quiet_assert b : quiet (assert b).
Proof. intros w. by destruct b. Qed.

Lemma quiet_nonnull p : quiet (nonnull p).
Proof. intros w. by destruct p. Qed.

Lemma quiet_deref p : quiet (deref p).
Proof. intros w. unfold deref. by destruct (load w p). Qed.

Lemma quiet_manager i : quiet (manager i).
Proof. intros w. unfold manager. by destruct (thread_managers w !! i). Qed.

Lemma quiet_update p f : quiet (update p f).
Proof. apply quiet_bind; [apply quiet_deref|]. intros t. apply quiet_modify. Qed.

Lemma quiet_update_manager i f : quiet (update_manager i f).
Proof. apply quiet_bind; [apply quiet_manager|]. intros m. apply quiet_modify. Qed.

Lemma quiet_delete_Thread p : quiet (delete_Thread p).
Proof.
  intros w. unfold delete_Thread. destruct p as [c|a]; [done|].
  by destruct (heap w !! a).
Qed.

Lemma quiet_foreach {A} (l : list A) body :
  (∀ x, quiet (body x)) → quiet (foreach l body).
Proof.
  intros Hb. induction l as [|x l IH]; simpl.
  - apply quiet_ret.
  - apply quiet_bind; [apply Hb | by intros _].
Qed.

Lemma quiet_store_user p n v : quiet (store_user p n v).
Proof. intros w. unfold store_user. by case_bool_decide. Qed.

Ltac quiet_step :=
  lazymatch goal with
  | |- quiet (store_user _ _ _) => apply quiet_store_user
  | |- quiet (bind _ _) => apply quiet_bind; [|intros ?]
  | |- quiet (ret _) => apply quiet_ret
  | |- quiet (assert _) => apply quiet_assert
  | |- quiet (nonnull _) => apply quiet_nonnull
  | |- quiet (deref _) => apply quiet_deref
  | |- quiet (manager _) => apply quiet_manager
  | |- quiet (gets _) => apply quiet_gets
  | |- quiet (modify _) => apply quiet_modify
  | |- quiet (abort _) => apply quiet_abort
  | |- quiet (update _ _) => apply quiet_update
  | |- quiet (update_manager _ _) => apply quiet_update_manager
  | |- quiet (delete_Thread _) => apply quiet_delete_Thread
  | |- quiet (foreach _ _) => apply quiet_foreach; intros ?
  | |- quiet (if ?b then _ else _) => destruct b
  | |- quiet (match ?x with _ => _ end) => destruct x
  end.

Ltac quiet_tac := repeat quiet_step.

Lemma quiet_get_thread_self cpu : quiet (get_thread_self cpu).
Proof. unfold get_thread_self, get_thread_area. quiet_tac. Qed.

Lemma quiet_erase_thread_safely this p :
  quiet (ThreadManager_erase_thread_safely this p).
Proof. unfold ThreadManager_erase_thread_safely. quiet_tac. Qed.

Lemma quiet_erase_suspension this t :
  quiet (ThreadManager_erase_suspension this t).
Proof. unfold ThreadManager_erase_suspension. quiet_tac. Qed.

(** ** The steps of [exit] *)

(** The loop that detaches the children. *)
Lemma detach_children_inv v l : ∀ w u w',
  foreach l (λ child, update child (set_parent v)) w = Ret u w' →
  (∀ q, load w' q
        = if decide (q ∈ l) then set_parent v <$> load w q else load w q)
  ∧ (∀ q, q ∈ l → is_Some (load w q))
  ∧ same_rest w w'.
Proof.
  induction l as [|x l IH]; intros w u w' H; simpl in H.
  - apply ret_Ret_inv in H as [_ <-]. split_and!.
    + intros q. rewrite decide_False; [done|]. apply not_elem_of_nil.
    + intros q Hq. by apply elem_of_nil in Hq.
    + apply same_rest_refl.
  - apply bind_Ret_inv in H as (u1 & w1 & Hx & H).
    apply update_inv in Hx as (t & Ht & Hx & Hne & S1 & _).
    destruct (IH _ _ _ H) as (Hload & Hlive & S2). split_and!.
    + intros q. rewrite Hload.
      destruct (decide (q = x)) as [->|Hqx].
      * rewrite Hx, Ht.
        rewrite (decide_True (P := x ∈ x :: l)) by (apply elem_of_cons; by left).
        by case_decide.
      * rewrite Hne by done.
        destruct (decide (q ∈ l)) as [Hq|Hq].
        -- by rewrite decide_True by (apply elem_of_cons; by right).
        -- rewrite decide_False; [done|].
           by intros [?|?]%elem_of_cons.
    + intros q [->|Hq]%elem_of_cons; [by eauto|].
      destruct (decide (q = x)) as [->|Hqx]; [by eauto|].
      rewrite <- Hne by done. by apply Hlive.
    + by eapply same_rest_trans.
Qed.

Lemma erase_thread_safely_inv this p w u w' :
  ThreadManager_erase_thread_safely this (Some p) w = Ret u w' →
  (∀ q, load w' q = load w q)
  ∧ (∀ i, queue i w' = queue i w)
  ∧ fs_base w' = fs_base w
  ∧ (∃ t r, load w p = Some t ∧ registry this w = Some r
            ∧ r !! tid t = Some p
            ∧ registry this w' = Some (delete (tid t) r))
  ∧ (∀ i, i ≠ this → registry i w' = registry i w).
Proof.
  unfold ThreadManager_erase_thread_safely. intros H.
  apply bind_Ret_inv in H as (? & ? & [_ ->]%assert_Ret_inv & H).
  apply bind_Ret_inv in H as (? & ? & [[= <-] ->]%nonnull_Ret_inv & H).
  apply bind_Ret_inv in H as (t & ? & [Ht ->]%deref_Ret_inv & H).
  apply bind_Ret_inv in H as (m & ? & [Hm ->]%manager_Ret_inv & H).
  cbv zeta in H.
  apply bind_Ret_inv in H as (? & ? & [_ ->]%assert_Ret_inv & H).
  apply bind_Ret_inv in H as (? & ? & [Hk%bool_decide_eq_true ->]%assert_Ret_inv & H).
  apply update_manager_Ret_inv in H as (m' & Hm' & ->).
  rewrite Hm in Hm'. injection Hm' as <-.
  assert (Hlen : this < length (thread_managers w)) by (by eapply lookup_lt_Some).
  split_and!.
  - intros q. by erewrite load_set_managers.
  - intros i. unfold queue. simpl. destruct (decide (i = this)) as [->|Hi].
    + rewrite list_lookup_insert_eq by done. by rewrite Hm.
    + by rewrite list_lookup_insert_ne.
  - done.
  - exists t, (threads m). unfold registry. simpl.
    rewrite list_lookup_insert_eq by done. by rewrite Hm.
  - intros i Hi. unfold registry. simpl. by rewrite list_lookup_insert_ne.
Qed.

Lemma delete_Thread_inv p w u w' :
  delete_Thread p w = Ret u w' →
  (∃ a, p = Heap a)
  ∧ load w' p = None
  ∧ (∀ q, q ≠ p → load w' q = load w q)
  ∧ same_rest w w'.
Proof.
  unfold delete_Thread. destruct u, p as [c|a]; [done|].
  destruct (heap w !! a) as [t|] eqn:Ha; [|done]. intros [= <-].
  split_and!.
  - by eauto.
  - simpl. apply lookup_delete_eq.
  - intros [c|b] Hq; simpl; [done|]. rewrite lookup_delete_ne; [done|congruence].
  - apply same_rest_set_heap.
Qed.

Lemma erase_suspension_inv this t w u w' :
  ThreadManager_erase_suspension this t w = Ret u w' →
  (∀ q, load w' q = load w q)
  ∧ queue this w' = filter (λ x, x ≠ t) <$> queue this w
  ∧ (∀ i, i ≠ this → queue i w' = queue i w)
  ∧ fs_base w' = fs_base w.
Proof.
  unfold ThreadManager_erase_suspension.
  intros (m & Hm & ->)%update_manager_Ret_inv.
  assert (Hlen : this < length (thread_managers w)) by (by eapply lookup_lt_Some).
  split_and!.
  - intros q. by erewrite load_set_managers.
  - unfold queue. simpl. rewrite list_lookup_insert_eq by done. by rewrite Hm.
  - intros i Hi. unfold queue. simpl. by rewrite list_lookup_insert_ne.
  - done.
Qed.

(** [resume] ends in the control transfer that the thread's record asks
    for, with the thread area of the CPU moved to the thread. *)
Lemma Thread_resume_inv cpu p w o w' :
  Thread_resume cpu p w = o → world_after o = Some w' →
  ∃ t, load w p = Some t
       ∧ o = Jump (transfer_of t) w'
       ∧ (∀ q, children <$> load w' q = children <$> load w q)
       ∧ (∀ q, parent <$> load w' q = parent <$> load w q)
       ∧ (∀ i, queue i w' = queue i w)
       ∧ fs_base w' = <[cpu := my_tls t]> (fs_base w).
Proof.
  unfold Thread_resume. intros H Hw.
  apply (bind_quiet_inv _ _ _ _ w') in H
    as (t & ? & [Ht ->]%deref_Ret_inv & H); [|apply quiet_deref|done].
  exists t. split; [done|]. unfold transfer_of.
  destruct (yielded t); simpl in H.
  - apply (bind_quiet_inv _ _ _ _ w') in H
      as (? & w1 & Hup & H); [|apply quiet_update|done].
    rewrite bind_eq in H. simpl in H. subst o. injection Hw as <-.
    split_and!; try done.
    + intros q. rewrite load_set_fs_base.
      by rewrite (update_keeps children _ _ _ _ _ q Hup).
    + intros q. rewrite load_set_fs_base.
      by rewrite (update_keeps parent _ _ _ _ _ q Hup).
    + intros i. apply update_inv in Hup as (_ & _ & _ & _ & S & _).
      apply (sr_queue _ _ S).
    + simpl. apply update_inv in Hup as (_ & _ & _ & _ & S & _).
      by rewrite (sr_fs_base _ _ S).
  - rewrite bind_eq in H. simpl in H. subst o. injection Hw as <-.
    split_and!; try done; intros q; by rewrite load_set_fs_base.
Qed.

Lemma get_thread_self_inv cpu w o w' :
  get_thread_self cpu w = Ret o w' → o = current_thread cpu w ∧ w' = w.
Proof. unfold get_thread_self, get_thread_area, gets. rewrite bind_eq. by intros [= <- <-]. Qed.

(** [exit] up to and including [delete this]. *)
Lemma Thread_exit_inv cpu this w o w' :
  Thread_exit cpu this w = o → world_after o = Some w' →
  ∃ t p0 par w5,
    load w this = Some t
    ∧ parent t = Some p0
    ∧ par = (if decide (this ∈ children t) then MainOf cpu else p0)
    ∧ (∀ q, q ≠ this →
         load w5 q = detached cpu (children t) par this q <$> load w q)
    ∧ (∀ q, q ∈ children t → is_Some (load w q))
    ∧ is_Some (load w par)
    ∧ (∃ a, this = Heap a)
    ∧ load w5 this = None
    ∧ (∀ i, queue i w5 = queue i w)
    ∧ fs_base w5 = fs_base w
    ∧ (if bool_decide (current_thread cpu w = Some this)
       then (let* _ := ThreadManager_erase_suspension cpu par in
             Thread_resume cpu par) w5 = o
       else o = Ret tt w' ∧ w' = w5).
Proof.
  unfold Thread_exit. intros H Hw.
  apply (bind_quiet_inv _ _ _ _ w') in H
    as (cur & ? & [-> ->]%get_thread_self_inv & H);
    [|apply quiet_get_thread_self|done].
  cbv zeta in H.
  apply (bind_quiet_inv _ _ _ _ w') in H
    as (t & ? & [Ht ->]%deref_Ret_inv & H); [|apply quiet_deref|done].
  apply (bind_quiet_inv _ _ _ _ w') in H
    as (? & ? & [Hp%bool_decide_eq_true ->]%assert_Ret_inv & H);
    [|apply quiet_assert|done].
  destruct (parent t) as [p0|] eqn:Hp0; [clear Hp|done].
  apply (bind_quiet_inv _ _ _ _ w') in H
    as (? & w1 & (L1 & Hlive & S1)%detach_children_inv & H);
    [|quiet_tac|done].
  apply (bind_quiet_inv _ _ _ _ w') in H
    as (t1 & ? & [Ht1 ->]%deref_Ret_inv & H); [|apply quiet_deref|done].
  apply (bind_quiet_inv _ _ _ _ w') in H
    as (par & ? & [Hpar ->]%nonnull_Ret_inv & H); [|apply quiet_nonnull|done].
  assert (Hpar' : par = if decide (this ∈ children t) then MainOf cpu else p0).
  { rewrite L1, Ht in Ht1. case_decide; simpl in Ht1; simplify_eq; simpl in *; congruence. }
  clear Hpar.
  apply (bind_quiet_inv _ _ _ _ w') in H
    as (? & w2 & H2 & H); [|apply quiet_update|done].
  apply update_inv in H2 as (pt1 & Hpt1 & T2 & N2 & S2 & _).
  assert (Hparlive : is_Some (load w par)).
  { rewrite L1 in Hpt1. destruct (load w par); [by eauto|].
    by destruct (decide (par ∈ children t)). }
  assert (L2 : ∀ q, load w2 q = detached cpu (children t) par this q <$> load w q).
  { intros q. unfold detached. destruct (decide (q = par)) as [->|Hq].
    - rewrite T2. rewrite L1 in Hpt1.
      destruct (load w par) as [rec|], (decide (par ∈ children t));
        by simplify_eq/=.
    - rewrite N2, L1 by done.
      destruct (decide (q ∈ children t)); [done|]. by destruct (load w q). }
  clear T2 N2 Hpt1 pt1 L1 Ht1 t1.
  apply (bind_quiet_inv _ _ _ _ w') in H
    as (t2 & ? & [Ht2 ->]%deref_Ret_inv & H); [|apply quiet_deref|done].
  assert (Hnext : parent t2 = Some par).
  { rewrite L2, Ht in Ht2. injection Ht2 as <-. unfold detached.
    destruct (decide (this ∈ children t)), (decide (this = par));
      simpl; congruence. }
  cbv zeta in H. rewrite Hnext in H.
  apply (bind_quiet_inv _ _ _ _ w') in H
    as (? & w3 & H3 & H); [|quiet_tac|done].
  assert (L3 : ∀ q, load w3 q = load w2 q).
  { intros q. destruct (bool_decide (clear_tid t2 ≠ 0%Z)).
    - apply store_user_Ret_inv in H3 as [_ ->]. apply load_set_umem.
    - by apply ret_Ret_inv in H3 as [_ <-]. }
  assert (Q3 : ∀ i, queue i w3 = queue i w).
  { intros i. rewrite <- (sr_queue _ _ S1), <- (sr_queue _ _ S2).
    destruct (bool_decide (clear_tid t2 ≠ 0%Z)).
    - by apply store_user_Ret_inv in H3 as [_ ->].
    - by apply ret_Ret_inv in H3 as [_ <-]. }
  assert (F3 : fs_base w3 = fs_base w).
  { rewrite <- (sr_fs_base _ _ S1), <- (sr_fs_base _ _ S2).
    destruct (bool_decide (clear_tid t2 ≠ 0%Z)).
    - by apply store_user_Ret_inv in H3 as [_ ->].
    - by apply ret_Ret_inv in H3 as [_ <-]. }
  clear H3 S1 S2.
  apply (bind_quiet_inv _ _ _ _ w') in H
    as (? & w4 & (L4 & Q4 & F4 & _)%erase_thread_safely_inv & H);
    [|apply quiet_erase_thread_safely|done].
  apply (bind_quiet_inv _ _ _ _ w') in H
    as (? & w5 & (Hheap & T5 & N5 & S5)%delete_Thread_inv & H);
    [|apply quiet_delete_Thread|done].
  exists t, p0, par, w5. split_and!; try done.
  - intros q Hq. by rewrite N5, L4, L3, L2.
  - intros i. by rewrite (sr_queue _ _ S5), Q4, Q3.
  - by rewrite (sr_fs_base _ _ S5), F4, F3.
  - case_bool_decide.
    + by rewrite bind_eq in H.
    + subst o. by injection Hw as <-.
Qed.


Lemma detached_children cpu l par this q x :
  children (detached cpu l par this q x)
  = if decide (q = par) then erase_first this (children x) else children x.
Proof. unfold detached. by destruct (decide (q ∈ l)), (decide (q = par)). Qed.


Lemma detached_transfer cpu l par this q x :
  transfer_of (detached cpu l par this q x) = transfer_of x
  ∧ my_tls (detached cpu l par this q x) = my_tls x.
Proof. unfold detached. by destruct (decide (q ∈ l)), (decide (q = par)). Qed.

(** [exit] as a whole, when it does not trap. *)
Lemma Thread_exit_spec cpu this w o w' :
  Thread_exit cpu this w = o → world_after o = Some w' →
  ∃ t p0 par,
    load w this = Some t
    ∧ parent t = Some p0
    ∧ par = (if decide (this ∈ children t) then MainOf cpu else p0)
    ∧ (∃ a, this = Heap a)
    ∧ (∀ q, q ∈ children t → is_Some (load w q))
    ∧ (∀ q, q ≠ this →
         children <$> load w' q
         = children <$> (detached cpu (children t) par this q <$> load w q))
    ∧ (∀ q, q ≠ this →
         parent <$> load w' q
         = parent <$> (detached cpu (children t) par this q <$> load w q))
    ∧ (∀ i, i ≠ cpu → queue i w' = queue i w)
    ∧ (if bool_decide (current_thread cpu w = Some this)
       then ∃ pt, load w par = Some pt
                  ∧ o = Jump (transfer_of pt) w'
                  ∧ queue cpu w' = filter (λ x, x ≠ par) <$> queue cpu w
                  ∧ fs_base w' = <[cpu := my_tls pt]> (fs_base w)
       else o = Ret tt w'
            ∧ queue cpu w' = queue cpu w
            ∧ fs_base w' = fs_base w).
Proof.
  intros H Hw.
  destruct (Thread_exit_inv _ _ _ _ _ H Hw)
    as (t & p0 & par & w5 & Ht & Hp0 & Hpar & L5 & Hlive & Hparlive & Hheap
        & T5 & Q5 & F5 & Hend).
  exists t, p0, par.
  destruct (bool_decide (current_thread cpu w = Some this)).
  - apply (bind_quiet_inv _ _ _ _ w') in Hend
      as (? & w6 & (L6 & Q6 & N6 & F6)%erase_suspension_inv & Hend);
      [|apply quiet_erase_suspension|done].
    apply (Thread_resume_inv _ _ _ _ w') in Hend
      as (t6 & Ht6 & -> & C7 & P7 & Q7 & F7); [|done].
    split_and!; try done.
    + intros q Hq. by rewrite C7, L6, L5.
    + intros q Hq. by rewrite P7, L6, L5.
    + intros i Hi. by rewrite Q7, N6, Q5.
    + destruct Hparlive as [pt Hpt]. exists pt.
      assert (par ≠ this) as Hne.
      { intros ->. rewrite L6, T5 in Ht6. done. }
      rewrite L6, L5, Hpt in Ht6 by done. injection Ht6 as <-.
      destruct (detached_transfer cpu (children t) par this par pt)
        as [Htr Htls].
      rewrite Htr. rewrite Htls in F7.
      split_and!; try done.
      * by rewrite Q7, Q6, Q5.
      * by rewrite F7, F6, F5.
  - destruct Hend as [-> ->]. split_and!; try done.
    + intros q Hq. by rewrite L5.
    + intros q Hq. by rewrite L5.
Qed.

(** ** When [exit] completes *)

Lemma detach_children_progress v l : ∀ w,
  (∀ c, c ∈ l → is_Some (load w c)) →
  ∃ w', foreach l (λ child, update child (set_parent v)) w = Ret tt w'.
Proof.
  induction l as [|x l IH]; intros w Hlive; simpl.
  - by eexists.
  - destruct (update_progress x (set_parent v) w) as [w1 Hx].
    { apply Hlive, elem_of_cons. by left. }
    destruct (IH w1) as [w' Hrun].
    { intros c Hc. apply update_inv in Hx as (t & Ht & Hx' & Hne & _).
      destruct (decide (c = x)) as [->|Hcx]; [by rewrite Hx'|].
      rewrite Hne by done. apply Hlive, elem_of_cons. by right. }
    exists w'. by rewrite (bind_Ret _ _ _ _ _ Hx).
Qed.

Lemma Thread_resume_progress cpu p w :
  is_Some (load w p) → ∃ k w', Thread_resume cpu p w = Jump k w'.
Proof.
  intros [t Ht]. unfold Thread_resume.
  rewrite (bind_Ret _ _ _ _ _ (deref_run _ _ _ Ht)).
  destruct (yielded t); simpl.
  - rewrite (bind_Ret _ _ _ _ _ (update_run _ _ _ _ Ht)). by eexists _, _.
  - by eexists _, _.
Qed.

(** [exit] of a thread that is ready for it does not trap. *)
Lemma Thread_exit_completes cpu this w t :
  load w this = Some t → exit_ready cpu this t w →
  ∃ w', world_after (Thread_exit cpu this w) = Some w'.
Proof.
  intros Ht [[a ->] (par & Hp & Hne & Hpar) Hself Hlive (r & Hr & Hk)].
  revert Ht Hp Hne Hself Hpar Hlive Hr Hk. clear.
  intros Ht Hp Hne Hself Hpar Hlive Hr Hk. unfold Thread_exit.
  assert (Hcur : get_thread_self cpu w = Ret (current_thread cpu w) w) by done.
  rewrite (bind_Ret _ _ _ _ _ Hcur). cbv zeta.
  rewrite (bind_Ret _ _ _ _ _ (deref_run _ _ _ Ht)).
  rewrite Hp. rewrite bind_eq. simpl.
  destruct (detach_children_progress (Some (MainOf cpu)) (children t) w Hlive)
    as [w1 H1].
  rewrite (bind_Ret _ _ _ _ _ H1).
  apply detach_children_inv in H1 as (L1 & _ & S1).
  assert (Ht1 : load w1 (Heap a) = Some t) by (by rewrite L1, decide_False).
  rewrite (bind_Ret _ _ _ _ _ (deref_run _ _ _ Ht1)).
  rewrite Hp. rewrite bind_eq. simpl.
  destruct (update_progress par
              (λ pt, set_children (erase_first (Heap a) (children pt)) pt) w1)
    as [w2 H2].
  { rewrite L1. destruct Hpar as [pt ->]. by case_decide. }
  rewrite (bind_Ret _ _ _ _ _ H2).
  apply update_inv in H2 as (pt1 & _ & T2 & N2 & S2 & _).
  assert (Ht2 : load w2 (Heap a) = Some t) by (by rewrite N2).
  rewrite (bind_Ret _ _ _ _ _ (deref_run _ _ _ Ht2)).
  assert (∃ w3, (if bool_decide (clear_tid t ≠ 0%Z)
                 then store_user (clear_tid t) 8 0
                 else ret tt) w2 = Ret tt w3
               ∧ (∀ q, load w3 q = load w2 q)
               ∧ registry cpu w3 = registry cpu w2
               ∧ queue cpu w3 = queue cpu w2) as (w3 & H3 & L3 & R3 & Q3).
  { destruct (decide (clear_tid t ≠ 0%Z)) as [Hz|Hz];
      [rewrite bool_decide_eq_true_2 by done
      |rewrite bool_decide_eq_false_2 by done].
    - rewrite store_user_run by done.
      eexists. split; [done|]. split_and!; [|done..].
      intros q. apply load_set_umem.
    - by exists w2. }
  rewrite (bind_Ret _ _ _ _ _ H3). clear H3.
  assert (Hr3 : registry cpu w3 = Some r).
  { by rewrite R3, (sr_registry _ _ S2), (sr_registry _ _ S1). }
  destruct (registry_Some _ _ _ Hr3) as (m & Hm & <-).
  assert (Ht3 : load w3 (Heap a) = Some t) by (by rewrite L3).
  pose proof (erase_thread_safely_run cpu (Heap a) t w3 m Hm Ht3 Hk) as H4.
  rewrite (bind_Ret _ _ _ _ _ H4).
  apply erase_thread_safely_inv in H4 as (L4 & Q4 & _).
  set (w4 := set_thread_managers _ w3) in *. clearbody w4.
  assert (Ha4 : heap w4 !! a = Some t) by (by rewrite <- Ht3, <- L4).
  assert (H5 : delete_Thread (Heap a) w4
               = Ret tt (set_heap (delete a (heap w4)) w4)).
  { unfold delete_Thread. by rewrite Ha4. }
  rewrite (bind_Ret _ _ _ _ _ H5).
  apply delete_Thread_inv in H5 as (_ & _ & N5 & S5).
  set (w5 := set_heap _ w4) in *. clearbody w5.
  destruct (bool_decide (current_thread cpu w = Some (Heap a))); [|by eexists].
  rewrite Hp, bind_eq. simpl.
  assert (Hm5 : is_Some (thread_managers w5 !! cpu)).
  { assert (Hq : queue cpu w5 = queue cpu w3)
      by (by rewrite (sr_queue _ _ S5), Q4).
    unfold queue in Hq. rewrite Hm in Hq.
    destruct (thread_managers w5 !! cpu); [by eauto|done]. }
  destruct Hm5 as [m5 Hm5].
  unfold ThreadManager_erase_suspension.
  rewrite (bind_Ret _ _ _ _ _ (update_manager_run _ _ _ _ Hm5)).
  destruct (Thread_resume_progress cpu par
              (set_thread_managers
                 (<[cpu := set_suspended (filter (λ x, x ≠ par) (suspended m5)) m5]>
                    (thread_managers w5)) w5))
    as (k & w' & Hrun).
  { erewrite load_set_managers; [|exact Hm5|done].
    rewrite N5, L4, L3, T2 by done. by eauto. }
  exists w'. simpl in Hrun. by rewrite Hrun.
Qed.


(** C2, as the code has it.  A thread whose parent is [par] and that is not
    its own child exits; when it is ready for it, the [exit] completes.
    Whenever the [exit] completes: if the thread is the one executing on the
    CPU, [exit] does not return; it removes every entry of the parent, not of
    the exiting thread, from the CPU's suspended queue, every other entry
    staying in place, and ends in the control transfer into the parent's
    saved continuation, with the thread area set to the parent's.  If another
    thread runs the [exit], there is no such transfer: the call returns and
    all queues are as before. *)
Theorem exit_resumes_parent
    (cpu : nat) (this par : tptr) (w : World) (t : Thread) :
  load w this = Some t →
  parent t = Some par →
  this ∉ children t →
  (exit_ready cpu this t w →
     ∃ w', world_after (Thread_exit cpu this w) = Some w')
  ∧ (∀ w', world_after (Thread_exit cpu this w) = Some w' →
       (current_thread cpu w = Some this →
          ∃ pt, load w par = Some pt
                ∧ Thread_exit cpu this w = Jump (transfer_of pt) w'
                ∧ queue cpu w' = filter (λ x, x ≠ par) <$> queue cpu w
                ∧ fs_base w' !! cpu = Some (my_tls pt))
       ∧ (current_thread cpu w ≠ Some this →
            Thread_exit cpu this w = Ret tt w'
            ∧ ∀ i, queue i w' = queue i w)
       ∧ (∀ i, i ≠ cpu → queue i w' = queue i w)).
Proof.
  intros Ht Hp Hself. split; [by apply Thread_exit_completes|]. intros w' Hw.
  destruct (Thread_exit_spec _ _ _ _ _ eq_refl Hw)
    as (t0 & p0 & par0 & Ht0 & Hp0 & Hpar & _ & _ & _ & _ & Hq & Hend).
  rewrite Ht in Ht0. injection Ht0 as <-.
  rewrite Hp in Hp0. injection Hp0 as <-.
  rewrite decide_False in Hpar by done. subst par0.
  split_and!.
  - intros Hcur. rewrite bool_decide_eq_true_2 in Hend by done.
    destruct Hend as (pt & Hpt & Ho & Hqueue & Hfs).
    exists pt. split_and!; try done.
    rewrite Hfs. apply lookup_insert_eq.
  - intros Hcur. rewrite bool_decide_eq_false_2 in Hend by done.
    destruct Hend as (Ho & Hqueue & _). split; [done|].
    intros i. destruct (decide (i = cpu)) as [->|Hi]; [done|by apply Hq].
  - done.
Qed.

(** * The theorems at work on the sample configurations *)

(** The boot configuration is what [setup_main_thread] makes of a manager
    that is zero-initialised, on a CPU whose thread area is at 4096. *)
Example boot_is_setup :
  setup_main_thread 0 0
    (mkWorld 1 [mkManager ∅ [] fresh_thread] ∅ {[0%nat := 4096%Z]} ∅ ∅ [])
  = Ret tt (sample.boot []).
Proof. reflexivity. Qed.

(** [family] is [one_thread] after [A] has created a thread. *)
Example family_is_created :
  thread_create 0 (Some (Heap 0)) 0 0 200 (sample.one_thread [] [])
  = Ret (Some (Heap 1)) sample.family.
Proof. reflexivity. Qed.

(** A thread that suspends without yielding, or that is resumed by id while
    it is queued, executes with entries of its own in the queue. *)
Example own_suspension_arises :
  suspend_each 0 [(Heap 0, (10, 20)); (MainOf 0, (5, 7)); (Heap 0, (10, 20))]%Z
    (sample.one_thread [] [])
  = Ret tt (sample.one_thread [Heap 0; MainOf 0; Heap 0] []).
Proof. reflexivity. Qed.



(** Counterexample to C2 as stated: [A] is executing and, against the
    invariant, also has two entries in the suspended queue, around one of
    its parent.  [A] exits: the parent's entry is removed and the parent
    resumed, the two entries of [A] itself are still queued. *)
Lemma exit_keeps_own_suspension :
  let w := sample.one_thread [Heap 0; MainOf 0; Heap 0] [] in
  current_thread 0 w = Some (Heap 0)
  ∧ queue 0 w = Some [Heap 0; MainOf 0; Heap 0]
  ∧ match Thread_exit 0 (Heap 0) w with
    | Jump k w' =>
        k = thread_restore 5 7
        ∧ queue 0 w' = Some [Heap 0; Heap 0]
        ∧ load w' (Heap 0) = None
    | _ => False
    end.
Proof. vm_compute. by split_and!. Qed.

Lemma exit_resumes_parent_witness :
  let w := sample.one_thread [Heap 0; MainOf 0; Heap 0] [] in
  exit_ready 0 (Heap 0) sample.thread_A w
  ∧ ∃ w', Thread_exit 0 (Heap 0) w = Jump (thread_restore 5 7) w'
          ∧ queue 0 w' = Some [Heap 0; Heap 0]
          ∧ fs_base w' !! 0 = Some 4096%Z.
Proof.
  intros w.
  assert (Hready : exit_ready 0 (Heap 0) sample.thread_A w).
  { split.
    - exists 0%N. reflexivity.
    - exists (MainOf 0). split_and!; [reflexivity | discriminate | eexists; reflexivity].
    - apply not_elem_of_nil.
    - intros c Hin. apply elem_of_nil in Hin. destruct Hin.
    - eexists. split; reflexivity. }
  destruct (exit_resumes_parent 0 (Heap 0) (MainOf 0) w sample.thread_A
              eq_refl eq_refl (not_elem_of_nil _)) as [Hcompletes Hafter].
  destruct (Hcompletes Hready) as [w' Hw'].
  destruct (Hafter w' Hw') as (Hself & _ & _).
  destruct (Hself eq_refl) as (pt & Hpt & Hjump & Hqueue & Hfs).
  injection Hpt as <-.
  split; [exact Hready|].
  exists w'. split_and!; [exact Hjump | exact Hqueue | exact Hfs].
Defined.

(** Counterexample to C3 as stated: the id 1 is a key of the registry, and
    [insert_thread] of another thread with id 1 returns, with the world as it
    was: no trap, the old entry kept. *)
Lemma insert_thread_duplicate_returns :
  let w := sample.duplicate_id in
  registry 0 w = Some {[1%Z := Heap 0]}
  ∧ tid <$> load w (Heap 1) = Some 1%Z
  ∧ ThreadManager_insert_thread 0 (Heap 1) w = Ret tt w
  ∧ ¬ (∃ r, ThreadManager_insert_thread 0 (Heap 1) w = Trap r).
Proof. split_and!; try reflexivity. by intros [r Hr]. Qed.

Lemma insert_thread_duplicate_is_silent_witness :
  ThreadManager_insert_thread 0 (Heap 1) sample.duplicate_id
  = Ret tt sample.duplicate_id.
Proof.
  destruct (insert_thread_duplicate_is_silent 0 sample.duplicate_id
              (mkManager {[1%Z := Heap 0]} [] sample.main_0) (Heap 1)
              sample.twin_A eq_refl eq_refl
              (ex_intro _ (Heap 0) eq_refl))
    as (_ & Hrun & _).
  apply Hrun. reflexivity.
Defined.

Lemma suspend_enqueue_failure_witness :
  ∃ w', Thread_suspend 0 (Heap 0) 30 40 (sample.one_thread [] [false])
        = Throw bad_alloc w'
        ∧ load w' (Heap 0) = Some (set_stored 30 40 sample.thread_A)
        ∧ registry 0 w' = Some {[1%Z := Heap 0]}
        ∧ queue 0 w' = Some [].
Proof.
  destruct (suspend_enqueue_failure 0 (Heap 0) sample.thread_A
              (sample.one_thread [] [false]) [] 30 40 eq_refl eq_refl)
    as (w' & Hrun & Hload & _ & Hreg & Hqueue).
  exists w'. split_and!; [exact Hrun | exact Hload | |].
  - rewrite Hreg. reflexivity.
  - rewrite Hqueue. reflexivity.
Defined.

Lemma suspended_queue_is_fifo_witness :
  ∃ w', (let* _ := suspend_each 0 [(Heap 0, (1, 2)); (Heap 1, (3, 4));
                                    (Heap 2, (5, 6))]%Z in
         wakeup_times 0 3) sample.three_threads
        = Ret [Heap 0; Heap 1; Heap 2] w'
        ∧ queue 0 w' = Some [].
Proof.
  apply (suspended_queue_is_fifo 0 sample.three_threads []
           [(Heap 0, (1, 2)); (Heap 1, (3, 4)); (Heap 2, (5, 6))]%Z);
    [reflexivity | reflexivity |].
  repeat constructor; simpl; eexists; reflexivity.
Defined.

Lemma migrate_moves_registration_witness :
  ∃ w', ThreadManager_migrate 0 0 1 1 sample.two_cpus = Ret tt w'
        ∧ registry 0 w' = Some ∅
        ∧ registry 1 w' = Some {[1%Z := Heap 0]}
        ∧ load w' (Heap 0) = Some sample.thread_A.
Proof.
  destruct (migrate_moves_registration sample.two_cpus 0 1
              (mkManager {[1%Z := Heap 0]} [] sample.main_0)
              (mkManager ∅ [] sample.main_1) 1 (Heap 0) sample.thread_A
              eq_refl eq_refl ltac:(lia) eq_refl eq_refl eq_refl eq_refl)
    as (w' & Hrun & HA & (rB & HB & _ & HrB) & Hload & _).
  exists w'. split_and!.
  - exact Hrun.
  - rewrite HA. reflexivity.
  - rewrite HB, (HrB eq_refl). reflexivity.
  - rewrite Hload. reflexivity.
Defined.

Lemma wakeup_next_contract_witness :
  ThreadManager_wakeup_next 0 (sample.one_thread [] []) = Trap assert_failed
  ∧ ∃ w', ThreadManager_wakeup_next 0
            (sample.one_thread [Heap 0; MainOf 0] []) = Ret (Heap 0) w'
          ∧ queue 0 w' = Some [MainOf 0].
Proof.
  split.
  - apply (wakeup_next_contract 0 (sample.one_thread [] [])
             (mkManager {[1%Z := Heap 0]} [] sample.main_0) eq_refl).
    reflexivity.
  - destruct (wakeup_next_contract 0 (sample.one_thread [Heap 0; MainOf 0] [])
                (mkManager {[1%Z := Heap 0]} [Heap 0; MainOf 0] sample.main_0)
                eq_refl) as [_ Hfront].
    destruct (Hfront (Heap 0) [MainOf 0] eq_refl) as (w' & Hrun & Hqueue & _).
    exists w'. split; [exact Hrun | exact Hqueue].
Defined.

Lemma get_thread_calling_cpu_only_witness :
  get_thread 1 1 sample.two_cpus = Ret None sample.two_cpus
  ∧ resume 1 1 sample.two_cpus = Trap assert_failed
  ∧ get_thread 0 1 sample.two_cpus = Ret (Some (Heap 0)) sample.two_cpus.
Proof.
  apply (get_thread_calling_cpu_only sample.two_cpus 1 0
           (mkManager ∅ [] sample.main_1)
           (mkManager {[1%Z := Heap 0]} [] sample.main_0) 1 (Heap 0));
    [reflexivity | reflexivity | lia | reflexivity | reflexivity].
Defined.

(** Counterexample to C8 as stated: the counter has come round to a value
    that, as an [int], is the id 1 of the registered thread [A].
    [thread_create] succeeds and returns a new thread with the id 1, a child
    of its parent; the registry still has [A] under 1 and nothing else, so
    the returned thread is in no registry. *)
Lemma thread_create_returns_unregistered :
  thread_create 0 (Some (Heap 0)) 0 0 200 sample.wrapped
  = Ret (Some (Heap 1)) sample.wrapped_after_create
  ∧ tid <$> load sample.wrapped_after_create (Heap 1) = Some 1%Z
  ∧ registry 0 sample.wrapped_after_create = Some {[1%Z := Heap 0]}
  ∧ (∀ i r k, registry i sample.wrapped_after_create = Some r →
              r !! k ≠ Some (Heap 1))
  ∧ get_thread 0 1 sample.wrapped_after_create
    = Ret (Some (Heap 0)) sample.wrapped_after_create.
Proof.
  split_and!; try reflexivity.
  intros [|i] r k; [|discriminate]. intros [= <-].
  destruct (decide (k = 1%Z)) as [->|Hk]; [discriminate|].
  by rewrite lookup_singleton_ne.
Qed.

Lemma thread_create_registers_free_id_witness :
  let w := sample.boot [] in
  ∃ p w' t pt r',
    thread_create 0 (Some (MainOf 0)) CLONE_CHILD_SETTID 500 100 w
    = Ret (Some p) w'
    ∧ load w' p = Some t ∧ tid t = 1%Z
    ∧ registry 0 w' = Some r' ∧ r' !! 1%Z = Some p
    ∧ (∀ k, r' !! k = Some p → k = 1%Z)
    ∧ load w' (MainOf 0) = Some pt ∧ p ∈ children pt
    ∧ load_int 500 (umem w') = Some 1%Z.
Proof.
  intros w.
  assert (Hlive : ∀ i r k q,
    registry i w = Some r → r !! k = Some q → is_Some (load w q)).
  { intros [|i] r k q Hr Hk; [|discriminate Hr].
    injection Hr as <-. rewrite lookup_empty in Hk. discriminate Hk. }
  destruct (thread_create_registers_free_id 0 (Some (MainOf 0))
              CLONE_CHILD_SETTID 500 100 w)
    as [Hsucceeds Hafter].
  destruct (Hsucceeds (MainOf 0) eq_refl
              ltac:(eexists; reflexivity) ltac:(eexists; reflexivity) eq_refl
              ltac:(discriminate))
    as (p & w' & Hrun).
  destruct (Hafter p w' Hrun)
    as (t & par & pt & r & r' & _ & Ht & Htid & Hpar & _ & Hpt & Hin & Hset
        & Hr & Hr' & _ & _ & _ & Hsound).
  destruct (Hsound Hlive) as (_ & Hfree & _).
  injection Hpar as <-. injection Hr as <-.
  rewrite Htid in Hfree, Hset.
  destruct (Hfree eq_refl) as [Hkey Honly].
  exists p, w', t, pt, r'. split_and!; try done.
  apply Hset. discriminate.
Defined.


(** * Further properties of the code *)

(** ** The id counter and the thread area *)

(** X1. [get_last_thread_id] names the id that was issued last: right after
    [generate_new_thread_id], and after a [thread_create] however that ended,
    also when it failed and no thread carries the id ([long] not
    overflowing). *)
Theorem last_thread_id_is_issued_id
    (cpu : nat) (parent : option tptr) (flags ctid stack : Z) (w : World) :
  (- 2 ^ 63 ≤ thread_counter w < 2 ^ 63 - 1)%Z →
  (∃ w1, generate_new_thread_id w = Ret (thread_counter w) w1
         ∧ get_last_thread_id w1 = Ret (thread_counter w) w1)
  ∧ (∀ w', world_after (thread_create cpu parent flags ctid stack w) = Some w' →
           get_last_thread_id w' = Ret (thread_counter w) w').
Proof.
  intros Hc. split.
  - eexists. split; [reflexivity|].
    unfold get_last_thread_id, gets. simpl. f_equal.
    rewrite (wrap_long_id (thread_counter w + 1)) by lia.
    rewrite wrap_long_id by lia. lia.
  - intros w' Hw. unfold get_last_thread_id, gets. f_equal.
    rewrite (thread_create_counter _ _ _ _ _ _ _ Hw).
    rewrite (wrap_long_id (thread_counter w + 1)) by lia.
    rewrite wrap_long_id by lia. lia.
Qed.

Lemma last_thread_id_is_issued_id_witness :
  (∃ w1, generate_new_thread_id (sample.boot [false]) = Ret 1%Z w1
         ∧ get_last_thread_id w1 = Ret 1%Z w1)
  ∧ ∃ w', thread_create 0 (Some (MainOf 0)) 0 0 100 (sample.boot [false])
          = Ret None w'
          ∧ get_last_thread_id w' = Ret 1%Z w'.
Proof.
  destruct (last_thread_id_is_issued_id 0 (Some (MainOf 0)) 0 0 100
              (sample.boot [false]) ltac:(simpl; lia)) as [Hpair Hcreate].
  split; [exact Hpair|].
  exists (set_allocs [] (set_thread_counter 2 (sample.boot [false]))).
  split; [reflexivity|]. apply Hcreate. reflexivity.
Defined.

Lemma store_store p t1 t2 w :
  is_Some (load w p) → load (store p t2 (store p t1 w)) p = Some t2.
Proof. intros H. rewrite load_store_eq; [done|]. by rewrite load_store_eq. Qed.

(** The world after [activate]. *)
Lemma activate_run cpu this newtls w t :
  load w this = Some t →
  newtls ≠ 0%Z →
  Thread_activate cpu this newtls w
  = Ret tt (set_fs_base (<[cpu := newtls]> (fs_base w))
              (set_tls_kthread (<[newtls := this]> (tls_kthread w))
                 (store this (set_my_tls newtls t) w))).
Proof.
  intros Ht Htls. unfold Thread_activate.
  rewrite (bind_Ret _ _ _ _ _ (update_run _ _ _ _ Ht)).
  assert (Ht1 : load (store this (set_my_tls newtls t) w) this
                = Some (set_my_tls newtls t)) by (by rewrite load_store_eq).
  unfold Thread_libc_store_this.
  rewrite bind_eq, (bind_Ret _ _ _ _ _ (deref_run _ _ _ Ht1)).
  cbn [my_tls set_my_tls]. rewrite bool_decide_eq_false_2 by done.
  unfold modify at 1. cbv beta.
  set (w2 := set_tls_kthread _ _).
  assert (Ht2 : load w2 this = Some (set_my_tls newtls t))
    by (by destruct this).
  rewrite (bind_Ret _ _ _ _ _ (deref_run _ _ _ Ht2)).
  unfold w2. by destruct this.
Qed.

(** With a null storage block [activate] stores through a null pointer. *)
Lemma activate_null cpu this w t :
  load w this = Some t → Thread_activate cpu this 0 w = Trap fault.
Proof.
  intros Ht. unfold Thread_activate.
  rewrite (bind_Ret _ _ _ _ _ (update_run _ _ _ _ Ht)).
  assert (Ht1 : load (store this (set_my_tls 0 t) w) this
                = Some (set_my_tls 0 t)) by (by rewrite load_store_eq).
  unfold Thread_libc_store_this.
  by rewrite bind_eq, (bind_Ret _ _ _ _ _ (deref_run _ _ _ Ht1)).
Qed.

(** X2. [activate] with a storage block that is not null makes the thread
    the one that [get_thread()] finds on this CPU: the thread records the
    storage block, the block points back at the thread, and the thread area
    register of the CPU points at the block.  No other thread, registry or
    queue changes.  With a null storage block the back-pointer would be
    stored through a null pointer: the call does not return. *)
Theorem activate_installs_thread
    (cpu : nat) (this : tptr) (newtls : Z) (w : World) (t : Thread) :
  load w this = Some t →
  (newtls = 0%Z → Thread_activate cpu this newtls w = Trap fault)
  ∧ (newtls ≠ 0%Z →
     ∃ w', Thread_activate cpu this newtls w = Ret tt w'
           ∧ load w' this = Some (set_my_tls newtls t)
           ∧ fs_base w' !! cpu = Some newtls
           ∧ tls_kthread w' !! newtls = Some this
           ∧ get_thread_self cpu w' = Ret (Some this) w'
           ∧ (∀ q, q ≠ this → load w' q = load w q)
           ∧ (∀ i, registry i w' = registry i w)
           ∧ (∀ i, queue i w' = queue i w)).
Proof.
  intros Ht. split; [intros ->; by apply (activate_null cpu this w t)|].
  intros Htls.
  eexists. split; [by apply activate_run|].
  split_and!.
  - rewrite load_set_fs_base.
    assert (∀ v w0 p, load (set_tls_kthread v w0) p = load w0 p) as ->
      by (by intros ? ? []).
    by rewrite load_store_eq.
  - simpl. apply lookup_insert_eq.
  - by destruct this; simpl; rewrite lookup_insert_eq.
  - unfold get_thread_self, get_thread_area, gets. rewrite bind_eq. simpl.
    rewrite lookup_insert_eq. simpl.
    by destruct this; simpl; rewrite lookup_insert_eq.
  - intros q Hq. rewrite load_set_fs_base.
    assert (∀ v w0 p, load (set_tls_kthread v w0) p = load w0 p) as ->
      by (by intros ? ? []).
    by rewrite load_store_ne.
  - intros i. apply (registry_store this (set_my_tls newtls t) w i).
  - intros i. apply (queue_store this (set_my_tls newtls t) w i).
Qed.

Lemma activate_installs_thread_witness :
  Thread_activate 0 (MainOf 0) 0 (sample.one_thread [] []) = Trap fault
  ∧ ∃ w', Thread_activate 0 (MainOf 0) 12288 (sample.one_thread [] [])
          = Ret tt w'
          ∧ fs_base w' !! 0 = Some 12288%Z
          ∧ get_thread_self 0 w' = Ret (Some (MainOf 0)) w'.
Proof.
  split.
  - apply (activate_installs_thread 0 (MainOf 0) 0
             (sample.one_thread [] []) sample.main_0 eq_refl).
    reflexivity.
  - destruct (activate_installs_thread 0 (MainOf 0) 12288
                (sample.one_thread [] []) sample.main_0 eq_refl)
      as [_ Hinstalls].
    destruct (Hinstalls ltac:(discriminate))
      as (w' & Hrun & _ & Hfs & _ & Hself & _).
    exists w'. split_and!; [exact Hrun | exact Hfs | exact Hself].
Defined.

Lemma load_set_tls_kthread v w p : load (set_tls_kthread v w) p = load w p.
Proof. by destruct p. Qed.

(** [setup_main_thread] up to the call of [activate]. *)
Lemma setup_main_thread_eq cpu stack_value w m :
  thread_managers w !! cpu = Some m →
  ∃ w3, setup_main_thread cpu stack_value w
        = Thread_activate cpu (MainOf cpu) (default 0%Z (fs_base w !! cpu)) w3
        ∧ load w3 (MainOf cpu)
          = Some (set_my_stack stack_value
                    (set_tid 0 (set_self (Some (MainOf cpu)) (main_thread m))))
        ∧ fs_base w3 = fs_base w
        ∧ tls_kthread w3 = tls_kthread w
        ∧ heap w3 = heap w
        ∧ (∀ i, queue i w3 = queue i w)
        ∧ (∀ i, registry i w3 = registry i w).
Proof.
  intros Hm. unfold setup_main_thread. cbv zeta.
  assert (H0 : load w (MainOf cpu) = Some (main_thread m)) by (by simpl; rewrite Hm).
  unfold Thread_init.
  pose proof (update_run (MainOf cpu) (set_self (Some (MainOf cpu))) w _ H0) as H1.
  set (w1 := store _ _ w) in H1.
  assert (T1 : load w1 (MainOf cpu)
               = Some (set_self (Some (MainOf cpu)) (main_thread m)))
    by (unfold w1; rewrite load_store_eq; by eauto).
  pose proof (update_run (MainOf cpu) (set_tid (to_int 0)) w1 _ T1) as H2.
  set (w2 := store _ _ w1) in H2.
  assert (T2 : load w2 (MainOf cpu)
               = Some (set_tid 0 (set_self (Some (MainOf cpu)) (main_thread m))))
    by (unfold w2; rewrite load_store_eq; by eauto).
  pose proof (update_run (MainOf cpu) (set_my_stack stack_value) w2 _ T2) as H3.
  set (w3 := store _ _ w2) in H3.
  exists w3. split_and!.
  - rewrite bind_eq, (bind_Ret _ _ _ _ _ H1), H2.
    by rewrite (bind_Ret _ _ _ _ _ H3).
  - unfold w3. rewrite load_store_eq; by eauto.
  - done.
  - done.
  - done.
  - intros i. unfold w3, w2, w1. by rewrite !queue_store.
  - intros i. unfold w3, w2, w1. by rewrite !registry_store.
Qed.

(** X3. [setup_main_thread] on a CPU whose thread area register is set gives
    the embedded main thread the id 0, its own address as [self], the given
    stack address, and the storage block that the register points at; it
    makes the main thread the one [get_thread()] finds, and leaves the
    register, the heap, the queues and the registries alone.  In particular
    it does not register the main thread: with no entry for id 0 before,
    [resume(0)] after it stops at its assertion.  On a CPU whose thread area
    register is null the call does not return: [activate] stores through the
    null storage block. *)
Theorem setup_main_thread_boots
    (cpu : nat) (stack_value : Z) (w : World) (m : ThreadManager) :
  thread_managers w !! cpu = Some m →
  (default 0%Z (fs_base w !! cpu) = 0%Z →
     setup_main_thread cpu stack_value w = Trap fault)
  ∧ (default 0%Z (fs_base w !! cpu) ≠ 0%Z →
     ∃ w', setup_main_thread cpu stack_value w = Ret tt w'
           ∧ load w' (MainOf cpu)
             = Some (set_my_tls (default 0%Z (fs_base w !! cpu))
                       (set_my_stack stack_value
                          (set_tid 0 (set_self (Some (MainOf cpu))
                                        (main_thread m)))))
           ∧ fs_base w' !! cpu = Some (default 0%Z (fs_base w !! cpu))
           ∧ get_thread_self cpu w' = Ret (Some (MainOf cpu)) w'
           ∧ heap w' = heap w
           ∧ (∀ i, queue i w' = queue i w)
           ∧ (∀ i, registry i w' = registry i w)
           ∧ (∀ r, registry cpu w = Some r → r !! 0%Z = None →
                resume cpu 0 w' = Trap assert_failed)).
Proof.
  intros Hm.
  destruct (setup_main_thread_eq cpu stack_value w m Hm)
    as (w3 & Hrun & T3 & F3 & K3 & A3 & Q3 & R3).
  set (area := default 0%Z (fs_base w !! cpu)) in *.
  split.
  { intros Hnull. rewrite Hrun, Hnull. by eapply activate_null. }
  intros Harea.
  pose proof (activate_run cpu (MainOf cpu) area w3 _ T3 Harea) as H4.
  set (w4 := set_fs_base _ _) in H4.
  exists w4. split; [by rewrite Hrun|].
  assert (Hr4 : ∀ i, registry i w4 = registry i w).
  { intros i. rewrite <- R3. unfold w4.
    apply (registry_store (MainOf cpu) _ w3 i). }
  split_and!.
  - unfold w4. rewrite load_set_fs_base, load_set_tls_kthread.
    by rewrite load_store_eq by eauto.
  - unfold w4. simpl. apply lookup_insert_eq.
  - unfold get_thread_self, get_thread_area, gets. rewrite bind_eq.
    unfold w4. simpl. rewrite lookup_insert_eq. simpl.
    by rewrite lookup_insert_eq.
  - by rewrite <- A3.
  - intros i. rewrite <- Q3. unfold w4.
    apply (queue_store (MainOf cpu) _ w3 i).
  - exact Hr4.
  - intros r Hr Hk. unfold resume.
    specialize (Hr4 cpu). rewrite Hr in Hr4.
    destruct (registry_Some _ _ _ Hr4) as (m4 & Hm4 & Hthreads).
    rewrite (bind_Ret _ _ _ _ _ (get_thread_run _ _ _ _ Hm4)).
    by rewrite Hthreads, Hk.
Qed.

Lemma setup_main_thread_boots_witness :
  setup_main_thread 0 0
    (mkWorld 1 [mkManager ∅ [] fresh_thread] ∅ ∅ ∅ ∅ []) = Trap fault
  ∧ setup_main_thread 0 0
      (mkWorld 1 [mkManager ∅ [] fresh_thread] ∅ {[0%nat := 4096%Z]} ∅ ∅ [])
    = Ret tt (sample.boot [])
  ∧ resume 0 0 (sample.boot []) = Trap assert_failed.
Proof.
  split.
  { apply (setup_main_thread_boots 0 0
             (mkWorld 1 [mkManager ∅ [] fresh_thread] ∅ ∅ ∅ ∅ [])
             (mkManager ∅ [] fresh_thread) eq_refl).
    reflexivity. }
  destruct (setup_main_thread_boots 0 0
              (mkWorld 1 [mkManager ∅ [] fresh_thread] ∅ {[0%nat := 4096%Z]}
                 ∅ ∅ [])
              (mkManager ∅ [] fresh_thread) eq_refl)
    as [_ Hboots].
  destruct (Hboots ltac:(discriminate))
    as (w' & Hrun & _ & _ & _ & _ & _ & _ & Hresume).
  split; [reflexivity|].
  assert (Hw' : w' = sample.boot []).
  { assert (Hboot : Ret tt w' = Ret tt (sample.boot [])) by (rewrite <- Hrun; reflexivity).
    injection Hboot as Hboot. exact Hboot. }
  rewrite <- Hw'. apply (Hresume ∅); reflexivity.
Defined.

(** ** The registry *)

Lemma erase_thread_safely_mismatch this p w m t :
  thread_managers w !! this = Some m →
  load w p = Some t →
  threads m !! tid t ≠ Some p →
  ThreadManager_erase_thread_safely this (Some p) w = Trap assert_failed.
Proof.
  intros Hm Ht Hk. unfold ThreadManager_erase_thread_safely.
  rewrite bind_eq. simpl. rewrite bind_eq. simpl.
  rewrite (bind_Ret _ _ _ _ _ (deref_run _ _ _ Ht)).
  rewrite (bind_Ret _ _ _ _ _ (manager_run _ _ _ Hm)). cbv zeta.
  destruct (threads m !! tid t) as [q|] eqn:Hq.
  - rewrite bind_eq. simpl. rewrite bind_eq.
    unfold assert. by rewrite bool_decide_eq_false_2.
  - by rewrite bind_eq.
Qed.

(** X4. [erase_thread_safely] removes exactly the entry of the thread's id
    when that entry is the thread, and touches nothing else; called with a
    null pointer, for an id that is not registered, or for an id registered
    to another thread object, it stops at an assertion.  So does a second
    removal of the same thread. *)
Theorem erase_thread_safely_guards
    (this : nat) (p : tptr) (w : World) (m : ThreadManager) (t : Thread) :
  thread_managers w !! this = Some m →
  load w p = Some t →
  ThreadManager_erase_thread_safely this None w = Trap assert_failed
  ∧ (threads m !! tid t ≠ Some p →
       ThreadManager_erase_thread_safely this (Some p) w = Trap assert_failed)
  ∧ (threads m !! tid t = Some p →
       ∃ w', ThreadManager_erase_thread_safely this (Some p) w = Ret tt w'
             ∧ registry this w' = Some (delete (tid t) (threads m))
             ∧ (∀ i, i ≠ this → registry i w' = registry i w)
             ∧ (∀ q, load w' q = load w q)
             ∧ (∀ i, queue i w' = queue i w)
             ∧ ThreadManager_erase_thread_safely this (Some p) w'
               = Trap assert_failed).
Proof.
  intros Hm Ht. split_and!.
  - done.
  - by apply erase_thread_safely_mismatch.
  - intros Hk.
    pose proof (erase_thread_safely_run this p t w m Hm Ht Hk) as Hrun.
    set (w' := set_thread_managers _ w) in Hrun.
    assert (Hm' : thread_managers w' !! this
                  = Some (set_threads (delete (tid t) (threads m)) m)).
    { unfold w'. simpl. rewrite list_lookup_insert_eq; [done|].
      by eapply lookup_lt_Some. }
    destruct (erase_thread_safely_inv _ _ _ _ _ Hrun)
      as (Hload & Hqueue & _ & _ & Hother).
    exists w'. split_and!; try done.
    + unfold registry. by rewrite Hm'.
    + apply (erase_thread_safely_mismatch this p w' _ t Hm').
      * by rewrite Hload.
      * simpl. by rewrite lookup_delete_eq.
Qed.

Lemma erase_thread_safely_guards_witness :
  ThreadManager_erase_thread_safely 0 (Some (Heap 1)) sample.duplicate_id
  = Trap assert_failed
  ∧ ∃ w', ThreadManager_erase_thread_safely 0 (Some (Heap 0)) sample.duplicate_id
          = Ret tt w'
          ∧ registry 0 w' = Some ∅
          ∧ ThreadManager_erase_thread_safely 0 (Some (Heap 0)) w'
            = Trap assert_failed.
Proof.
  split.
  - destruct (erase_thread_safely_guards 0 (Heap 1) sample.duplicate_id
                (mkManager {[1%Z := Heap 0]} [] sample.main_0) sample.twin_A
                eq_refl eq_refl) as (_ & Hmismatch & _).
    apply Hmismatch. discriminate.
  - destruct (erase_thread_safely_guards 0 (Heap 0) sample.duplicate_id
                (mkManager {[1%Z := Heap 0]} [] sample.main_0) sample.thread_A
                eq_refl eq_refl) as (_ & _ & Hfound).
    destruct (Hfound eq_refl) as (w' & Hrun & Hreg & _ & _ & _ & Hagain).
    exists w'. split_and!; [exact Hrun | | exact Hagain].
    rewrite Hreg. reflexivity.
Defined.

(** X5. A thread inserted under an id that is free is found by [get_thread]
    under that id, every other id looks up as before, and removing the
    thread again gives back the world before the insertion. *)
Theorem insert_thread_round_trip
    (cpu : nat) (p : tptr) (w : World) (m : ThreadManager) (t : Thread) :
  thread_managers w !! cpu = Some m →
  load w p = Some t →
  threads m !! tid t = None →
  allocs w = [] →
  ∃ w1, ThreadManager_insert_thread cpu p w = Ret tt w1
        ∧ get_thread cpu (tid t) w1 = Ret (Some p) w1
        ∧ (∀ k, k ≠ tid t → get_thread cpu k w1 = Ret (threads m !! k) w1)
        ∧ (∀ q, load w1 q = load w q)
        ∧ ThreadManager_erase_thread_safely cpu (Some p) w1 = Ret tt w.
Proof.
  intros Hm Ht Hk Ha.
  pose proof (insert_thread_fresh cpu w m p t Hm Ht Ha Hk) as Hrun.
  set (m1 := set_threads (<[tid t := p]> (threads m)) m) in Hrun.
  set (w1 := set_thread_managers _ w) in Hrun.
  assert (Hlen : cpu < length (thread_managers w)) by (by eapply lookup_lt_Some).
  assert (Hm1 : thread_managers w1 !! cpu = Some m1).
  { unfold w1. simpl. by rewrite list_lookup_insert_eq. }
  assert (Hload : ∀ q, load w1 q = load w q).
  { intros q. unfold w1. by erewrite load_set_managers. }
  exists w1. split_and!; try done.
  - rewrite (get_thread_run _ _ _ _ Hm1). simpl. by rewrite lookup_insert_eq.
  - intros k Hne. rewrite (get_thread_run _ _ _ _ Hm1). simpl.
    by rewrite lookup_insert_ne.
  - rewrite (erase_thread_safely_run cpu p t w1 m1 Hm1).
    + f_equal. unfold w1, m1. simpl.
      rewrite list_insert_insert_eq, delete_insert_eq, (delete_id _ _ Hk).
      replace (set_threads (threads m) (set_threads (<[tid t:=p]> (threads m)) m))
        with m by (by destruct m).
      rewrite list_insert_id by done. by destruct w.
    + by rewrite Hload.
    + simpl. by rewrite lookup_insert_eq.
Qed.

Lemma insert_thread_round_trip_witness :
  let w := sample.two_cpus in
  ∃ w1, ThreadManager_insert_thread 1 (Heap 0) w = Ret tt w1
        ∧ get_thread 1 1 w1 = Ret (Some (Heap 0)) w1
        ∧ ThreadManager_erase_thread_safely 1 (Some (Heap 0)) w1 = Ret tt w.
Proof.
  intros w.
  destruct (insert_thread_round_trip 1 (Heap 0) w
              (mkManager ∅ [] sample.main_1) sample.thread_A
              eq_refl eq_refl eq_refl eq_refl)
    as (w1 & Hrun & Hfound & _ & _ & Hback).
  exists w1. split_and!; [exact Hrun | exact Hfound | exact Hback].
Defined.

(** ** The suspended queue and the hand-over *)

Lemma erase_suspension_run this t w m :
  thread_managers w !! this = Some m →
  ThreadManager_erase_suspension this t w
  = Ret tt (set_thread_managers
              (<[this := set_suspended (filter (λ x, x ≠ t) (suspended m)) m]>
                 (thread_managers w)) w).
Proof.
  intros Hm. unfold ThreadManager_erase_suspension.
  by rewrite (update_manager_run _ _ _ _ Hm).
Qed.

Lemma filter_ne_absent (t : tptr) (q : list tptr) :
  t ∉ q → filter (λ x, x ≠ t) q = q.
Proof.
  induction q as [|x q IH]; [done|].
  intros [Hx Hq]%not_elem_of_cons.
  rewrite filter_cons_True by done. by rewrite IH.
Qed.

Lemma set_managers_id w i m :
  thread_managers w !! i = Some m →
  set_thread_managers (<[i := m]> (thread_managers w)) w = w.
Proof. intros Hm. rewrite list_insert_id by done. by destruct w. Qed.

(** X6. [erase_suspension(t)] returns, and leaves the queue without any entry
    of [t]: the other entries stay, in their order and as often as they were
    there.  It writes no thread and no registry, and no other queue.  When
    [t] is not queued nothing changes at all, so a second call in a row
    changes nothing. *)
Theorem erase_suspension_removes_every_entry
    (cpu : nat) (t : tptr) (w : World) (q : list tptr) :
  queue cpu w = Some q →
  ∃ w' q', ThreadManager_erase_suspension cpu t w = Ret tt w'
        ∧ queue cpu w' = Some q'
        ∧ (t ∉ q')
        ∧ (q' `sublist_of` q)
        ∧ (∀ x, x ≠ t → filter (λ y, y = x) q' = filter (λ y, y = x) q)
        ∧ (∀ p, load w' p = load w p)
        ∧ (∀ i, registry i w' = registry i w)
        ∧ (∀ i, i ≠ cpu → queue i w' = queue i w)
        ∧ (t ∉ q → w' = w)
        ∧ ThreadManager_erase_suspension cpu t w' = Ret tt w'.
Proof.
  intros Hq. destruct (queue_Some _ _ _ Hq) as (m & Hm & <-).
  assert (Hlen : cpu < length (thread_managers w)) by (by eapply lookup_lt_Some).
  pose (m' := set_suspended (filter (λ x, x ≠ t) (suspended m)) m).
  pose (w' := set_thread_managers (<[cpu := m']> (thread_managers w)) w).
  assert (Hm' : thread_managers w' !! cpu = Some m').
  { unfold w'. simpl. by rewrite list_lookup_insert_eq. }
  exists w', (filter (λ x, x ≠ t) (suspended m)). split_and!.
  - by apply erase_suspension_run.
  - unfold queue. by rewrite Hm'.
  - intros [Hne _]%list_elem_of_filter. done.
  - apply sublist_filter.
  - intros x Hx. rewrite list_filter_filter. apply list_filter_iff.
    intros y. split; [by intros [? ?]|]. intros ->. done.
  - intros p. unfold w'. by erewrite load_set_managers.
  - intros i. unfold registry, w'. simpl.
    destruct (decide (i = cpu)) as [->|Hi].
    + rewrite list_lookup_insert_eq by done. by rewrite Hm.
    + by rewrite list_lookup_insert_ne.
  - intros i Hi. unfold queue, w'. simpl. by rewrite list_lookup_insert_ne.
  - intros Habs. unfold w', m'. rewrite filter_ne_absent by done.
    replace (set_suspended (suspended m) m) with m by (by destruct m).
    by apply set_managers_id.
  - rewrite (erase_suspension_run _ _ _ _ Hm'). f_equal.
    unfold m' at 1. simpl.
    rewrite filter_ne_absent
      by (by intros [Hne _]%list_elem_of_filter).
    replace (set_suspended (filter (λ x, x ≠ t) (suspended m)) m') with m'
      by done.
    by apply set_managers_id.
Qed.

Lemma erase_suspension_removes_every_entry_witness :
  ∃ w' q', ThreadManager_erase_suspension 0 (Heap 0)
               (sample.one_thread [Heap 0; MainOf 0; Heap 0] []) = Ret tt w'
        ∧ queue 0 w' = Some q'
        ∧ Heap 0 ∉ q'.
Proof.
  destruct (erase_suspension_removes_every_entry 0 (Heap 0)
              (sample.one_thread [Heap 0; MainOf 0; Heap 0] [])
              [Heap 0; MainOf 0; Heap 0] eq_refl)
    as (w' & q' & H1 & H2 & H3 & _).
  by exists w', q'.
Defined.

Lemma Thread_resume_run cpu p w t :
  load w p = Some t →
  Thread_resume cpu p w = Jump (transfer_of t) (resumed_world cpu p t w).
Proof.
  intros Ht. unfold Thread_resume, transfer_of, resumed_world.
  rewrite (bind_Ret _ _ _ _ _ (deref_run _ _ _ Ht)).
  destruct (yielded t); simpl.
  - rewrite (bind_Ret _ _ _ _ _ (update_run _ _ _ _ Ht)). by destruct p.
  - reflexivity.
Qed.

Lemma resumed_world_load_eq cpu p t w :
  load w p = Some t →
  load (resumed_world cpu p t w) p = Some (set_yielded false t).
Proof.
  intros Ht. unfold resumed_world. rewrite load_set_fs_base.
  destruct (yielded t) eqn:Hy.
  - by rewrite load_store_eq.
  - rewrite Ht. f_equal. destruct t. simpl in Hy. by subst.
Qed.

Lemma resumed_world_load_ne cpu p t w q :
  q ≠ p → load (resumed_world cpu p t w) q = load w q.
Proof.
  intros Hne. unfold resumed_world. rewrite load_set_fs_base.
  destruct (yielded t); [|done]. by rewrite load_store_ne.
Qed.

Lemma resumed_world_queue cpu p t w i :
  queue i (resumed_world cpu p t w) = queue i w.
Proof.
  unfold resumed_world. destruct (yielded t); [|done].
  apply (queue_store p (set_yielded false t) w i).
Qed.

Lemma resumed_world_registry cpu p t w i :
  registry i (resumed_world cpu p t w) = registry i w.
Proof.
  unfold resumed_world. destruct (yielded t); [|done].
  apply (registry_store p (set_yielded false t) w i).
Qed.

(** X7. [resume] of a live thread never returns: it ends in the control
    transfer into the continuation the thread has stored, by
    [__thread_restore] when the thread had yielded and by [__clone_return]
    otherwise, with the thread area of the CPU set to the thread's.  The
    [yielded] flag is used up: a second [resume] of the same thread goes by
    [__clone_return].  No other field, no other thread, no registry and no
    queue changes; a thread that is resumed while it is queued stays
    queued.  [resume(tid)] does the same for the thread that the registry of
    the calling CPU has under [tid]. *)
Theorem resume_enters_stored_continuation
    (cpu : nat) (p : tptr) (w : World) (t : Thread) :
  load w p = Some t →
  ∃ w', Thread_resume cpu p w
        = Jump (if yielded t
                then thread_restore (stored_nexti t) (stored_stack t)
                else clone_return (stored_nexti t) (stored_stack t)) w'
        ∧ load w' p = Some (set_yielded false t)
        ∧ fs_base w' !! cpu = Some (my_tls t)
        ∧ (∀ c, c ≠ cpu → fs_base w' !! c = fs_base w !! c)
        ∧ (∀ q, q ≠ p → load w' q = load w q)
        ∧ (∀ i, registry i w' = registry i w)
        ∧ (∀ i, queue i w' = queue i w)
        ∧ Thread_resume cpu p w'
          = Jump (clone_return (stored_nexti t) (stored_stack t)) w'
        ∧ (∀ r id, registry cpu w = Some r → r !! id = Some p →
             resume cpu id w = Thread_resume cpu p w).
Proof.
  intros Ht. exists (resumed_world cpu p t w). split_and!.
  - by apply Thread_resume_run.
  - by apply resumed_world_load_eq.
  - unfold resumed_world. simpl. apply lookup_insert_eq.
  - intros c Hc. unfold resumed_world. simpl.
    rewrite lookup_insert_ne by done. by destruct (yielded t), p.
  - intros q Hq. by apply resumed_world_load_ne.
  - intros i. apply resumed_world_registry.
  - intros i. apply resumed_world_queue.
  - rewrite (Thread_resume_run _ _ _ _ (resumed_world_load_eq cpu p t w Ht)).
    f_equal. unfold resumed_world at 1. simpl.
    by rewrite insert_insert_eq.
  - intros r id (m & Hm & <-)%registry_Some Hid. unfold resume.
    rewrite (bind_Ret _ _ _ _ _ (get_thread_run _ _ _ _ Hm)), Hid.
    by rewrite bind_eq.
Qed.

Lemma resume_enters_stored_continuation_witness :
  ∃ w', Thread_resume 0 (MainOf 0) (sample.one_thread [] [])
        = Jump (thread_restore 5 7) w'
        ∧ load w' (MainOf 0) = Some (set_yielded false sample.main_0)
        ∧ Thread_resume 0 (MainOf 0) w' = Jump (clone_return 5 7) w'.
Proof.
  destruct (resume_enters_stored_continuation 0 (MainOf 0)
              (sample.one_thread [] []) sample.main_0 eq_refl)
    as (w' & H1 & H2 & _ & _ & _ & _ & _ & H3 & _).
  by exists w'.
Defined.

(** One successful [suspend], in full. *)
Lemma suspend_spec cpu this t w q ret_instr ret_stack :
  load w this = Some t → queue cpu w = Some q → allocs w = [] →
  ∃ w', Thread_suspend cpu this ret_instr ret_stack w = Ret tt w'
        ∧ queue cpu w' = Some (q ++ [this])
        ∧ load w' this = Some (set_stored ret_instr ret_stack t)
        ∧ (∀ p, p ≠ this → load w' p = load w p)
        ∧ (∀ i, registry i w' = registry i w)
        ∧ (∀ i, i ≠ cpu → queue i w' = queue i w)
        ∧ fs_base w' = fs_base w
        ∧ tls_kthread w' = tls_kthread w.
Proof.
  intros Ht Hq Ha.
  pose (w1 := stored_world this t w ret_instr ret_stack).
  assert (Hq1 : queue cpu w1 = Some q) by (by unfold w1; rewrite stored_world_queue).
  destruct (queue_Some _ _ _ Hq1) as (m & Hm & Hsm).
  assert (Ha1 : allocs w1 = []) by (by unfold w1; rewrite stored_world_allocs).
  assert (Hlen : cpu < length (thread_managers w1)) by (by eapply lookup_lt_Some).
  eexists. split_and!.
  - unfold Thread_suspend.
    rewrite (bind_Ret _ _ _ _ _ (store_return_run _ _ _ ret_instr ret_stack Ht)).
    by apply manager_suspend_run.
  - unfold queue. simpl. rewrite list_lookup_insert_eq by done.
    simpl. by rewrite Hsm.
  - erewrite load_set_managers; [|done|done].
    by apply stored_world_load_eq.
  - intros p Hp. erewrite load_set_managers; [|done|done].
    by apply stored_world_load_ne.
  - intros i. rewrite <- (stored_world_registry this t w ret_instr ret_stack i).
    unfold registry. simpl. fold w1.
    destruct (decide (i = cpu)) as [->|Hi].
    + rewrite list_lookup_insert_eq by done. by rewrite Hm.
    + by rewrite list_lookup_insert_ne.
  - intros i Hi. rewrite <- (stored_world_queue this t w ret_instr ret_stack i).
    unfold queue. simpl. fold w1. by rewrite list_lookup_insert_ne.
  - simpl. unfold w1, stored_world. by destruct this.
  - simpl. unfold w1, stored_world. by destruct this.
Qed.

Lemma wakeup_next_spec cpu w x rest :
  queue cpu w = Some (x :: rest) →
  ∃ w', ThreadManager_wakeup_next cpu w = Ret x w'
        ∧ queue cpu w' = Some rest
        ∧ (∀ p, load w' p = load w p)
        ∧ (∀ i, registry i w' = registry i w)
        ∧ (∀ i, i ≠ cpu → queue i w' = queue i w)
        ∧ fs_base w' = fs_base w
        ∧ tls_kthread w' = tls_kthread w.
Proof.
  intros Hq. destruct (queue_Some _ _ _ Hq) as (m & Hm & Hsm).
  assert (Hlen : cpu < length (thread_managers w)) by (by eapply lookup_lt_Some).
  eexists. split_and!.
  - by apply (wakeup_next_front cpu w m Hm x rest).
  - unfold queue. simpl. by rewrite list_lookup_insert_eq.
  - intros p. by erewrite load_set_managers.
  - intros i. unfold registry. simpl.
    destruct (decide (i = cpu)) as [->|Hi].
    + rewrite list_lookup_insert_eq by done. by rewrite Hm.
    + by rewrite list_lookup_insert_ne.
  - intros i Hi. unfold queue. simpl. by rewrite list_lookup_insert_ne.
  - done.
  - done.
Qed.

(** X8. [__thread_suspend_and_yield] with an empty suspended queue returns at
    once and changes nothing; it does not even look for the current thread.
    With [x] at the front of the queue it never returns: the current thread
    [p] stores the continuation [(next_instr, stack)], goes to the back of
    the queue and is marked as yielded, [x] leaves the front and is entered
    through its stored continuation, and the thread area of the CPU becomes
    that of [x].  When the front entry is the current thread itself, the
    thread is entered again by [__thread_restore] at the continuation it has
    just stored, and is still queued. *)
Theorem suspend_and_yield_hands_over
    (cpu : nat) (next_instr stack : Z) (w : World)
    (p x : tptr) (t tx : Thread) (rest : list tptr) :
  (queue cpu w = Some [] →
     __thread_suspend_and_yield cpu next_instr stack w = Ret tt w)
  ∧ (queue cpu w = Some (x :: rest) →
     current_thread cpu w = Some p →
     load w p = Some t →
     load w x = Some tx →
     allocs w = [] →
     ∃ w', __thread_suspend_and_yield cpu next_instr stack w
           = Jump (if decide (x = p) then thread_restore next_instr stack
                   else transfer_of tx) w'
           ∧ queue cpu w' = Some (rest ++ [p])
           ∧ load w' p
             = Some (set_yielded (bool_decide (x ≠ p))
                       (set_stored next_instr stack t))
           ∧ (x ≠ p → load w' x = Some (set_yielded false tx))
           ∧ fs_base w' !! cpu = Some (my_tls tx)
           ∧ (∀ q, q ≠ p → q ≠ x → load w' q = load w q)
           ∧ (∀ i, registry i w' = registry i w)
           ∧ (∀ i, i ≠ cpu → queue i w' = queue i w)).
Proof.
  split.
  - intros Hq. destruct (queue_Some _ _ _ Hq) as (m & Hm & Hsm).
    unfold __thread_suspend_and_yield.
    rewrite (bind_Ret _ _ _ _ _ (manager_run _ _ _ Hm)).
    by rewrite Hsm.
  - intros Hq Hcur Ht Htx Ha.
    destruct (queue_Some _ _ _ Hq) as (m & Hm & Hsm).
    destruct (suspend_spec cpu p t w (x :: rest) next_instr stack Ht Hq Ha)
      as (w1 & Hrun1 & Q1 & T1 & N1 & R1 & O1 & F1 & K1).
    destruct (wakeup_next_spec cpu w1 x (rest ++ [p]) Q1)
      as (w2 & Hrun2 & Q2 & L2 & R2 & O2 & F2 & K2).
    assert (T2 : load w2 p = Some (set_stored next_instr stack t))
      by (by rewrite L2).
    pose proof (update_run p (set_yielded true) w2 _ T2) as Hrun3.
    set (w3 := store p (set_yielded true (set_stored next_instr stack t)) w2)
      in Hrun3.
    destruct (update_inv _ _ _ _ _ Hrun3) as (? & _ & _ & N3 & S3 & _).
    assert (T3 : load w3 p
                 = Some (set_yielded true (set_stored next_instr stack t))).
    { unfold w3. by rewrite load_store_eq by eauto. }
    pose (tx3 := if decide (x = p)
                 then set_yielded true (set_stored next_instr stack t)
                 else tx).
    assert (Hx3 : load w3 x = Some tx3).
    { unfold tx3. destruct (decide (x = p)) as [->|Hxp]; [done|].
      by rewrite N3, L2, N1. }
    exists (resumed_world cpu x tx3 w3). split_and!.
    + unfold __thread_suspend_and_yield.
      rewrite (bind_Ret _ _ _ _ _ (manager_run _ _ _ Hm)).
      rewrite Hsm. simpl.
      assert (Hself : get_thread_self cpu w = Ret (Some p) w).
      { unfold get_thread_self, get_thread_area, gets. rewrite bind_eq.
        by rewrite <- Hcur. }
      rewrite (bind_Ret _ _ _ _ _ Hself). rewrite bind_eq. simpl.
      rewrite (bind_Ret _ _ _ _ _ Hrun1). unfold Thread_yield.
      rewrite (bind_Ret _ _ _ _ _ Hrun2).
      rewrite (bind_Ret _ _ _ _ _ Hrun3).
      rewrite (Thread_resume_run _ _ _ _ Hx3). f_equal.
      unfold tx3. by destruct (decide (x = p)).
    + by rewrite resumed_world_queue, (sr_queue _ _ S3), Q2.
    + destruct (decide (x = p)) as [->|Hxp].
      * rewrite (resumed_world_load_eq _ _ _ _ Hx3). unfold tx3.
        by rewrite bool_decide_eq_false_2 by (by intros ?).
      * rewrite resumed_world_load_ne by done.
        by rewrite T3, bool_decide_eq_true_2.
    + intros Hxp. rewrite (resumed_world_load_eq _ _ _ _ Hx3). unfold tx3.
      by rewrite decide_False.
    + unfold resumed_world. simpl. rewrite lookup_insert_eq. unfold tx3.
      destruct (decide (x = p)) as [->|Hxp]; [|done].
      rewrite Ht in Htx. by injection Htx as <-.
    + intros q Hqp Hqx. rewrite resumed_world_load_ne by done.
      by rewrite N3, L2, N1.
    + intros i. by rewrite resumed_world_registry, (sr_registry _ _ S3), R2, R1.
    + intros i Hi.
      by rewrite resumed_world_queue, (sr_queue _ _ S3), O2, O1.
Qed.

Lemma suspend_and_yield_hands_over_witness :
  __thread_suspend_and_yield 0 30 40 (sample.one_thread [] [])
  = Ret tt (sample.one_thread [] [])
  ∧ ∃ w', __thread_suspend_and_yield 0 30 40 (sample.one_thread [MainOf 0] [])
          = Jump (thread_restore 5 7) w'
          ∧ queue 0 w' = Some [Heap 0]
          ∧ fs_base w' !! 0 = Some 4096%Z.
Proof.
  split.
  - apply (suspend_and_yield_hands_over 0 30 40 (sample.one_thread [] [])
             (Heap 0) (MainOf 0) sample.thread_A sample.main_0 []).
    reflexivity.
  - destruct (suspend_and_yield_hands_over 0 30 40
                (sample.one_thread [MainOf 0] [])
                (Heap 0) (MainOf 0) sample.thread_A sample.main_0 [])
      as [_ Hover].
    destruct (Hover eq_refl eq_refl eq_refl eq_refl eq_refl)
      as (w' & Hrun & Hq & _ & _ & Hfs & _).
    exists w'. split_and!; [exact Hrun | exact Hq | exact Hfs].
Defined.

(** ** Creation, step by step *)

Lemma created_thread_fields th par id flags ctid stack :
  let t := created_thread th par id flags ctid stack in
  self t = Some th ∧ tid t = to_int id ∧ parent t = Some par
  ∧ my_stack t = stack ∧ children t = children fresh_thread
  ∧ (Z.land flags CLONE_CHILD_CLEARTID ≠ 0%Z → clear_tid t = ctid).
Proof.
  unfold created_thread.
  destruct (decide (Z.land flags CLONE_CHILD_CLEARTID ≠ 0%Z)) as [E|E];
    [rewrite bool_decide_eq_true_2 by done
    |rewrite bool_decide_eq_false_2 by done]; by split_and!.
Qed.

Lemma allocate_ok w :
  allocs w !! 0 ≠ Some false →
  allocate w = Ret tt (set_allocs (tail (allocs w)) w).
Proof. unfold allocate. by destruct w as [? ? ? ? ? ? [|[] ?]]. Qed.

Lemma update_spec p f w t :
  load w p = Some t →
  ∃ w', update p f w = Ret tt w'
        ∧ load w' p = Some (f t)
        ∧ (∀ q, q ≠ p → load w' q = load w q)
        ∧ same_rest w w'
        ∧ allocs w' = allocs w.
Proof.
  intros Ht. exists (store p (f t) w). split; [by apply update_run|].
  destruct (update_inv _ _ _ _ _ (update_run p f w t Ht))
    as (t' & Ht' & H1 & H2 & H3 & H4).
  rewrite Ht in Ht'. injection Ht' as <-. done.
Qed.

(** What is left of the [try] block of [thread_create] once the thread at
    [th] is linked to its parent and has its stack. *)
Definition thread_create_rest (cpu : nat) (th : tptr) (flags ctid : Z)
  : M (option tptr) :=
  let* _ := if bool_decide (Z.land flags CLONE_CHILD_SETTID ≠ 0%Z)
            then let* t := deref th in
                 store_user ctid 4 (to_int (tid t))
            else ret tt in
  let* _ := if bool_decide (Z.land flags CLONE_CHILD_CLEARTID ≠ 0%Z)
            then update th (set_clear_tid ctid)
            else ret tt in
  let* _ := ThreadManager_insert_thread cpu th in
  ret (Some th).

(** [thread_create] up to the two flags, when the thread object and the
    entry in the parent's [children] can be allocated. *)
Lemma thread_create_linked cpu par pt flags ctid stack w :
  load w par = Some pt →
  allocs w !! 0 ≠ Some false →
  allocs w !! 1 ≠ Some false →
  ∃ th w7,
    thread_create cpu (Some par) flags ctid stack w
    = try_catch (thread_create_rest cpu th flags ctid) (ret None) w7
    ∧ load w th = None
    ∧ load w7 th
      = Some (set_my_stack stack
                (set_parent (Some par)
                   (set_tid (to_int (thread_counter w))
                      (set_self (Some th) fresh_thread))))
    ∧ load w7 par = Some (set_children (children pt ++ [th]) pt)
    ∧ (∀ q, q ≠ th → q ≠ par → load w7 q = load w q)
    ∧ same_rest (set_thread_counter (wrap_long (thread_counter w + 1)) w) w7
    ∧ allocs w7 = drop 2 (allocs w)
    ∧ (∃ a, th = Heap a).
Proof.
  intros Hpar Ha0 Ha1. unfold thread_create.
  rewrite bind_eq. simpl.
  set (c := thread_counter w).
  set (w0 := set_thread_counter _ w).
  assert (L0 : ∀ q, load w0 q = load w q) by (by intros []).
  pose (a := fresh (dom (heap w))).
  pose (w1 := set_heap (<[a := fresh_thread]> (heap w))
                (set_allocs (tail (allocs w)) w0)).
  assert (Hrun1 : new_Thread w0 = Ret (Heap a) w1).
  { unfold new_Thread. by rewrite (bind_Ret _ _ _ _ _ (allocate_ok w0 Ha0)). }
  destruct (new_Thread_inv _ _ _ Hrun1) as (Hnew & T1 & N1 & S1).
  assert (A1 : allocs w1 = tail (allocs w)) by done.
  assert (Hne : par ≠ Heap a).
  { intros ->. rewrite L0 in Hnew. congruence. }
  destruct (update_spec (Heap a) (set_self (Some (Heap a))) w1 _ T1)
    as (w2 & H2 & T2 & N2 & S2 & A2).
  destruct (update_spec (Heap a) (set_tid (to_int (to_int c))) w2 _ T2)
    as (w3 & H3 & T3 & N3 & S3 & A3).
  rewrite to_int_idemp in T3.
  destruct (update_spec (Heap a) (set_parent (Some par)) w3 _ T3)
    as (w4 & H4 & T4 & N4 & S4 & A4).
  assert (A4' : allocs w4 !! 0 ≠ Some false).
  { by rewrite A4, A3, A2, A1, lookup_tail. }
  pose (w5 := set_allocs (tail (allocs w4)) w4).
  assert (P5 : load w5 par = Some pt).
  { unfold w5. by rewrite load_set_allocs, N4, N3, N2, N1, L0. }
  destruct (update_spec par (λ pt, set_children (children pt ++ [Heap a]) pt)
              w5 _ P5) as (w6 & H6 & P6 & N6 & S6 & A6).
  assert (T6 : load w6 (Heap a)
               = Some (set_parent (Some par)
                         (set_tid (to_int c)
                            (set_self (Some (Heap a)) fresh_thread)))).
  { rewrite N6 by done. unfold w5. by rewrite load_set_allocs. }
  destruct (update_spec (Heap a) (set_my_stack stack) w6 _ T6)
    as (w7 & H7 & T7 & N7 & S7 & A7).
  exists (Heap a), w7. split_and!.
  - unfold try_catch at 1.
    rewrite (bind_Ret _ _ _ _ _ Hrun1). unfold Thread_init.
    rewrite 2!bind_eq, H2. rewrite H3.
    rewrite (bind_Ret _ _ _ _ _ H4).
    rewrite (bind_Ret _ _ _ _ _ (deref_run _ _ _ T4)). simpl.
    rewrite bind_eq. simpl.
    rewrite (bind_Ret _ _ _ _ _ (allocate_ok _ A4')). fold w5.
    rewrite (bind_Ret _ _ _ _ _ H6).
    by rewrite (bind_Ret _ _ _ _ _ H7).
  - by rewrite <- L0.
  - done.
  - by rewrite N7, P6.
  - intros q Hq Hqp. rewrite N7, N6 by done.
    unfold w5. rewrite load_set_allocs, N4, N3, N2, N1, L0 by done. done.
  - assert (S5 : same_rest w4 w5) by apply same_rest_set_allocs.
    repeat (eapply same_rest_trans; [|eassumption]).
    apply same_rest_refl.
  - rewrite A7, A6. unfold w5. simpl. rewrite A4, A3, A2, A1.
    by destruct (allocs w) as [|? [|? ?]].
  - by eauto.
Qed.

(** With [CLONE_CHILD_SETTID] and a null [ctid], the id would be stored
    through a null pointer. *)
Lemma thread_create_rest_null cpu th flags w t :
  load w th = Some t →
  Z.land flags CLONE_CHILD_SETTID ≠ 0%Z →
  try_catch (thread_create_rest cpu th flags 0) (ret None) w = Trap fault.
Proof.
  intros Ht Hflag. unfold try_catch, thread_create_rest.
  rewrite bool_decide_eq_true_2 by done.
  by rewrite 2!bind_eq, (deref_run _ _ _ Ht).
Qed.

(** [thread_create] up to the call of [insert_thread], when the thread object
    and the entry in the parent's [children] can be allocated. *)
Lemma thread_create_built cpu par pt flags ctid stack w :
  load w par = Some pt →
  allocs w !! 0 ≠ Some false →
  allocs w !! 1 ≠ Some false →
  (Z.land flags CLONE_CHILD_SETTID ≠ 0%Z → ctid ≠ 0%Z) →
  ∃ th w9,
    thread_create cpu (Some par) flags ctid stack w
    = try_catch (let* _ := ThreadManager_insert_thread cpu th in
                 ret (Some th)) (ret None) w9
    ∧ load w th = None
    ∧ load w9 th
      = Some (created_thread th par (thread_counter w) flags ctid stack)
    ∧ load w9 par = Some (set_children (children pt ++ [th]) pt)
    ∧ (∀ q, q ≠ th → q ≠ par → load w9 q = load w q)
    ∧ (∀ i, registry i w9 = registry i w)
    ∧ (∀ i, queue i w9 = queue i w)
    ∧ fs_base w9 = fs_base w
    ∧ tls_kthread w9 = tls_kthread w
    ∧ umem w9 = (if bool_decide (Z.land flags CLONE_CHILD_SETTID ≠ 0%Z)
                 then store_bytes ctid
                        (le_bytes 4 (to_int (thread_counter w))) (umem w)
                 else umem w)
    ∧ thread_counter w9 = wrap_long (thread_counter w + 1)
    ∧ allocs w9 = drop 2 (allocs w)
    ∧ (∃ a, th = Heap a).
Proof.
  intros Hpar Ha0 Ha1 Hctid.
  destruct (thread_create_linked cpu par pt flags ctid stack w Hpar Ha0 Ha1)
    as (th & w7 & Hrun & Hnew & T7 & P7 & N7 & S7 & A7 & Hheap).
  set (c := thread_counter w) in *.
  set (t7 := set_my_stack stack _) in T7.
  assert (∃ w8, (if bool_decide (Z.land flags CLONE_CHILD_SETTID ≠ 0%Z)
                 then let* t := deref th in
                      store_user ctid 4 (to_int (tid t))
                 else ret tt) w7 = Ret tt w8
                ∧ (∀ q, load w8 q = load w7 q)
                ∧ (∀ i, registry i w8 = registry i w7)
                ∧ (∀ i, queue i w8 = queue i w7)
                ∧ fs_base w8 = fs_base w7
                ∧ tls_kthread w8 = tls_kthread w7
                ∧ umem w8
                  = (if bool_decide (Z.land flags CLONE_CHILD_SETTID ≠ 0%Z)
                     then store_bytes ctid (le_bytes 4 (to_int c)) (umem w7)
                     else umem w7)
                ∧ thread_counter w8 = thread_counter w7
                ∧ allocs w8 = allocs w7)
    as (w8 & H8 & L8 & R8 & Q8 & F8 & K8 & U8 & C8 & A8).
  { destruct (decide (Z.land flags CLONE_CHILD_SETTID ≠ 0%Z)) as [Hflag|Hflag];
      [rewrite !bool_decide_eq_true_2 by done
      |rewrite !bool_decide_eq_false_2 by done].
    - rewrite (bind_Ret _ _ _ _ _ (deref_run _ _ _ T7)).
      rewrite store_user_run by auto.
      eexists. split; [done|].
      split_and!; try done.
      rewrite umem_set_umem. unfold t7. simpl. by rewrite to_int_idemp.
    - by exists w7. }
  assert (∃ w9, (if bool_decide (Z.land flags CLONE_CHILD_CLEARTID ≠ 0%Z)
                 then update th (set_clear_tid ctid)
                 else ret tt) w8 = Ret tt w9
                ∧ load w9 th
                  = Some (created_thread th par c flags ctid stack)
                ∧ (∀ q, q ≠ th → load w9 q = load w8 q)
                ∧ same_rest w8 w9
                ∧ allocs w9 = allocs w8)
    as (w9 & H9 & T9 & N9 & S9 & A9).
  { unfold created_thread.
    destruct (bool_decide (Z.land flags CLONE_CHILD_CLEARTID ≠ 0%Z)).
    - destruct (update_spec th (set_clear_tid ctid) w8 t7)
        as (w9 & H9 & T9 & N9 & S9 & A9); [by rewrite L8|].
      by exists w9.
    - exists w8. split_and!; try done; try apply same_rest_refl.
      by rewrite L8. }
  exists th, w9. split_and!.
  - rewrite Hrun. unfold try_catch, thread_create_rest.
    rewrite (bind_Ret _ _ _ _ _ H8).
    by rewrite (bind_Ret _ _ _ _ _ H9).
  - done.
  - done.
  - destruct Hheap as [a ->].
    rewrite N9, L8, P7; [done|]. intros ->. by rewrite Hnew in Hpar.
  - intros q Hq Hqp. rewrite N9, L8 by done. by apply N7.
  - intros i. by rewrite (sr_registry _ _ S9), R8, (sr_registry _ _ S7).
  - intros i. by rewrite (sr_queue _ _ S9), Q8, (sr_queue _ _ S7).
  - by rewrite (sr_fs_base _ _ S9), F8, (sr_fs_base _ _ S7).
  - by rewrite (sr_tls _ _ S9), K8, (sr_tls _ _ S7).
  - by rewrite (sr_umem _ _ S9), U8, (sr_umem _ _ S7).
  - by rewrite (sr_counter _ _ S9), C8, (sr_counter _ _ S7).
  - by rewrite A9, A8.
  - done.
Qed.

(** X9. A creation whose thread object and whose entry in the parent's
    [children] are allocated, and whose registry node is not, [ctid] being
    a non-null address where [CLONE_CHILD_SETTID] asks for a store through
    it: [thread_create] returns the null pointer, and nothing is undone.
    The thread object stays allocated, carrying the new id and its parent,
    and stays in the parent's [children]; it is in no registry it was not
    in, and the id is used up. *)
Theorem thread_create_emplace_failure
    (cpu : nat) (par : tptr) (pt : Thread) (flags ctid stack : Z)
    (w : World) (rest : list bool) :
  load w par = Some pt →
  allocs w = true :: true :: false :: rest →
  (Z.land flags CLONE_CHILD_SETTID ≠ 0%Z → ctid ≠ 0%Z) →
  ∃ th t w',
    thread_create cpu (Some par) flags ctid stack w = Ret None w'
    ∧ load w th = None
    ∧ load w' th = Some t
    ∧ tid t = to_int (thread_counter w)
    ∧ parent t = Some par
    ∧ load w' par = Some (set_children (children pt ++ [th]) pt)
    ∧ (∀ q, q ≠ th → q ≠ par → load w' q = load w q)
    ∧ (∀ i, registry i w' = registry i w)
    ∧ thread_counter w' = wrap_long (thread_counter w + 1)
    ∧ allocs w' = rest.
Proof.
  intros Hpar Ha Hctid.
  destruct (thread_create_built cpu par pt flags ctid stack w Hpar)
    as (th & w9 & Hrun & Hnew & T9 & P9 & N9 & R9 & _ & _ & _ & _ & C9 & A9
        & _);
    [by rewrite Ha|by rewrite Ha|done|].
  rewrite Ha in A9. simpl in A9.
  exists th, (created_thread th par (thread_counter w) flags ctid stack),
    (set_allocs rest w9).
  split_and!.
  - rewrite Hrun. unfold try_catch.
    rewrite bind_eq, (insert_thread_eq cpu w9 th _ T9).
    by rewrite (bind_Throw _ _ _ _ _ (allocate_fail _ _ A9)).
  - done.
  - by rewrite load_set_allocs.
  - apply created_thread_fields.
  - apply created_thread_fields.
  - by rewrite load_set_allocs.
  - intros q Hq Hqp. rewrite load_set_allocs. by apply N9.
  - intros i. by rewrite <- R9.
  - done.
  - done.
Qed.

Lemma thread_create_emplace_failure_witness :
  ∃ th t w',
    thread_create 0 (Some (MainOf 0)) CLONE_CHILD_SETTID 500 100
      (sample.boot [true; true; false])
    = Ret None w'
    ∧ load w' th = Some t
    ∧ tid t = 1%Z
    ∧ children <$> load w' (MainOf 0) = Some [th]
    ∧ registry 0 w' = Some ∅.
Proof.
  destruct (thread_create_emplace_failure 0 (MainOf 0)
              (mkThread 0 (Some (MainOf 0)) None 4096 0 0 0 false 0 [])
              CLONE_CHILD_SETTID 500 100 (sample.boot [true; true; false]) []
              eq_refl eq_refl ltac:(discriminate))
    as (th & t & w' & Hrun & _ & Ht & Htid & _ & Hch & _ & Hr & _).
  exists th, t, w'. split_and!; [exact Hrun | exact Ht | exact Htid | |].
  - rewrite Hch. reflexivity.
  - rewrite Hr. reflexivity.
Defined.

Lemma insert_thread_ok this w m thread t :
  thread_managers w !! this = Some m →
  load w thread = Some t →
  allocs w !! 0 ≠ Some false →
  ThreadManager_insert_thread this thread w
  = Ret tt (set_thread_managers
              (<[this := match threads m !! tid t with
                         | Some _ => m
                         | None => set_threads (<[tid t := thread]> (threads m)) m
                         end]> (thread_managers w))
              (set_allocs (tail (allocs w)) w)).
Proof.
  intros Hm Ht Ha. rewrite (insert_thread_eq this w thread t Ht).
  rewrite (bind_Ret _ _ _ _ _ (allocate_ok _ Ha)).
  by rewrite (update_manager_run _ _ _ m).
Qed.

(** [thread_create] as a whole, when its three allocations succeed. *)
Lemma thread_create_run cpu par pt flags ctid stack w r :
  load w par = Some pt →
  registry cpu w = Some r →
  allocs w !! 0 ≠ Some false →
  allocs w !! 1 ≠ Some false →
  allocs w !! 2 ≠ Some false →
  (Z.land flags CLONE_CHILD_SETTID ≠ 0%Z → ctid ≠ 0%Z) →
  ∃ th w',
    thread_create cpu (Some par) flags ctid stack w = Ret (Some th) w'
    ∧ load w th = None
    ∧ load w' th
      = Some (created_thread th par (thread_counter w) flags ctid stack)
    ∧ load w' par = Some (set_children (children pt ++ [th]) pt)
    ∧ (∀ q, q ≠ th → q ≠ par → load w' q = load w q)
    ∧ registry cpu w'
      = Some (match r !! to_int (thread_counter w) with
              | Some _ => r
              | None => <[to_int (thread_counter w) := th]> r
              end)
    ∧ (∀ i, i ≠ cpu → registry i w' = registry i w)
    ∧ (∀ i, queue i w' = queue i w)
    ∧ fs_base w' = fs_base w
    ∧ tls_kthread w' = tls_kthread w
    ∧ umem w' = (if bool_decide (Z.land flags CLONE_CHILD_SETTID ≠ 0%Z)
                 then store_bytes ctid
                        (le_bytes 4 (to_int (thread_counter w))) (umem w)
                 else umem w)
    ∧ thread_counter w' = wrap_long (thread_counter w + 1)
    ∧ allocs w' = drop 3 (allocs w)
    ∧ (∃ a, th = Heap a).
Proof.
  intros Hpar Hr Ha0 Ha1 Ha2 Hctid.
  destruct (thread_create_built cpu par pt flags ctid stack w Hpar Ha0 Ha1
              Hctid)
    as (th & w9 & Hrun & Hnew & T9 & P9 & N9 & R9 & Q9 & F9 & K9 & U9 & C9 & A9
        & Hheap).
  assert (Hr9 : registry cpu w9 = Some r) by (by rewrite R9).
  destruct (registry_Some _ _ _ Hr9) as (m & Hm & <-).
  assert (Hlen : cpu < length (thread_managers w9)) by (by eapply lookup_lt_Some).
  assert (Ha9 : allocs w9 !! 0 ≠ Some false).
  { rewrite A9, lookup_drop. by rewrite Nat.add_0_r. }
  assert (Htid : tid (created_thread th par (thread_counter w) flags ctid stack)
                 = to_int (thread_counter w)) by apply created_thread_fields.
  pose proof (insert_thread_ok cpu w9 m th _ Hm T9 Ha9) as Hins.
  rewrite Htid in Hins.
  eexists th, _. split_and!.
  - rewrite Hrun. unfold try_catch. by rewrite (bind_Ret _ _ _ _ _ Hins).
  - done.
  - erewrite (load_set_managers (set_allocs _ w9));
      [by rewrite load_set_allocs|done|].
    by destruct (threads m !! to_int (thread_counter w)).
  - erewrite (load_set_managers (set_allocs _ w9));
      [by rewrite load_set_allocs|done|].
    by destruct (threads m !! to_int (thread_counter w)).
  - intros q Hq Hqp.
    erewrite (load_set_managers (set_allocs _ w9));
      [rewrite load_set_allocs; by apply N9|done|].
    by destruct (threads m !! to_int (thread_counter w)).
  - unfold registry. simpl. rewrite list_lookup_insert_eq by done. simpl.
    by destruct (threads m !! to_int (thread_counter w)).
  - intros i Hi. rewrite <- R9. unfold registry. simpl.
    by rewrite list_lookup_insert_ne.
  - intros i. rewrite <- Q9. unfold queue. simpl.
    destruct (decide (i = cpu)) as [->|Hi].
    + rewrite list_lookup_insert_eq by done. rewrite Hm. simpl.
      by destruct (threads m !! to_int (thread_counter w)).
    + by rewrite list_lookup_insert_ne.
  - done.
  - done.
  - done.
  - done.
  - simpl. rewrite A9. by destruct (allocs w) as [|? [|? [|? ?]]].
  - done.
Qed.

(** With [CLONE_CHILD_SETTID] and a null [ctid], a creation that can allocate
    stores the id through a null pointer. *)
Lemma thread_create_null_ctid cpu par pt flags stack w :
  load w par = Some pt →
  allocs w !! 0 ≠ Some false →
  allocs w !! 1 ≠ Some false →
  Z.land flags CLONE_CHILD_SETTID ≠ 0%Z →
  thread_create cpu (Some par) flags 0 stack w = Trap fault.
Proof.
  intros Hpar Ha0 Ha1 Hflag.
  destruct (thread_create_linked cpu par pt flags 0 stack w Hpar Ha0 Ha1)
    as (th & w7 & Hrun & _ & T7 & _).
  rewrite Hrun. by eapply thread_create_rest_null.
Qed.

(** X10. Where [thread_create] can allocate: with [CLONE_CHILD_SETTID] and a
    null [ctid] the id is stored through a null pointer, and the call does
    not return.  Otherwise it returns a thread object that was not live
    before, with [self] pointing at itself, the id taken from the counter,
    the given parent, the given stack and, with [CLONE_CHILD_CLEARTID],
    [ctid] as the address to clear; with [CLONE_CHILD_SETTID] the four bytes
    at [ctid] hold the id, and user memory is as before without it.  The
    parent gets the thread at the back of its [children] and is otherwise as
    before; no other thread is written.  The registry of the calling CPU
    gets the thread under its id when the id is free there; when the id is
    taken the registry stays as it is and the thread is returned all the
    same.  No queue and no thread area changes: the creator goes on
    executing. *)
Theorem thread_create_builds_thread
    (cpu : nat) (par : tptr) (pt : Thread) (flags ctid stack : Z)
    (w : World) (r : gmap Z tptr) :
  load w par = Some pt →
  registry cpu w = Some r →
  allocs w = [] →
  (Z.land flags CLONE_CHILD_SETTID ≠ 0%Z → ctid = 0%Z →
   thread_create cpu (Some par) flags ctid stack w = Trap fault)
  ∧ ((Z.land flags CLONE_CHILD_SETTID ≠ 0%Z → ctid ≠ 0%Z) →
     ∃ th t w',
       thread_create cpu (Some par) flags ctid stack w = Ret (Some th) w'
       ∧ load w th = None
       ∧ load w' th = Some t
       ∧ self t = Some th
       ∧ tid t = to_int (thread_counter w)
       ∧ parent t = Some par
       ∧ my_stack t = stack
       ∧ (Z.land flags CLONE_CHILD_CLEARTID ≠ 0%Z → clear_tid t = ctid)
       ∧ (Z.land flags CLONE_CHILD_SETTID ≠ 0%Z →
          load_int ctid (umem w') = Some (tid t))
       ∧ (Z.land flags CLONE_CHILD_SETTID = 0%Z → umem w' = umem w)
       ∧ load w' par = Some (set_children (children pt ++ [th]) pt)
       ∧ (∀ q, q ≠ th → q ≠ par → load w' q = load w q)
       ∧ (r !! tid t = None → registry cpu w' = Some (<[tid t := th]> r))
       ∧ (is_Some (r !! tid t) → registry cpu w' = Some r)
       ∧ (∀ i, i ≠ cpu → registry i w' = registry i w)
       ∧ (∀ i, queue i w' = queue i w)
       ∧ current_thread cpu w' = current_thread cpu w).
Proof.
  intros Hpar Hr Ha. split.
  { intros Hflag ->.
    apply (thread_create_null_ctid cpu par pt); try done; by rewrite Ha. }
  intros Hctid.
  destruct (thread_create_run cpu par pt flags ctid stack w r Hpar Hr)
    as (th & w' & Hrun & Hnew & T & P & N & R & O & Q & F & K & U & _);
    [by rewrite Ha|by rewrite Ha|by rewrite Ha|done|].
  exists th, (created_thread th par (thread_counter w) flags ctid stack), w'.
  assert (Htid : tid (created_thread th par (thread_counter w) flags ctid stack)
                 = to_int (thread_counter w)) by apply created_thread_fields.
  rewrite Htid. split_and!; try done; try apply created_thread_fields.
  - intros Hflag. rewrite U, bool_decide_eq_true_2 by done.
    rewrite load_int_store. by rewrite to_int_idemp.
  - intros Hflag. rewrite U, bool_decide_eq_false_2; [done|]. by intros ?.
  - intros Hk. by rewrite R, Hk.
  - intros [old Hk]. by rewrite R, Hk.
  - unfold current_thread. by rewrite F, K.
Qed.

Lemma thread_create_builds_thread_witness :
  thread_create 0 (Some (Heap 0)) CLONE_CHILD_SETTID 0 200
    (sample.one_thread [] []) = Trap fault
  ∧ ∃ th t w',
      thread_create 0 (Some (Heap 0))
        (Z.lor CLONE_CHILD_SETTID CLONE_CHILD_CLEARTID) 500 200
        (sample.one_thread [] []) = Ret (Some th) w'
      ∧ load w' th = Some t
      ∧ tid t = 2%Z ∧ my_stack t = 200%Z ∧ clear_tid t = 500%Z
      ∧ load_int 500 (umem w') = Some 2%Z
      ∧ registry 0 w' = Some (<[2%Z := th]> {[1%Z := Heap 0]}).
Proof.
  split.
  - apply (thread_create_builds_thread 0 (Heap 0) sample.thread_A
             CLONE_CHILD_SETTID 0 200 (sample.one_thread [] [])
             {[1%Z := Heap 0]} eq_refl eq_refl eq_refl);
      [discriminate | reflexivity].
  - destruct (thread_create_builds_thread 0 (Heap 0) sample.thread_A
                (Z.lor CLONE_CHILD_SETTID CLONE_CHILD_CLEARTID) 500 200
                (sample.one_thread [] [])
                {[1%Z := Heap 0]} eq_refl eq_refl eq_refl)
      as [_ H].
    destruct (H ltac:(discriminate))
      as (th & t & w' & Hrun & _ & Ht & _ & Htid & _ & Hst & Hcl & Hset & _ & _
          & _ & Hr & _).
    exists th, t, w'.
    split_and!; [exact Hrun | exact Ht | exact Htid | exact Hst | | | ].
    + apply Hcl. discriminate.
    + rewrite Htid in Hset. apply Hset. discriminate.
    + rewrite Htid in Hr. apply Hr. reflexivity.
Defined.

(** ** A null result means an allocation failure *)

Lemma calm_ret {A} (a : A) : calm (ret a).
Proof. by intros w H. Qed.

Lemma calm_bind {A B} (c : M A) (f : A → M B) :
  calm c → (∀ a, calm (f a)) → calm (bind c f).
Proof.
  intros Hc Hf w H. rewrite bind_eq. specialize (Hc w H).
  destruct (c w) as [a w1| | |]; try done. by apply Hf.
Qed.

(** A computation that returns or traps and leaves the allocator alone. *)
Lemma calm_quiet {A} (c : M A) :
  quiet c → (∀ w a w', c w = Ret a w' → allocs w' = allocs w) → calm c.
Proof.
  intros Hq Ha w H. specialize (Hq w). specialize (Ha w).
  destruct (c w) as [a w1| | |]; try done. by rewrite (Ha a w1).
Qed.

Lemma calm_deref p : calm (deref p).
Proof.
  apply calm_quiet; [apply quiet_deref|].
  by intros w a w' [_ ->]%deref_Ret_inv.
Qed.

Lemma calm_nonnull p : calm (nonnull p).
Proof.
  apply calm_quiet; [apply quiet_nonnull|].
  by intros w a w' [_ ->]%nonnull_Ret_inv.
Qed.

Lemma calm_update p f : calm (update p f).
Proof.
  apply calm_quiet; [apply quiet_update|].
  by intros w a w' (_ & _ & _ & _ & _ & ->)%update_inv.
Qed.

Lemma calm_update_manager i f : calm (update_manager i f).
Proof.
  apply calm_quiet; [apply quiet_update_manager|].
  by intros w a w' (m & _ & ->)%update_manager_Ret_inv.
Qed.

Lemma calm_store_user p n v : calm (store_user p n v).
Proof.
  apply calm_quiet; [apply quiet_store_user|].
  by intros w a w' [_ ->]%store_user_Ret_inv.
Qed.

Lemma calm_allocate : calm allocate.
Proof.
  intros w H. unfold allocate.
  destruct (allocs w) as [|[] rest] eqn:E; [by rewrite E|..].
  - simpl. by apply not_elem_of_cons in H as [_ H].
  - apply H, elem_of_cons. by left.
Qed.

Lemma calm_new_Thread : calm new_Thread.
Proof.
  apply calm_bind; [apply calm_allocate|]. by intros _ w H.
Qed.

Lemma calm_insert_thread this p : calm (ThreadManager_insert_thread this p).
Proof.
  unfold ThreadManager_insert_thread.
  apply calm_bind; [apply calm_deref|]. intros t.
  apply calm_bind; [apply calm_allocate|]. intros _.
  apply calm_update_manager.
Qed.

(** X11. [thread_create] returns the null pointer only when an allocation
    has failed.  Whatever the arguments and the state are: if none of the
    allocations to come fails, the call returns a thread or does not return
    at all; it never reports failure for another reason. *)
Theorem thread_create_null_means_allocation_failure
    (cpu : nat) (parent : option tptr) (flags ctid stack : Z) (w w' : World) :
  thread_create cpu parent flags ctid stack w = Ret None w' →
  false ∈ allocs w.
Proof.
  intros Hrun.
  destruct (decide (false ∈ allocs w)) as [|Hok]; [done|exfalso].
  revert Hrun. unfold thread_create. rewrite bind_eq. simpl.
  set (w0 := set_thread_counter _ w).
  assert (Hok0 : false ∉ allocs w0) by done. clearbody w0.
  unfold try_catch.
  match goal with |- context [match ?body w0 with _ => _ end] =>
    assert (Hcalm : calm body); [|specialize (Hcalm w0 Hok0);
                                  destruct (body w0) as [b w1| | |] eqn:Hbody]
  end.
  - apply calm_bind; [apply calm_new_Thread|]. intros th.
    apply calm_bind.
    { unfold Thread_init. apply calm_bind; [apply calm_update|].
      intros _. apply calm_update. }
    intros _. apply calm_bind; [apply calm_update|]. intros _.
    apply calm_bind; [apply calm_deref|]. intros t.
    apply calm_bind; [apply calm_nonnull|]. intros par.
    apply calm_bind; [apply calm_allocate|]. intros _.
    apply calm_bind; [apply calm_update|]. intros _.
    apply calm_bind; [apply calm_update|]. intros _.
    apply calm_bind.
    { destruct (bool_decide (Z.land flags CLONE_CHILD_SETTID ≠ 0%Z));
        [|apply calm_ret].
      apply calm_bind; [apply calm_deref|]. intros t'.
      apply calm_store_user. }
    intros _. apply calm_bind.
    { destruct (bool_decide (Z.land flags CLONE_CHILD_CLEARTID ≠ 0%Z));
        [apply calm_update|apply calm_ret]. }
    intros _. apply calm_bind; [apply calm_insert_thread|]. intros _.
    apply calm_ret.
  - intros [= -> ->].
    repeat (apply bind_Ret_inv in Hbody as (? & ? & _ & Hbody)).
    by apply ret_Ret_inv in Hbody as [? _].
  - done.
  - done.
  - done.
Qed.

Lemma thread_create_null_means_allocation_failure_witness :
  false ∈ allocs (sample.boot [true; true; false]).
Proof.
  apply (thread_create_null_means_allocation_failure 0 (Some (MainOf 0))
           0 0 100 (sample.boot [true; true; false])
           (mkWorld 2
              [mkManager ∅ []
                 (mkThread 0 (Some (MainOf 0)) None 4096 0 0 0 false 0 [Heap 0])]
              {[0%N := mkThread 1 (Some (Heap 0)) (Some (MainOf 0))
                         0 100 0 0 false 0 []]}
              {[0%nat := 4096%Z]} {[4096%Z := MainOf 0]} ∅ [])).
  reflexivity.
Defined.

(** ** What [exit] tears down *)

Lemma Thread_resume_world cpu p w o w' :
  Thread_resume cpu p w = o → world_after o = Some w' →
  ∃ t, load w p = Some t ∧ w' = resumed_world cpu p t w.
Proof.
  intros H Hw. destruct (load w p) as [t|] eqn:Ht.
  - rewrite (Thread_resume_run _ _ _ _ Ht) in H. subst o.
    injection Hw as <-. by eauto.
  - unfold Thread_resume in H. rewrite bind_eq in H. unfold deref in H.
    rewrite Ht in H. by subst o.
Qed.

Lemma resumed_world_rest cpu p t w :
  umem (resumed_world cpu p t w) = umem w
  ∧ tls_kthread (resumed_world cpu p t w) = tls_kthread w
  ∧ thread_counter (resumed_world cpu p t w) = thread_counter w.
Proof. unfold resumed_world. by destruct (yielded t), p. Qed.

Lemma erase_thread_safely_world this p w u w' :
  ThreadManager_erase_thread_safely this p w = Ret u w' →
  ∃ v, w' = set_thread_managers v w.
Proof.
  unfold ThreadManager_erase_thread_safely. intros H.
  apply bind_Ret_inv in H as (? & ? & [_ ->]%assert_Ret_inv & H).
  apply bind_Ret_inv in H as (? & ? & [_ ->]%nonnull_Ret_inv & H).
  apply bind_Ret_inv in H as (t & ? & [Ht ->]%deref_Ret_inv & H).
  apply bind_Ret_inv in H as (m & ? & [Hm ->]%manager_Ret_inv & H).
  cbv zeta in H.
  apply bind_Ret_inv in H as (? & ? & [_ ->]%assert_Ret_inv & H).
  apply bind_Ret_inv in H as (? & ? & [_ ->]%assert_Ret_inv & H).
  apply update_manager_Ret_inv in H as (m' & Hm' & ->). by eauto.
Qed.

(** [exit], when it does not trap: what it needed and what it took down. *)
Lemma Thread_exit_teardown cpu this w o w' :
  Thread_exit cpu this w = o → world_after o = Some w' →
  ∃ t r a par,
    load w this = Some t
    ∧ this = Heap a
    ∧ parent t = Some par
    ∧ registry cpu w = Some r
    ∧ r !! tid t = Some this
    ∧ registry cpu w' = Some (delete (tid t) r)
    ∧ (∀ i, i ≠ cpu → registry i w' = registry i w)
    ∧ load w' this = None
    ∧ umem w' = (if decide (clear_tid t = 0%Z) then umem w
                 else store_bytes (clear_tid t) (le_bytes 8 0) (umem w))
    ∧ tls_kthread w' = tls_kthread w
    ∧ thread_counter w' = thread_counter w.
Proof.
  unfold Thread_exit. intros H Hw.
  apply (bind_quiet_inv _ _ _ _ w') in H
    as (cur & ? & [-> ->]%get_thread_self_inv & H);
    [|apply quiet_get_thread_self|done].
  cbv zeta in H.
  apply (bind_quiet_inv _ _ _ _ w') in H
    as (t & ? & [Ht ->]%deref_Ret_inv & H); [|apply quiet_deref|done].
  apply (bind_quiet_inv _ _ _ _ w') in H
    as (? & ? & [Hp%bool_decide_eq_true ->]%assert_Ret_inv & H);
    [|apply quiet_assert|done].
  destruct (parent t) as [p0|] eqn:Hp0; [clear Hp|done].
  apply (bind_quiet_inv _ _ _ _ w') in H
    as (? & w1 & (L1 & _ & S1)%detach_children_inv & H);
    [|quiet_tac|done].
  apply (bind_quiet_inv _ _ _ _ w') in H
    as (t1 & ? & [Ht1 ->]%deref_Ret_inv & H); [|apply quiet_deref|done].
  assert (I1 : tid t1 = tid t ∧ clear_tid t1 = clear_tid t).
  { rewrite L1, Ht in Ht1. case_decide; by simplify_eq/=. }
  apply (bind_quiet_inv _ _ _ _ w') in H
    as (par & ? & [_ ->]%nonnull_Ret_inv & H); [|apply quiet_nonnull|done].
  apply (bind_quiet_inv _ _ _ _ w') in H
    as (? & w2 & H2 & H); [|apply quiet_update|done].
  pose proof (update_keeps tid _ _ _ _ _ this H2 (λ _, eq_refl)) as I2.
  pose proof (update_keeps clear_tid _ _ _ _ _ this H2 (λ _, eq_refl)) as K2.
  rewrite Ht1 in I2, K2. simpl in I2, K2.
  apply update_inv in H2 as (_ & _ & _ & _ & S2 & _).
  apply (bind_quiet_inv _ _ _ _ w') in H
    as (t2 & ? & [Ht2 ->]%deref_Ret_inv & H); [|apply quiet_deref|done].
  rewrite Ht2 in I2, K2. injection I2 as I2. injection K2 as K2.
  destruct I1 as [I1 K1]. rewrite I1 in I2. rewrite K1 in K2.
  cbv zeta in H.
  apply (bind_quiet_inv _ _ _ _ w') in H
    as (? & w3 & H3 & H); [|quiet_tac|done].
  assert (E3 : (∀ q, load w3 q = load w2 q)
               ∧ (∀ i, registry i w3 = registry i w2)
               ∧ tls_kthread w3 = tls_kthread w2
               ∧ thread_counter w3 = thread_counter w2
               ∧ umem w3
                 = (if decide (clear_tid t = 0%Z) then umem w2
                    else store_bytes (clear_tid t) (le_bytes 8 0) (umem w2))).
  { rewrite K2 in H3. destruct (decide (clear_tid t = 0%Z)) as [Hz|Hz].
    - rewrite bool_decide_eq_false_2 in H3 by (by intros ?).
      by apply ret_Ret_inv in H3 as [_ <-].
    - rewrite bool_decide_eq_true_2 in H3 by done.
      apply store_user_Ret_inv in H3 as [_ ->].
      split_and!; try done; intros q; apply load_set_umem. }
  destruct E3 as (L3 & R3 & T3 & C3 & U3). clear H3.
  apply (bind_quiet_inv _ _ _ _ w') in H
    as (? & w4 & H4 & H); [|apply quiet_erase_thread_safely|done].
  destruct (erase_thread_safely_world _ _ _ _ _ H4) as [v4 E4].
  apply erase_thread_safely_inv in H4
    as (L4 & _ & _ & (t4 & r & Ht4 & Hr & Hk & Hr') & O4).
  rewrite L3, Ht2 in Ht4. injection Ht4 as <-. rewrite I2 in Hk, Hr'.
  apply (bind_quiet_inv _ _ _ _ w') in H
    as (? & w5 & ([a Ha] & T5 & N5 & S5)%delete_Thread_inv & H);
    [|apply quiet_delete_Thread|done].
  assert (Hr0 : registry cpu w = Some r).
  { by rewrite <- (sr_registry _ _ S1), <- (sr_registry _ _ S2), <- R3. }
  assert (R5 : registry cpu w5 = Some (delete (tid t) r)).
  { by rewrite (sr_registry _ _ S5). }
  assert (O5 : ∀ i, i ≠ cpu → registry i w5 = registry i w).
  { intros i Hi. rewrite (sr_registry _ _ S5), O4, R3 by done.
    by rewrite (sr_registry _ _ S2), (sr_registry _ _ S1). }
  assert (U5 : umem w5
               = (if decide (clear_tid t = 0%Z) then umem w
                  else store_bytes (clear_tid t) (le_bytes 8 0) (umem w))).
  { rewrite (sr_umem _ _ S5), E4. simpl. rewrite U3.
    by rewrite (sr_umem _ _ S2), (sr_umem _ _ S1). }
  assert (K5 : tls_kthread w5 = tls_kthread w).
  { rewrite (sr_tls _ _ S5), E4. simpl. rewrite T3.
    by rewrite (sr_tls _ _ S2), (sr_tls _ _ S1). }
  assert (C5 : thread_counter w5 = thread_counter w).
  { rewrite (sr_counter _ _ S5), E4. simpl. rewrite C3.
    by rewrite (sr_counter _ _ S2), (sr_counter _ _ S1). }
  exists t, r, a, p0.
  destruct (bool_decide (current_thread cpu w = Some this)).
  - apply (bind_quiet_inv _ _ _ _ w') in H
      as (next & ? & [_ ->]%nonnull_Ret_inv & H); [|apply quiet_nonnull|done].
    apply (bind_quiet_inv _ _ _ _ w') in H
      as (? & w6 & H6 & H); [|apply quiet_erase_suspension|done].
    unfold ThreadManager_erase_suspension in H6.
    apply update_manager_Ret_inv in H6 as (m6 & Hm6 & E6).
    assert (L6 : ∀ q, load w6 q = load w5 q).
    { intros q. rewrite E6. by erewrite load_set_managers. }
    assert (R6 : ∀ i, registry i w6 = registry i w5).
    { intros i. rewrite E6. unfold registry. simpl.
      destruct (decide (i = cpu)) as [->|Hi].
      - rewrite list_lookup_insert_eq by (by eapply lookup_lt_Some).
        by rewrite Hm6.
      - by rewrite list_lookup_insert_ne. }
    destruct (Thread_resume_world _ _ _ _ _ H Hw) as (t6 & Ht6 & ->).
    assert (Hne : next ≠ this).
    { intros ->. rewrite L6, T5 in Ht6. done. }
    destruct (resumed_world_rest cpu next t6 w6) as (U7 & K7 & C7).
    split_and!; try done.
    + by rewrite resumed_world_registry, R6.
    + intros i Hi. by rewrite resumed_world_registry, R6, O5.
    + by rewrite resumed_world_load_ne, L6.
    + by rewrite U7, E6.
    + by rewrite K7, E6.
    + by rewrite C7, E6.
  - subst o. injection Hw as <-. split_and!; done.
Qed.

Lemma erase_first_app_fresh x l : x ∉ l → erase_first x (l ++ [x]) = l.
Proof.
  induction l as [|y l IH]; simpl.
  - intros _. by rewrite decide_True.
  - intros [Hy Hl]%not_elem_of_cons.
    rewrite decide_False by done. by rewrite IH.
Qed.

(** X12. What [exit] needs and what it takes down.  Whenever [exit] does not
    trap, the thread was a heap object with a parent, registered under its id
    with the manager of the calling CPU; afterwards the id is no key of that
    registry, the object is freed, the eight bytes of the [pthread_t] at the
    thread's [clear_tid] address (if it has one) are zero, so that also the
    [int] there reads zero, and no other byte of user memory is written; the
    registries of the other CPUs and the id counter are as before.  A
    thread without parent cannot exit: the call stops at the assertion. *)
Theorem exit_tears_down (cpu : nat) (this : tptr) (w : World) :
  (∀ w', world_after (Thread_exit cpu this w) = Some w' →
     ∃ t r a par,
       load w this = Some t
       ∧ this = Heap a
       ∧ parent t = Some par
       ∧ registry cpu w = Some r
       ∧ r !! tid t = Some this
       ∧ registry cpu w' = Some (delete (tid t) r)
       ∧ get_thread cpu (tid t) w' = Ret None w'
       ∧ (∀ i, i ≠ cpu → registry i w' = registry i w)
       ∧ load w' this = None
       ∧ (clear_tid t ≠ 0%Z →
          (∀ i, (0 ≤ i < 8)%Z → umem w' !! (clear_tid t + i)%Z = Some 0%Z)
          ∧ load_int (clear_tid t) (umem w') = Some 0%Z)
       ∧ (∀ x, ¬ (clear_tid t ≤ x < clear_tid t + 8)%Z →
            umem w' !! x = umem w !! x)
       ∧ (clear_tid t = 0%Z → umem w' = umem w)
       ∧ thread_counter w' = thread_counter w)
  ∧ (∀ t, load w this = Some t → parent t = None →
       Thread_exit cpu this w = Trap assert_failed).
Proof.
  split.
  - intros w' Hw.
    destruct (Thread_exit_teardown _ _ _ _ _ eq_refl Hw)
      as (t & r & a & par & Ht & Ha & Hp & Hr & Hk & Hr' & Ho & Hgone & Hu
          & _ & Hc).
    exists t, r, a, par. split_and!; try done.
    + destruct (registry_Some _ _ _ Hr') as (m & Hm & Hth).
      rewrite (get_thread_run _ _ _ _ Hm), Hth. by rewrite lookup_delete_eq.
    + intros Hz. rewrite Hu, decide_False by done.
      assert (Hzero : ∀ i, (0 ≤ i < 8)%Z →
                store_bytes (clear_tid t) (le_bytes 8 0) (umem w)
                  !! (clear_tid t + i)%Z = Some 0%Z).
      { intros i Hi. apply lookup_store_zero. lia. }
      split; [done|]. apply load_int_zero. intros i Hi. apply Hzero. lia.
    + intros x Hx. rewrite Hu. destruct (decide (clear_tid t = 0%Z)); [done|].
      apply lookup_store_bytes_out. by rewrite length_le_bytes.
    + intros Hz. by rewrite Hu, decide_True.
  - intros t Ht Hp. unfold Thread_exit.
    assert (Hcur : get_thread_self cpu w = Ret (current_thread cpu w) w) by done.
    rewrite (bind_Ret _ _ _ _ _ Hcur). cbv zeta.
    rewrite (bind_Ret _ _ _ _ _ (deref_run _ _ _ Ht)).
    by rewrite Hp.
Qed.

Lemma exit_tears_down_witness :
  (∃ w', world_after (Thread_exit 0 (Heap 1) sample.family_clear) = Some w'
         ∧ registry 0 w' = Some {[1%Z := Heap 0]}
         ∧ load w' (Heap 1) = None
         ∧ load_int 500 (umem w') = Some 0%Z
         ∧ load_int 504 (umem w') = Some 0%Z
         ∧ umem w' !! 508%Z = Some 255%Z)
  ∧ Thread_exit 0 (MainOf 0) sample.family = Trap assert_failed.
Proof.
  destruct (exit_tears_down 0 (Heap 1) sample.family_clear) as [Hdown _].
  destruct (exit_tears_down 0 (MainOf 0) sample.family) as [_ Hmain].
  split.
  - destruct (Hdown _ eq_refl)
      as (t & r & a & par & Ht & _ & _ & Hr & _ & Hr' & _ & _ & Hgone & Hzero
          & Hframe & _).
    vm_compute in Ht. injection Ht as <-. injection Hr as <-.
    destruct (Hzero ltac:(discriminate)) as [Hbytes Hint].
    match type of Hgone with load ?w' _ = _ => exists w' end.
    split_and!; [reflexivity | | exact Hgone | exact Hint | |].
    + rewrite Hr'. reflexivity.
    + apply load_int_zero. intros i Hi.
      replace (504 + i)%Z with (clear_tid sample.cleared_B + (4 + i))%Z
        by (simpl; lia).
      apply Hbytes. lia.
    + rewrite (Hframe 508%Z) by (simpl; lia). reflexivity.
  - apply (Hmain sample.main_0); reflexivity.
Defined.

(** X13. A thread is created and exits at once, on one CPU whose registry has
    the new id free, with no allocation failing, the parent's children all
    live and [ctid] a non-null address where [CLONE_CHILD_SETTID] asks for a
    store through it.  Both calls complete.  Afterwards every registry is as
    it was before the creation, the thread object is gone again, the parent
    has the children it had, and with [CLONE_CHILD_CLEARTID] and a non-null
    [ctid] the eight bytes at [ctid] are zero, so that the [int] there reads
    zero whether or not the id had been stored in it.  The id is not given
    back: the counter stays one further. *)
Theorem create_then_exit_round_trip
    (cpu : nat) (par : tptr) (pt : Thread) (flags ctid stack : Z)
    (w : World) (r : gmap Z tptr) :
  load w par = Some pt →
  Forall (λ c, is_Some (load w c)) (children pt) →
  registry cpu w = Some r →
  r !! to_int (thread_counter w) = None →
  allocs w = [] →
  (Z.land flags CLONE_CHILD_SETTID ≠ 0%Z → ctid ≠ 0%Z) →
  ∃ th w1 w2,
    thread_create cpu (Some par) flags ctid stack w = Ret (Some th) w1
    ∧ world_after (Thread_exit cpu th w1) = Some w2
    ∧ (∀ i, registry i w2 = registry i w)
    ∧ load w th = None ∧ is_Some (load w1 th) ∧ load w2 th = None
    ∧ children <$> load w2 par = Some (children pt)
    ∧ (Z.land flags CLONE_CHILD_CLEARTID ≠ 0%Z → ctid ≠ 0%Z →
       (∀ i, (0 ≤ i < 8)%Z → umem w2 !! (ctid + i)%Z = Some 0%Z)
       ∧ load_int ctid (umem w2) = Some 0%Z)
    ∧ thread_counter w2 = wrap_long (thread_counter w + 1).
Proof.
  intros Hpar Hlive Hr Hfree Ha Hctid.
  destruct (thread_create_run cpu par pt flags ctid stack w r Hpar Hr)
    as (th & w1 & Hrun & Hnew & T & P & N & R & O & Q & F & K & U & C & A
        & Hheap);
    [by rewrite Ha|by rewrite Ha|by rewrite Ha|done|].
  rewrite Hfree in R.
  set (t := created_thread th par (thread_counter w) flags ctid stack) in *.
  destruct (created_thread_fields th par (thread_counter w) flags ctid stack)
    as (Hself & Htid & Hparent & Hstack & Hch & Hclear).
  fold t in Hself, Htid, Hparent, Hstack, Hch, Hclear.
  assert (Hne : par ≠ th) by (intros ->; congruence).
  assert (Hfresh : th ∉ children pt).
  { intros Hin. rewrite Forall_forall in Hlive.
    destruct (Hlive th Hin) as [? Hth]. congruence. }
  assert (Hready : exit_ready cpu th t w1).
  { split.
    - done.
    - exists par. split_and!; [done|done|by rewrite P].
    - rewrite Hch. apply not_elem_of_nil.
    - rewrite Hch. by intros c ?%elem_of_nil.
    - eexists. split; [exact R|]. rewrite Htid. apply lookup_insert_eq. }
  destruct (Thread_exit_completes cpu th w1 t T Hready) as [w2 Hw2].
  destruct (Thread_exit_teardown _ _ _ _ _ eq_refl Hw2)
    as (t' & r' & a & par' & Ht' & _ & _ & Hr' & _ & Hr2 & Ho2 & Hgone & Hu
        & _ & Hc).
  rewrite T in Ht'. injection Ht' as <-.
  rewrite R in Hr'. injection Hr' as <-.
  destruct (Thread_exit_spec _ _ _ _ _ eq_refl Hw2)
    as (t' & p0 & par0 & Ht' & Hp0 & Hpar0 & _ & _ & Hchildren & _).
  rewrite T in Ht'. injection Ht' as <-.
  rewrite Hparent in Hp0. injection Hp0 as <-.
  rewrite Hch in Hpar0, Hchildren. simpl in Hpar0. subst par0.
  exists th, w1, w2. split_and!; try done.
  - intros i. destruct (decide (i = cpu)) as [->|Hi].
    + rewrite Hr2, Hr, Htid. f_equal. by apply delete_insert_id.
    + by rewrite Ho2, O.
  - rewrite (Hchildren par Hne), P. simpl. rewrite detached_children.
    rewrite decide_True by done. simpl. f_equal.
    by apply erase_first_app_fresh.
  - intros Hflag Hz. rewrite Hu, (Hclear Hflag), decide_False by done.
    assert (Hzero : ∀ i, (0 ≤ i < 8)%Z →
              store_bytes ctid (le_bytes 8 0) (umem w1) !! (ctid + i)%Z
              = Some 0%Z).
    { intros i Hi. apply lookup_store_zero. lia. }
    split; [done|]. apply load_int_zero. intros i Hi. apply Hzero. lia.
  - by rewrite Hc.
Qed.

Lemma create_then_exit_round_trip_witness :
  ∃ th w1 w2,
    thread_create 0 (Some (Heap 0))
      (Z.lor CLONE_CHILD_SETTID CLONE_CHILD_CLEARTID) 500 200
      (sample.one_thread [] []) = Ret (Some th) w1
    ∧ world_after (Thread_exit 0 th w1) = Some w2
    ∧ registry 0 w2 = Some {[1%Z := Heap 0]}
    ∧ load w2 th = None
    ∧ load_int 500 (umem w2) = Some 0%Z
    ∧ thread_counter w2 = 3%Z.
Proof.
  destruct (create_then_exit_round_trip 0 (Heap 0) sample.thread_A
              (Z.lor CLONE_CHILD_SETTID CLONE_CHILD_CLEARTID) 500 200
              (sample.one_thread [] [])
              {[1%Z := Heap 0]} eq_refl ltac:(constructor) eq_refl eq_refl
              eq_refl ltac:(discriminate))
    as (th & w1 & w2 & Hrun & Hexit & Hr & _ & _ & Hgone & _ & Hu & Hc).
  exists th, w1, w2.
  split_and!; [exact Hrun | exact Hexit | | exact Hgone | | ].
  - rewrite Hr. reflexivity.
  - apply Hu; discriminate.
  - rewrite Hc. reflexivity.
Defined.

(** ** Migration at the edges *)

Lemma manager_at_out_of_range w target :
  ¬ (0 ≤ target < Z.of_nat (length (thread_managers w)))%Z →
  manager_at target w = Throw out_of_range w.
Proof. intros H. unfold manager_at. by rewrite bool_decide_eq_false_2. Qed.

(** [migrate] up to the range check of the target. *)
Lemma migrate_erased cpu tid target w m p t :
  thread_managers w !! cpu = Some m →
  threads m !! tid = Some p →
  load w p = Some t →
  kernel.tid t = tid →
  ThreadManager_migrate cpu cpu tid target w
  = (let* dst := manager_at target in ThreadManager_insert_thread dst p)
      (set_thread_managers
         (<[cpu := set_threads (delete tid (threads m)) m]> (thread_managers w))
         w).
Proof.
  intros Hm Hp Ht <-. unfold ThreadManager_migrate.
  rewrite (bind_Ret _ _ _ _ _ (get_thread_run _ _ _ _ Hm)), Hp.
  rewrite bind_eq. simpl.
  rewrite (bind_Ret _ _ _ _ _ (erase_thread_safely_run _ _ _ _ _ Hm Ht Hp)).
  rewrite !bind_eq. by destruct (manager_at target _).
Qed.

(** X14. [migrate] of a registered thread to the CPU it is on takes the entry
    out of the registry and puts it back: the call returns and the world is
    the one before the call. *)
Theorem migrate_to_own_cpu_is_identity
    (cpu : nat) (tid : Z) (w : World) (m : ThreadManager) (p : tptr)
    (t : Thread) :
  thread_managers w !! cpu = Some m →
  threads m !! tid = Some p →
  load w p = Some t →
  kernel.tid t = tid →
  allocs w = [] →
  ThreadManager_migrate cpu cpu tid (Z.of_nat cpu) w = Ret tt w.
Proof.
  intros Hm Hp Ht Htid Ha.
  rewrite (migrate_erased _ _ _ _ _ _ _ Hm Hp Ht Htid).
  assert (Hlen : cpu < length (thread_managers w)) by (by eapply lookup_lt_Some).
  set (m1 := set_threads (delete tid (threads m)) m).
  set (w1 := set_thread_managers (<[cpu := m1]> (thread_managers w)) w).
  assert (Hm1 : thread_managers w1 !! cpu = Some m1).
  { unfold w1. simpl. by rewrite list_lookup_insert_eq. }
  assert (Ht1 : load w1 p = Some t).
  { unfold w1. by erewrite load_set_managers. }
  assert (Hat : manager_at (Z.of_nat cpu) w1 = Ret cpu w1).
  { apply manager_at_run. unfold w1. simpl. by rewrite length_insert. }
  rewrite (bind_Ret _ _ _ _ _ Hat).
  rewrite (insert_thread_fresh cpu w1 m1 p t Hm1 Ht1 Ha)
    by (rewrite Htid; apply lookup_delete_eq).
  f_equal. unfold w1, m1. simpl.
  rewrite list_insert_insert_eq, Htid, insert_delete_id by done.
  replace (set_threads (threads m) (set_threads (delete tid (threads m)) m))
    with m by (by destruct m).
  rewrite list_insert_id by done. by destruct w.
Qed.

Lemma migrate_to_own_cpu_is_identity_witness :
  ThreadManager_migrate 0 0 1 0 sample.two_cpus = Ret tt sample.two_cpus.
Proof.
  apply (migrate_to_own_cpu_is_identity 0 1 sample.two_cpus
           (mkManager {[1%Z := Heap 0]} [] sample.main_0) (Heap 0)
           sample.thread_A); reflexivity.
Defined.

(** X15. [migrate] checks the id before it touches anything and the target
    CPU after it has taken the thread out of its registry.  An id that the
    calling CPU does not know stops the call at the assertion.  A target
    outside the array of managers makes the call leave with [out_of_range]:
    by then the thread is out of the registry it was in, and it is put into
    no other; the thread object itself is untouched. *)
Theorem migrate_failure_modes
    (cpu : nat) (tid target : Z) (w : World) (m : ThreadManager) :
  thread_managers w !! cpu = Some m →
  (threads m !! tid = None →
     ThreadManager_migrate cpu cpu tid target w = Trap assert_failed)
  ∧ (∀ p t,
       threads m !! tid = Some p →
       load w p = Some t →
       kernel.tid t = tid →
       ¬ (0 ≤ target < Z.of_nat (length (thread_managers w)))%Z →
       ∃ w', ThreadManager_migrate cpu cpu tid target w = Throw out_of_range w'
             ∧ registry cpu w' = Some (delete tid (threads m))
             ∧ get_thread cpu tid w' = Ret None w'
             ∧ (∀ i, i ≠ cpu → registry i w' = registry i w)
             ∧ (∀ q, load w' q = load w q)
             ∧ (∀ i, queue i w' = queue i w)).
Proof.
  intros Hm. split.
  - intros Hnone. unfold ThreadManager_migrate.
    by rewrite (bind_Ret _ _ _ _ _ (get_thread_run _ _ _ _ Hm)), Hnone.
  - intros p t Hp Ht Htid Hrange.
    assert (Hlen : cpu < length (thread_managers w))
      by (by eapply lookup_lt_Some).
    eexists. split_and!.
    + rewrite (migrate_erased _ _ _ _ _ _ _ Hm Hp Ht Htid).
      apply bind_Throw, manager_at_out_of_range.
      simpl. by rewrite length_insert.
    + unfold registry. simpl. by rewrite list_lookup_insert_eq.
    + erewrite get_thread_run;
        [|simpl; by rewrite list_lookup_insert_eq].
      simpl. by rewrite lookup_delete_eq.
    + intros i Hi. unfold registry. simpl. by rewrite list_lookup_insert_ne.
    + intros q. by erewrite load_set_managers.
    + intros i. unfold queue. simpl.
      destruct (decide (i = cpu)) as [->|Hi].
      * rewrite list_lookup_insert_eq by done. by rewrite Hm.
      * by rewrite list_lookup_insert_ne.
Qed.

Lemma migrate_failure_modes_witness :
  ThreadManager_migrate 0 0 7 1 sample.two_cpus = Trap assert_failed
  ∧ ∃ w', ThreadManager_migrate 0 0 1 2 sample.two_cpus
          = Throw out_of_range w'
          ∧ registry 0 w' = Some ∅
          ∧ registry 1 w' = Some ∅
          ∧ load w' (Heap 0) = Some sample.thread_A.
Proof.
  destruct (migrate_failure_modes 0 7 1 sample.two_cpus
              (mkManager {[1%Z := Heap 0]} [] sample.main_0) eq_refl)
    as [Hunknown _].
  destruct (migrate_failure_modes 0 1 2 sample.two_cpus
              (mkManager {[1%Z := Heap 0]} [] sample.main_0) eq_refl)
    as [_ Hrange].
  split; [apply Hunknown; reflexivity|].
  destruct (Hrange (Heap 0) sample.thread_A eq_refl eq_refl eq_refl)
    as (w' & Hrun & Hr & _ & Ho & Hl & _).
  { simpl. lia. }
  exists w'. split_and!; [exact Hrun | | | ].
  - rewrite Hr. reflexivity.
  - rewrite Ho by lia. reflexivity.
  - rewrite Hl. reflexivity.
Defined.

(** ** Ids in use stay below the counter *)

Create HintDb ids_below.

Section IdsBelow.
Variable n : Z.
Hypothesis Hn : (0 < n)%Z.

Lemma ids_below_same w w' :
  (∀ q, load w' q = load w q) → (∀ i, registry i w' = registry i w) →
  ids_below n w → ids_below n w'.
Proof.
  intros Hl Hr [H1 H2]. split.
  - intros q t. rewrite Hl. apply H1.
  - intros i r k p. rewrite Hr. apply H2.
Qed.

Lemma ids_below_store p t w :
  (tid t < n)%Z → ids_below n w → ids_below n (store p t w).
Proof.
  intros Ht [H1 H2]. split.
  - intros q t0. destruct (decide (q = p)) as [->|Hq].
    + destruct (load w p) as [old|] eqn:Hold.
      * rewrite load_store_eq by eauto. by intros [= <-].
      * destruct p as [c|a]; simpl in *.
        -- rewrite list_lookup_alter_eq.
           destruct (thread_managers w !! c); simpl in *; [done|done].
        -- rewrite lookup_insert_eq. by intros [= <-].
    + rewrite load_store_ne by done. apply H1.
  - intros i r k q. rewrite registry_store. apply H2.
Qed.

Lemma ids_below_deref_bind {B} p (f : Thread → M B) :
  (∀ t, (tid t < n)%Z → preserves (ids_below n) (f t)) →
  preserves (ids_below n) (bind (deref p) f).
Proof.
  intros Hf w H. rewrite bind_eq. unfold deref.
  destruct (load w p) as [t|] eqn:Ht; [|done].
  apply Hf; [|done]. destruct H as [H1 _]. by eapply H1.
Qed.

Lemma ids_below_update p f :
  (∀ t, (tid t < n)%Z → (tid (f t) < n)%Z) →
  preserves (ids_below n) (update p f).
Proof.
  intros Hf. apply ids_below_deref_bind. intros t Ht.
  apply preserves_modify. intros w. apply ids_below_store. by apply Hf.
Qed.

Lemma ids_below_update_manager i f :
  (∀ m, main_thread (f m) = main_thread m) →
  (∀ m k p, threads (f m) !! k = Some p →
            (k < n)%Z ∨ threads m !! k = Some p) →
  preserves (ids_below n) (update_manager i f).
Proof.
  intros Hmain Hkeys w [H1 H2]. unfold update_manager.
  rewrite bind_eq. unfold manager.
  destruct (thread_managers w !! i) as [m|] eqn:Hm; [|done].
  unfold modify.
  assert (Hlen : i < length (thread_managers w)) by (by eapply lookup_lt_Some).
  split.
  - intros q t. erewrite load_set_managers; [apply H1|done|apply Hmain].
  - intros j r k p. unfold registry. simpl.
    destruct (decide (j = i)) as [->|Hj].
    + rewrite list_lookup_insert_eq by done. simpl. intros [= <-] Hk.
      destruct (Hkeys m k p Hk) as [?|Hold]; [done|].
      apply (H2 i (threads m) k p); [|done]. unfold registry. by rewrite Hm.
    + rewrite list_lookup_insert_ne by done. apply H2.
Qed.

Lemma ids_below_allocate : preserves (ids_below n) allocate.
Proof.
  intros w H. unfold allocate.
  destruct (allocs w) as [|[] rest]; try done;
    (eapply ids_below_same; [|done|exact H]); intros q; apply load_set_allocs.
Qed.

Lemma ids_below_new_Thread : preserves (ids_below n) new_Thread.
Proof.
  apply preserves_bind; [apply ids_below_allocate|].
  intros _ w H. cbv beta zeta.
  apply (ids_below_store (Heap (fresh (dom (heap w)))) fresh_thread w); done.
Qed.

Lemma ids_below_delete_Thread p : preserves (ids_below n) (delete_Thread p).
Proof.
  intros w [H1 H2]. unfold delete_Thread. destruct p as [c|a]; [done|].
  destruct (heap w !! a) as [old|] eqn:Ha; [|done]. split.
  - intros [c|b] t; simpl; [apply (H1 (MainOf c))|].
    intros [_ Hb]%lookup_delete_Some. by apply (H1 (Heap b)).
  - apply H2.
Qed.

Lemma ids_below_set_thread_area cpu a :
  preserves (ids_below n) (set_thread_area cpu a).
Proof.
  apply preserves_modify. intros w. apply ids_below_same; [|done].
  intros q. apply load_set_fs_base.
Qed.

Lemma ids_below_set_umem f :
  preserves (ids_below n) (modify (λ w, set_umem (f w) w)).
Proof.
  apply preserves_modify. intros w. apply ids_below_same; [|done].
  intros q. apply load_set_umem.
Qed.

Lemma ids_below_set_tls f :
  preserves (ids_below n) (modify (λ w, set_tls_kthread (f w) w)).
Proof.
  apply preserves_modify. intros w. apply ids_below_same; [|done].
  by intros [].
Qed.

Lemma ids_below_store_user p k v : preserves (ids_below n) (store_user p k v).
Proof.
  unfold store_user. case_bool_decide;
    [apply preserves_abort|apply ids_below_set_umem].
Qed.

Ltac ids_step :=
  lazymatch goal with
  | |- preserves _ (store_user _ _ _) => apply ids_below_store_user
  | |- preserves _ (bind _ _) => apply preserves_bind; [|intros ?]
  | |- preserves _ (ret _) => apply preserves_ret
  | |- preserves _ (assert _) => apply preserves_assert
  | |- preserves _ (nonnull _) => apply preserves_nonnull
  | |- preserves _ (deref _) => apply preserves_deref
  | |- preserves _ (manager _) => apply preserves_manager
  | |- preserves _ (manager_at _) => apply preserves_manager_at
  | |- preserves _ (gets _) => apply preserves_gets
  | |- preserves _ (jump _) => apply preserves_jump
  | |- preserves _ (abort _) => apply preserves_abort
  | |- preserves _ (update _ _) => apply ids_below_update; by intros ? ?
  | |- preserves _ (update_manager _ _) =>
      apply ids_below_update_manager; [by intros ? | by intros ? ? ? ?; right]
  | |- preserves _ allocate => apply ids_below_allocate
  | |- preserves _ new_Thread => apply ids_below_new_Thread
  | |- preserves _ (delete_Thread _) => apply ids_below_delete_Thread
  | |- preserves _ (set_thread_area _ _) => apply ids_below_set_thread_area
  | |- preserves _ (foreach _ _) => apply preserves_foreach; intros ?
  | |- preserves _ (try_catch _ _) => apply preserves_try_catch
  | |- preserves _ (modify (λ w, set_umem _ w)) => apply ids_below_set_umem
  | |- preserves _ (modify (λ w, set_tls_kthread _ w)) => apply ids_below_set_tls
  | |- preserves _ (if ?b then _ else _) => destruct b
  | |- preserves _ (match ?x with _ => _ end) => destruct x
  | |- preserves _ _ => solve [eauto with ids_below]
  end.

Ltac ids_tac := repeat ids_step.

Lemma ids_below_get_thread_area cpu :
  preserves (ids_below n) (get_thread_area cpu).
Proof. unfold get_thread_area. ids_tac. Qed.
#[local] Hint Resolve ids_below_get_thread_area : ids_below.

Lemma ids_below_get_thread_self cpu :
  preserves (ids_below n) (get_thread_self cpu).
Proof. unfold get_thread_self, get_thread_area. ids_tac. Qed.
#[local] Hint Resolve ids_below_get_thread_self : ids_below.

Lemma ids_below_get_thread cpu tid :
  preserves (ids_below n) (get_thread cpu tid).
Proof. unfold get_thread. ids_tac. Qed.
#[local] Hint Resolve ids_below_get_thread : ids_below.

(** The key that [insert_thread] uses is the id of a thread object. *)
Lemma ids_below_insert_thread this p :
  preserves (ids_below n) (ThreadManager_insert_thread this p).
Proof.
  unfold ThreadManager_insert_thread.
  apply ids_below_deref_bind. intros t Ht.
  apply preserves_bind; [apply ids_below_allocate|]. intros _.
  apply ids_below_update_manager.
  - intros m. by destruct (threads m !! tid t).
  - intros m k q. destruct (threads m !! tid t) eqn:Hk; [by right|].
    simpl. intros [[<- _]|[_ Hold]]%lookup_insert_Some; [by left|by right].
Qed.
#[local] Hint Resolve ids_below_insert_thread : ids_below.

Lemma ids_below_erase_thread_safely this p :
  preserves (ids_below n) (ThreadManager_erase_thread_safely this p).
Proof.
  unfold ThreadManager_erase_thread_safely.
  apply preserves_bind; [apply preserves_assert|]. intros _.
  apply preserves_bind; [apply preserves_nonnull|]. intros q.
  apply preserves_bind; [apply preserves_deref|]. intros t.
  apply preserves_bind; [apply preserves_manager|]. intros m0. cbv zeta.
  apply preserves_bind; [apply preserves_assert|]. intros _.
  apply preserves_bind; [apply preserves_assert|]. intros _.
  apply ids_below_update_manager; [done|].
  intros m k x. simpl. intros [_ Hold]%lookup_delete_Some. by right.
Qed.
#[local] Hint Resolve ids_below_erase_thread_safely : ids_below.

Lemma ids_below_wakeup_next this :
  preserves (ids_below n) (ThreadManager_wakeup_next this).
Proof. unfold ThreadManager_wakeup_next. ids_tac. Qed.
#[local] Hint Resolve ids_below_wakeup_next : ids_below.

Lemma ids_below_erase_suspension this t :
  preserves (ids_below n) (ThreadManager_erase_suspension this t).
Proof. unfold ThreadManager_erase_suspension. ids_tac. Qed.
#[local] Hint Resolve ids_below_erase_suspension : ids_below.

Lemma ids_below_manager_suspend this t :
  preserves (ids_below n) (ThreadManager_suspend this t).
Proof. unfold ThreadManager_suspend. ids_tac. Qed.
#[local] Hint Resolve ids_below_manager_suspend : ids_below.

Lemma ids_below_migrate cpu this tid target :
  preserves (ids_below n) (ThreadManager_migrate cpu this tid target).
Proof. unfold ThreadManager_migrate. ids_tac. Qed.
#[local] Hint Resolve ids_below_migrate : ids_below.

(** [init] writes the id it is given. *)
Lemma ids_below_init this tid :
  (to_int tid < n)%Z → preserves (ids_below n) (Thread_init this tid).
Proof.
  intros Ht. unfold Thread_init.
  apply preserves_bind; [apply ids_below_update; by intros ? ?|]. intros _.
  apply ids_below_update. by intros ? ?.
Qed.

Lemma ids_below_libc_store_this this :
  preserves (ids_below n) (Thread_libc_store_this this).
Proof. unfold Thread_libc_store_this. ids_tac. Qed.
#[local] Hint Resolve ids_below_libc_store_this : ids_below.

Lemma ids_below_store_return this ri rs :
  preserves (ids_below n) (Thread_store_return this ri rs).
Proof. unfold Thread_store_return. ids_tac. Qed.
#[local] Hint Resolve ids_below_store_return : ids_below.

Lemma ids_below_activate cpu this tls :
  preserves (ids_below n) (Thread_activate cpu this tls).
Proof. unfold Thread_activate. ids_tac. Qed.
#[local] Hint Resolve ids_below_activate : ids_below.

Lemma ids_below_suspend cpu this ri rs :
  preserves (ids_below n) (Thread_suspend cpu this ri rs).
Proof. unfold Thread_suspend. ids_tac. Qed.
#[local] Hint Resolve ids_below_suspend : ids_below.

Lemma ids_below_resume cpu this :
  preserves (ids_below n) (Thread_resume cpu this).
Proof. unfold Thread_resume. ids_tac. Qed.
#[local] Hint Resolve ids_below_resume : ids_below.

Lemma ids_below_yield cpu this :
  preserves (ids_below n) (Thread_yield cpu this).
Proof. unfold Thread_yield. ids_tac. Qed.
#[local] Hint Resolve ids_below_yield : ids_below.

Lemma ids_below_exit cpu this :
  preserves (ids_below n) (Thread_exit cpu this).
Proof. unfold Thread_exit. ids_tac. Qed.
#[local] Hint Resolve ids_below_exit : ids_below.

Lemma ids_below_resume_tid cpu tid :
  preserves (ids_below n) (resume cpu tid).
Proof. unfold resume. ids_tac. Qed.
#[local] Hint Resolve ids_below_resume_tid : ids_below.

Lemma ids_below_suspend_and_yield cpu ni st :
  preserves (ids_below n) (__thread_suspend_and_yield cpu ni st).
Proof. unfold __thread_suspend_and_yield. ids_tac. Qed.
#[local] Hint Resolve ids_below_suspend_and_yield : ids_below.

Lemma ids_below_setup_main_thread cpu sv :
  preserves (ids_below n) (setup_main_thread cpu sv).
Proof.
  unfold setup_main_thread. cbv zeta.
  apply preserves_bind; [apply ids_below_init; exact Hn|]. intros _.
  ids_tac.
Qed.
#[local] Hint Resolve ids_below_setup_main_thread : ids_below.

(** A creation that takes an id below [n] from the counter. *)
Lemma ids_below_thread_create cpu parent flags ctid stack w w' :
  (to_int (thread_counter w) < n)%Z →
  ids_below n w →
  world_after (thread_create cpu parent flags ctid stack w) = Some w' →
  ids_below n w'.
Proof.
  intros Hid H. unfold thread_create. rewrite bind_eq. simpl.
  apply (preserved_after (ids_below n)).
  - apply preserves_try_catch; [|apply preserves_ret].
    apply preserves_bind; [apply ids_below_new_Thread|]. intros th.
    apply preserves_bind;
      [apply ids_below_init; by rewrite to_int_idemp|]. intros _.
    ids_tac.
  - by apply (ids_below_same w); [intros []|..].
Qed.

(** Every call but a creation. *)
Lemma ids_below_run_call cpu c w w' :
  (∀ p f ct s, c ≠ do_thread_create p f ct s) →
  ids_below n w →
  world_after (run_call cpu c w) = Some w' →
  ids_below n w'.
Proof.
  intros Hc H. apply (preserved_after (ids_below n)); [|done].
  destruct c as [par flags ctid stack| | | | | | | |]; simpl.
  - by destruct (Hc par flags ctid stack).
  - apply ids_below_suspend.
  - apply ids_below_yield.
  - apply ids_below_exit.
  - apply ids_below_resume_tid.
  - apply ids_below_migrate.
  - apply preserves_bind; [apply ids_below_wakeup_next|].
    intros _. apply preserves_ret.
  - apply ids_below_suspend_and_yield.
  - apply ids_below_setup_main_thread.
Qed.

End IdsBelow.

Lemma ids_below_mono n n' w : (n ≤ n')%Z → ids_below n w → ids_below n' w.
Proof.
  intros Hle [H1 H2]. split.
  - intros q t Hq. specialize (H1 q t Hq). lia.
  - intros i r k p Hr Hk. specialize (H2 i r k p Hr Hk). lia.
Qed.

Lemma ids_below_run_calls cs : ∀ w w',
  (1 ≤ thread_counter w)%Z →
  (thread_counter w + Z.of_nat (length cs) < 2 ^ 31)%Z →
  ids_below (thread_counter w) w →
  run_calls cs w = Some w' →
  ids_below (thread_counter w') w'
  ∧ (thread_counter w ≤ thread_counter w'
     ≤ thread_counter w + Z.of_nat (length cs))%Z.
Proof.
  induction cs as [|[cpu c] cs IH]; intros w w' Hlo Hhi H Hrun.
  - injection Hrun as <-. split; [done|]. simpl. lia.
  - simpl in Hrun, Hhi.
    destruct (world_after (run_call cpu c w)) as [w1|] eqn:Hw1; [|done].
    pose proof (run_call_counter _ _ _ _ Hw1) as Hc.
    assert (Hstep : ids_below (thread_counter w1) w1
                    ∧ (thread_counter w ≤ thread_counter w1
                       ≤ thread_counter w + 1)%Z).
    { destruct c as [par flags ctid stack| | | | | | | |];
        try (rewrite Hc; split; [|lia];
             refine (ids_below_run_call _ _ cpu _ w w1 _ H Hw1);
             [lia | intros; discriminate]).
      rewrite wrap_long_id in Hc by lia. rewrite Hc. split; [|lia].
      apply (ids_below_thread_create (thread_counter w + 1) ltac:(lia)
               cpu par flags ctid stack w w1).
      - rewrite to_int_id by lia. lia.
      - apply (ids_below_mono (thread_counter w)); [lia|done].
      - simpl in Hw1. rewrite bind_eq in Hw1.
        by destruct (thread_create cpu par flags ctid stack w). }
    destruct Hstep as [H1 Hc1].
    destruct (IH w1 w') as [H' Hc']; [lia|lia|done|done|].
    split; [done|]. cbn [length]. lia.
Qed.

(** X16. Ids in use stay below the counter.  Start where the counter is at
    least 1 and above the id of every thread object and above every key of
    every registry, as after [setup_main_thread], and run any calls, on any
    CPUs, that do not take the counter past the range of [int].  Then the
    counter is still above every id in use: no call but [thread_create]
    writes an id or adds a registry key that no thread carries, and
    [thread_create] takes the counter past the id it hands out.  So the id
    the next creation will take is carried by no thread and is a key of no
    registry. *)
Theorem ids_stay_below_counter
    (cs : list (nat * call)) (w w' : World) :
  (1 ≤ thread_counter w)%Z →
  (thread_counter w + Z.of_nat (length cs) < 2 ^ 31)%Z →
  ids_below (thread_counter w) w →
  run_calls cs w = Some w' →
  ids_below (thread_counter w') w'
  ∧ (thread_counter w ≤ thread_counter w'
     ≤ thread_counter w + Z.of_nat (length cs))%Z
  ∧ (∀ q t, load w' q = Some t → tid t ≠ to_int (thread_counter w'))
  ∧ (∀ i r, registry i w' = Some r → r !! to_int (thread_counter w') = None).
Proof.
  intros Hlo Hhi H Hrun.
  destruct (ids_below_run_calls cs w w' Hlo Hhi H Hrun) as [[H1 H2] Hc].
  rewrite to_int_id by lia. split_and!; [done|lia|lia|..].
  - intros q t Hq. specialize (H1 q t Hq). lia.
  - intros i r Hr.
    destruct (r !! thread_counter w') as [p|] eqn:Hk; [|done].
    specialize (H2 i r _ p Hr Hk). lia.
Qed.

Lemma ids_stay_below_counter_witness :
  let cs := [(0, do_thread_create (Some (MainOf 0)) 0 0 100);
             (0, do_suspend (MainOf 0) 5 7);
             (0, do_thread_create (Some (Heap 0)) 0 0 200);
             (0, do_exit (Heap 1))] in
  ∃ w', run_calls cs (sample.boot []) = Some w'
        ∧ ids_below (thread_counter w') w'
        ∧ (∀ i r, registry i w' = Some r →
                  r !! to_int (thread_counter w') = None).
Proof.
  intros cs.
  assert (Hboot : ids_below (thread_counter (sample.boot [])) (sample.boot [])).
  { split.
    - intros [[|c]|a] t; simpl.
      + intros [= <-]. simpl. lia.
      + discriminate.
      + rewrite lookup_empty. discriminate.
    - intros [|i] r k p; simpl.
      + intros [= <-]. rewrite lookup_empty. discriminate.
      + discriminate. }
  destruct (run_calls cs (sample.boot [])) as [w'|] eqn:Hrun;
    [|vm_compute in Hrun; discriminate Hrun].
  destruct (ids_stay_below_counter cs (sample.boot []) w'
              ltac:(simpl; lia) ltac:(simpl; lia) Hboot Hrun)
    as (Hbelow & _ & _ & Hfree).
  exists w'. split_and!; [reflexivity | exact Hbelow | exact Hfree].
Defined.

(** ** No dangling pointer in a registry *)

Lemma triple_bind {A B} P (c : M A) Q (f : A → M B) R E :
  triple P c Q E → (∀ a, triple (Q a) (f a) R E) → triple P (bind c f) R E.
Proof.
  intros Hc Hf w H. rewrite bind_eq. specialize (Hc w H).
  destruct (c w) as [a w1| | |]; try done. by apply Hf.
Qed.

Lemma triple_preserves {A} (I E : World → Prop) (c : M A) :
  preserves I c → (∀ w, I w → E w) → triple I c (λ _, I) E.
Proof.
  intros Hc HE w H. specialize (Hc w H).
  destruct (c w); try done; by apply HE.
Qed.

Lemma preserves_triple {A} (I : World → Prop) (c : M A) :
  triple I c (λ _, I) I → preserves I c.
Proof. intros Hc w H. exact (Hc w H). Qed.

Lemma sound_forget x w : registry_sound x w → registry_sound None w.
Proof. intros (Ha & Hb & _). by split_and!. Qed.

Lemma registry_set_managers w i m m' j :
  thread_managers w !! i = Some m → threads m' = threads m →
  registry j (set_thread_managers (<[i := m']> (thread_managers w)) w)
  = registry j w.
Proof.
  intros Hm Ht. unfold registry. simpl.
  destruct (decide (j = i)) as [->|Hj].
  - rewrite list_lookup_insert_eq by (by eapply lookup_lt_Some).
    rewrite Hm. simpl. by rewrite Ht.
  - by rewrite list_lookup_insert_ne.
Qed.

Create HintDb sound.

Lemma sound_frame x w w' :
  heap w' = heap w → (∀ i, registry i w' = registry i w) →
  registry_sound x w → registry_sound x w'.
Proof.
  intros Hh Hr (Ha & Hb & Hc). split_and!.
  - intros i r k p. rewrite Hr, Hh. apply Ha.
  - intros i j r r' k k' p. rewrite !Hr. apply Hb.
  - intros p Hp. destruct (Hc p Hp) as [Hheap Hun]. split; [done|].
    intros i r k. rewrite Hr. apply Hun.
Qed.

(** A store that keeps the id, or goes to a thread that is in no registry. *)
Lemma sound_store x p t w :
  (x = Some p ∨ ∀ t0, load w p = Some t0 → tid t = tid t0) →
  is_Some (load w p) →
  registry_sound x w → registry_sound x (store p t w).
Proof.
  intros Hcase Hlive (Ha & Hb & Hc). destruct p as [c|a].
  { apply (sound_frame x w); [done|intros i; apply registry_store|done]. }
  split_and!.
  - intros i r k q. rewrite registry_store. intros Hr Hk.
    destruct (Ha i r k q Hr Hk) as (b & t0 & -> & Hb0 & Htid).
    exists b. simpl. destruct (decide (b = a)) as [->|Hne].
    + exists t. rewrite lookup_insert_eq. split_and!; [done|done|].
      destruct Hcase as [Hx|Hkeep].
      * destruct (Hc _ Hx) as [_ Hun]. by destruct (Hun i r k).
      * rewrite (Hkeep t0); done.
    + exists t0. by rewrite lookup_insert_ne.
  - intros i j r r' k k' q. rewrite !registry_store. apply Hb.
  - intros q Hq. destruct (Hc q Hq) as [Hheap Hun]. split; [done|].
    intros i r k. rewrite registry_store. apply Hun.
Qed.

Lemma sound_update x p f :
  (x = Some p ∨ ∀ t, tid (f t) = tid t) →
  preserves (registry_sound x) (update p f).
Proof.
  intros Hcase w H. unfold update. rewrite bind_eq. unfold deref.
  destruct (load w p) as [t|] eqn:Ht; [|done]. unfold modify.
  apply sound_store; [|by eauto|done].
  destruct Hcase as [?|Hkeep]; [by left|right].
  intros t0 Ht0. rewrite Ht in Ht0. injection Ht0 as <-. apply Hkeep.
Qed.

Lemma sound_update_manager x i f :
  (∀ m, threads (f m) = threads m) →
  preserves (registry_sound x) (update_manager i f).
Proof.
  intros Hf w H. unfold update_manager. rewrite bind_eq. unfold manager.
  destruct (thread_managers w !! i) as [m|] eqn:Hm; [|done]. unfold modify.
  apply (sound_frame x w); [done| |done].
  intros j. by apply (registry_set_managers w i m).
Qed.

Lemma sound_allocate x : preserves (registry_sound x) allocate.
Proof.
  intros w H. unfold allocate.
  destruct (allocs w) as [|[] rest]; try done; by apply (sound_frame x w).
Qed.

Lemma sound_set_thread_area x cpu a :
  preserves (registry_sound x) (set_thread_area cpu a).
Proof. apply preserves_modify. intros w. by apply sound_frame. Qed.

Lemma sound_set_umem x f :
  preserves (registry_sound x) (modify (λ w, set_umem (f w) w)).
Proof. apply preserves_modify. intros w. by apply sound_frame. Qed.

Lemma sound_set_tls x f :
  preserves (registry_sound x) (modify (λ w, set_tls_kthread (f w) w)).
Proof. apply preserves_modify. intros w. by apply sound_frame. Qed.

(** A main thread is embedded in its manager: it is in no registry. *)
Lemma sound_update_main x c f :
  preserves (registry_sound x) (update (MainOf c) f).
Proof.
  intros w H. unfold update. rewrite bind_eq. unfold deref.
  destruct (load w (MainOf c)) as [t|]; [|done]. unfold modify.
  apply (sound_frame x w); [done| |done].
  intros i. apply (registry_store (MainOf c)).
Qed.

Lemma sound_store_user x p k v : preserves (registry_sound x) (store_user p k v).
Proof.
  unfold store_user. case_bool_decide;
    [apply preserves_abort|apply sound_set_umem].
Qed.

Ltac sound_step :=
  lazymatch goal with
  | |- preserves _ (store_user _ _ _) => apply sound_store_user
  | |- preserves _ (bind _ _) => apply preserves_bind; [|intros ?]
  | |- preserves _ (ret _) => apply preserves_ret
  | |- preserves _ (assert _) => apply preserves_assert
  | |- preserves _ (nonnull _) => apply preserves_nonnull
  | |- preserves _ (deref _) => apply preserves_deref
  | |- preserves _ (manager _) => apply preserves_manager
  | |- preserves _ (manager_at _) => apply preserves_manager_at
  | |- preserves _ (gets _) => apply preserves_gets
  | |- preserves _ (jump _) => apply preserves_jump
  | |- preserves _ (abort _) => apply preserves_abort
  | |- preserves _ (update _ _) =>
      apply sound_update; first [by left | by right]
  | |- preserves _ (update_manager _ _) => by apply sound_update_manager
  | |- preserves _ allocate => apply sound_allocate
  | |- preserves _ (set_thread_area _ _) => apply sound_set_thread_area
  | |- preserves _ (foreach _ _) => apply preserves_foreach; intros ?
  | |- preserves _ (modify (λ w, set_umem _ w)) => apply sound_set_umem
  | |- preserves _ (modify (λ w, set_tls_kthread _ w)) => apply sound_set_tls
  | |- preserves _ (if ?b then _ else _) => destruct b
  | |- preserves _ (match ?x with _ => _ end) => destruct x
  | |- preserves _ _ => solve [eauto with sound]
  end.

Ltac sound_tac := repeat sound_step.

Lemma sound_get_thread_area x cpu :
  preserves (registry_sound x) (get_thread_area cpu).
Proof. unfold get_thread_area. sound_tac. Qed.
#[local] Hint Resolve sound_get_thread_area : sound.

Lemma sound_get_thread_self x cpu :
  preserves (registry_sound x) (get_thread_self cpu).
Proof. unfold get_thread_self, get_thread_area. sound_tac. Qed.
#[local] Hint Resolve sound_get_thread_self : sound.

Lemma sound_get_thread x cpu tid :
  preserves (registry_sound x) (get_thread cpu tid).
Proof. unfold get_thread. sound_tac. Qed.
#[local] Hint Resolve sound_get_thread : sound.

Lemma sound_wakeup_next x this :
  preserves (registry_sound x) (ThreadManager_wakeup_next this).
Proof. unfold ThreadManager_wakeup_next. sound_tac. Qed.
#[local] Hint Resolve sound_wakeup_next : sound.

Lemma sound_erase_suspension x this t :
  preserves (registry_sound x) (ThreadManager_erase_suspension this t).
Proof. unfold ThreadManager_erase_suspension. sound_tac. Qed.
#[local] Hint Resolve sound_erase_suspension : sound.

Lemma sound_manager_suspend x this t :
  preserves (registry_sound x) (ThreadManager_suspend this t).
Proof. unfold ThreadManager_suspend. sound_tac. Qed.
#[local] Hint Resolve sound_manager_suspend : sound.

Lemma sound_libc_store_this x this :
  preserves (registry_sound x) (Thread_libc_store_this this).
Proof. unfold Thread_libc_store_this. sound_tac. Qed.
#[local] Hint Resolve sound_libc_store_this : sound.

Lemma sound_store_return x this ri rs :
  preserves (registry_sound x) (Thread_store_return this ri rs).
Proof. unfold Thread_store_return. sound_tac. Qed.
#[local] Hint Resolve sound_store_return : sound.

Lemma sound_activate x cpu this tls :
  preserves (registry_sound x) (Thread_activate cpu this tls).
Proof. unfold Thread_activate. sound_tac. Qed.
#[local] Hint Resolve sound_activate : sound.

Lemma sound_suspend x cpu this ri rs :
  preserves (registry_sound x) (Thread_suspend cpu this ri rs).
Proof. unfold Thread_suspend. sound_tac. Qed.
#[local] Hint Resolve sound_suspend : sound.

Lemma sound_resume x cpu this :
  preserves (registry_sound x) (Thread_resume cpu this).
Proof. unfold Thread_resume. sound_tac. Qed.
#[local] Hint Resolve sound_resume : sound.

Lemma sound_yield x cpu this :
  preserves (registry_sound x) (Thread_yield cpu this).
Proof. unfold Thread_yield. sound_tac. Qed.
#[local] Hint Resolve sound_yield : sound.

Lemma sound_resume_tid x cpu tid :
  preserves (registry_sound x) (resume cpu tid).
Proof. unfold resume. sound_tac. Qed.
#[local] Hint Resolve sound_resume_tid : sound.

Lemma sound_suspend_and_yield x cpu ni st :
  preserves (registry_sound x) (__thread_suspend_and_yield cpu ni st).
Proof. unfold __thread_suspend_and_yield. sound_tac. Qed.
#[local] Hint Resolve sound_suspend_and_yield : sound.

Lemma sound_setup_main_thread x cpu sv :
  preserves (registry_sound x) (setup_main_thread cpu sv).
Proof.
  unfold setup_main_thread, Thread_init. cbv zeta.
  apply preserves_bind.
  { apply preserves_bind; [apply sound_update_main|]. intros _.
    apply sound_update_main. }
  intros _. sound_tac.
Qed.
#[local] Hint Resolve sound_setup_main_thread : sound.

(** [new Thread] gives an object that no registry holds. *)
Lemma sound_new_Thread :
  triple (registry_sound None) new_Thread
    (λ th, registry_sound (Some th)) (registry_sound None).
Proof.
  intros w H. unfold new_Thread. rewrite bind_eq.
  pose proof (sound_allocate None w H) as Ha.
  destruct (allocate w) as [[] w1| | |]; try done.
  cbv beta zeta. destruct Ha as (Ha & Hb & _).
  pose proof (is_fresh (dom (heap w1))) as Hfresh.
  apply not_elem_of_dom in Hfresh.
  set (a := fresh (dom (heap w1))) in *.
  split_and!.
  - intros i r k p Hr Hk.
    destruct (Ha i r k p Hr Hk) as (b & t & -> & Hb0 & Htid).
    exists b, t. split_and!; [done| |done]. simpl.
    rewrite lookup_insert_ne; [done|]. intros <-. congruence.
  - exact Hb.
  - intros p [= <-]. split; [by eauto|].
    intros i r k Hr Hk. destruct (Ha i r k _ Hr Hk) as (b & t & [= <-] & Hb0 & _).
    congruence.
Qed.

(** [insert_thread] of a thread that no registry holds. *)
Lemma sound_insert_thread this p :
  triple (registry_sound (Some p)) (ThreadManager_insert_thread this p)
    (λ _, registry_sound None) (registry_sound None).
Proof.
  intros w H. unfold ThreadManager_insert_thread.
  rewrite bind_eq. unfold deref.
  destruct (load w p) as [t|] eqn:Ht; [|done].
  rewrite bind_eq.
  pose proof (sound_allocate (Some p) w H) as Ha.
  assert (Hload : ∀ w1, allocate w = Ret tt w1 ∨ (∃ e, allocate w = Throw e w1) →
                        load w1 p = Some t).
  { intros w1. unfold allocate.
    destruct (allocs w) as [|[] rest];
      intros [Hrun|[e Hrun]]; simplify_eq; try done;
      by rewrite load_set_allocs. }
  destruct (allocate w) as [[] w1| e w1| |] eqn:Hal; try done;
    [|by eapply sound_forget..].
  specialize (Hload w1 (or_introl eq_refl)). clear Hal H Ht w.
  unfold update_manager. rewrite bind_eq. unfold manager.
  destruct (thread_managers w1 !! this) as [m|] eqn:Hm; [|done].
  unfold modify.
  destruct (threads m !! tid t) as [old|] eqn:Hk.
  { rewrite list_insert_id by done.
    apply (sound_frame None w1); [done|done|by eapply sound_forget]. }
  destruct Ha as (Ha & Hb & Hc).
  destruct (Hc p eq_refl) as [[a ->] Hun]. simpl in Hload.
  assert (Hlen : this < length (thread_managers w1))
    by (by eapply lookup_lt_Some).
  assert (Hreg : ∀ i r k q,
    registry i (set_thread_managers
                  (<[this := set_threads (<[tid t := Heap a]> (threads m)) m]>
                     (thread_managers w1)) w1) = Some r →
    r !! k = Some q →
    (i = this ∧ k = tid t ∧ q = Heap a)
    ∨ (q ≠ Heap a ∧ ∃ r0, registry i w1 = Some r0 ∧ r0 !! k = Some q)).
  { intros i r k q. unfold registry. simpl.
    destruct (decide (i = this)) as [->|Hi].
    - rewrite list_lookup_insert_eq by done. simpl. intros [= <-].
      intros [[<- <-]|[Hne Hold]]%lookup_insert_Some; [by left|right].
      assert (Hr0 : registry this w1 = Some (threads m))
        by (unfold registry; by rewrite Hm).
      split; [|by eauto]. intros ->. by destruct (Hun this _ k Hr0).
    - rewrite list_lookup_insert_ne by done. intros Hr Hq. right.
      split; [|by eauto]. intros ->. by destruct (Hun i r k Hr). }
  split_and!.
  - intros i r k q Hr Hq.
    destruct (Hreg i r k q Hr Hq) as [(-> & -> & ->)|(_ & r0 & Hr0 & Hq0)].
    + by exists a, t.
    + by apply (Ha i r0 k q).
  - intros i j r r' k k' q Hr Hq Hr' Hq'.
    destruct (Hreg i r k q Hr Hq) as [(-> & -> & ->)|(Hne & r0 & Hr0 & Hq0)];
      destruct (Hreg j r' k' _ Hr' Hq')
        as [(-> & -> & Heq)|(Hne' & r0' & Hr0' & Hq0')]; try done.
    by apply (Hb i j r0 r0' k k' q).
  - done.
Qed.

(** [erase_thread_safely] takes the thread out of the only registry that
    holds it. *)
Lemma sound_erase_thread_safely this p :
  triple (registry_sound None)
    (ThreadManager_erase_thread_safely this (Some p))
    (λ _, registry_sound (Some p)) (registry_sound None).
Proof.
  intros w (Ha & Hb & _).
  pose proof (quiet_erase_thread_safely this (Some p) w) as Hquiet.
  destruct (ThreadManager_erase_thread_safely this (Some p) w)
    as [[] w'| | |] eqn:Hrun; try done. clear Hquiet.
  assert (Hheap : heap w' = heap w).
  { unfold ThreadManager_erase_thread_safely in Hrun.
    apply bind_Ret_inv in Hrun as (? & ? & [_ ->]%assert_Ret_inv & Hrun).
    apply bind_Ret_inv in Hrun as (? & ? & [_ ->]%nonnull_Ret_inv & Hrun).
    apply bind_Ret_inv in Hrun as (? & ? & [_ ->]%deref_Ret_inv & Hrun).
    apply bind_Ret_inv in Hrun as (? & ? & [_ ->]%manager_Ret_inv & Hrun).
    cbv zeta in Hrun.
    apply bind_Ret_inv in Hrun as (? & ? & [_ ->]%assert_Ret_inv & Hrun).
    apply bind_Ret_inv in Hrun as (? & ? & [_ ->]%assert_Ret_inv & Hrun).
    by apply update_manager_Ret_inv in Hrun as (? & _ & ->). }
  apply erase_thread_safely_inv in Hrun
    as (_ & _ & _ & (t & r & Ht & Hr & Hk & Hr') & Hother).
  assert (Hsub : ∀ i r1 k q, registry i w' = Some r1 → r1 !! k = Some q →
                 ∃ r0, registry i w = Some r0 ∧ r0 !! k = Some q
                       ∧ (i = this → k ≠ tid t)).
  { intros i r1 k q. destruct (decide (i = this)) as [->|Hi].
    - rewrite Hr'. intros [= <-] [Hne Hq]%lookup_delete_Some. by eauto.
    - rewrite Hother by done. intros Hr1 Hq. exists r1. by split_and!. }
  destruct (Ha this r (tid t) p Hr Hk) as (a & t' & -> & Ha' & Htid).
  split_and!.
  - intros i r1 k q Hr1 Hq. rewrite Hheap.
    destruct (Hsub i r1 k q Hr1 Hq) as (r0 & Hr0 & Hq0 & _).
    by apply (Ha i r0 k q).
  - intros i j r1 r2 k k' q Hr1 Hq Hr2 Hq'.
    destruct (Hsub i r1 k q Hr1 Hq) as (r0 & Hr0 & Hq0 & _).
    destruct (Hsub j r2 k' q Hr2 Hq') as (r0' & Hr0' & Hq0' & _).
    by apply (Hb i j r0 r0' k k' q).
  - intros q [= <-]. split; [by eauto|].
    intros i r1 k Hr1 Hq.
    destruct (Hsub i r1 k _ Hr1 Hq) as (r0 & Hr0 & Hq0 & Hne).
    pose proof (Hb i this r0 r k (tid t) _ Hr0 Hq0 Hr Hk) as ->.
    destruct (Ha this r0 k _ Hr0 Hq0) as (b & t0 & [= <-] & Hb0 & Htid0).
    rewrite Ha' in Hb0. injection Hb0 as <-.
    apply Hne; [done|]. by rewrite <- Htid0, Htid.
Qed.

(** [delete] of a thread that no registry holds. *)
Lemma sound_delete_Thread p :
  triple (registry_sound (Some p)) (delete_Thread p)
    (λ _, registry_sound None) (registry_sound None).
Proof.
  intros w (Ha & Hb & Hc). unfold delete_Thread.
  destruct p as [c|a]; [done|].
  destruct (heap w !! a) as [t|] eqn:Ht; [|done].
  destruct (Hc _ eq_refl) as [_ Hun].
  split_and!.
  - intros i r k q Hr Hq.
    destruct (Ha i r k q Hr Hq) as (b & t0 & -> & Hb0 & Htid).
    exists b, t0. split_and!; [done| |done]. simpl.
    rewrite lookup_delete_ne; [done|]. intros <-. by destruct (Hun i r k).
  - exact Hb.
  - done.
Qed.

Ltac sound_seq := apply preserves_bind; [sound_tac | intros ?].

Ltac sound_seq_triple :=
  eapply triple_bind;
    [apply triple_preserves; [sound_tac | apply sound_forget] | intros ?].

Lemma sound_exit cpu this :
  preserves (registry_sound None) (Thread_exit cpu this).
Proof.
  unfold Thread_exit. do 9 sound_seq.
  apply preserves_triple.
  eapply triple_bind; [apply sound_erase_thread_safely|]. intros ?.
  eapply triple_bind; [apply sound_delete_Thread|]. intros ?.
  apply triple_preserves; [sound_tac|done].
Qed.

Lemma sound_migrate cpu this tid target :
  preserves (registry_sound None) (ThreadManager_migrate cpu this tid target).
Proof.
  unfold ThreadManager_migrate. sound_seq.
  destruct a as [p|]; [|by intros w H].
  sound_seq.
  apply preserves_triple.
  eapply triple_bind; [apply sound_erase_thread_safely|]. intros ?.
  sound_seq_triple.
  intros w H. rewrite bind_eq. simpl. by apply sound_insert_thread.
Qed.

Lemma sound_thread_create cpu parent flags ctid stack :
  preserves (registry_sound None) (thread_create cpu parent flags ctid stack).
Proof.
  unfold thread_create. apply preserves_bind.
  { intros w H. by apply (sound_frame None w). }
  intros id. cbv zeta.
  apply preserves_try_catch; [|apply preserves_ret].
  apply preserves_triple.
  eapply triple_bind; [apply sound_new_Thread|]. intros th.
  eapply triple_bind.
  { apply triple_preserves; [|apply sound_forget].
    unfold Thread_init. sound_tac. }
  intros ?. do 8 sound_seq_triple.
  eapply triple_bind; [apply sound_insert_thread|]. intros ?.
  apply triple_preserves; [apply preserves_ret|done].
Qed.

Lemma sound_run_call cpu c : preserves (registry_sound None) (run_call cpu c).
Proof.
  destruct c; simpl.
  - apply preserves_bind; [apply sound_thread_create|].
    intros ?. apply preserves_ret.
  - apply sound_suspend.
  - apply sound_yield.
  - apply sound_exit.
  - apply sound_resume_tid.
  - apply sound_migrate.
  - apply preserves_bind; [apply sound_wakeup_next|].
    intros ?. apply preserves_ret.
  - apply sound_suspend_and_yield.
  - apply sound_setup_main_thread.
Qed.

Lemma sound_run_calls cs : ∀ w w',
  registry_sound None w → run_calls cs w = Some w' → registry_sound None w'.
Proof.
  induction cs as [|[cpu c] cs IH]; intros w w' H Hrun; simpl in Hrun.
  - by injection Hrun as <-.
  - destruct (world_after (run_call cpu c w)) as [w1|] eqn:Hw1; [|done].
    apply (IH w1 w'); [|done].
    by apply (preserved_after _ _ _ _ (sound_run_call cpu c) H).
Qed.

(** X17. No call leaves a dangling pointer in a registry.  Start where every
    registry entry is a live heap thread whose id is the key and no thread
    is entered twice, as after [setup_main_thread], and run any calls, on
    any CPUs.  Then the same holds: what [get_thread(tid)] finds is a live
    thread with the id [tid], and no other CPU and no other id finds the
    same thread.  So [resume(tid)] either stops at its assertion, for an id
    that is not registered, or enters the thread; it never uses a freed
    object. *)
Theorem registry_stays_sound
    (cs : list (nat * call)) (w w' : World) :
  registry_sound None w →
  run_calls cs w = Some w' →
  registry_sound None w'
  ∧ (∀ cpu id p, get_thread cpu id w' = Ret (Some p) w' →
       ∃ a t, p = Heap a ∧ load w' p = Some t ∧ tid t = id)
  ∧ (∀ cpu cpu' id id' p,
       get_thread cpu id w' = Ret (Some p) w' →
       get_thread cpu' id' w' = Ret (Some p) w' →
       cpu = cpu' ∧ id = id')
  ∧ (∀ cpu id r, registry cpu w' = Some r →
       match r !! id with
       | Some p => ∃ t w'', load w' p = Some t
                            ∧ resume cpu id w' = Jump (transfer_of t) w''
       | None => resume cpu id w' = Trap assert_failed
       end).
Proof.
  intros H Hrun.
  pose proof (sound_run_calls cs w w' H Hrun) as H'.
  split; [done|]. destruct H' as (Ha & Hb & _).
  assert (Hget : ∀ cpu id p, get_thread cpu id w' = Ret (Some p) w' →
                 ∃ r, registry cpu w' = Some r ∧ r !! id = Some p).
  { intros cpu id p. unfold get_thread. rewrite bind_eq. unfold manager, registry.
    destruct (thread_managers w' !! cpu) as [m|]; [|done].
    unfold ret. intros [= Hp]. by eauto. }
  split_and!.
  - intros cpu id p (r & Hr & Hp)%Hget.
    destruct (Ha cpu r id p Hr Hp) as (a & t & -> & Ht & Htid). by exists a, t.
  - intros cpu cpu' id id' p (r & Hr & Hp)%Hget (r' & Hr' & Hp')%Hget.
    pose proof (Hb cpu cpu' r r' id id' p Hr Hp Hr' Hp') as ->.
    split; [done|].
    destruct (Ha cpu' r id p Hr Hp) as (a & t & -> & Ht & <-).
    destruct (Ha cpu' r' id' _ Hr' Hp') as (a' & t' & [= <-] & Ht' & <-).
    congruence.
  - intros cpu id r Hr. destruct (registry_Some _ _ _ Hr) as (m & Hm & <-).
    unfold resume. rewrite (bind_Ret _ _ _ _ _ (get_thread_run _ _ _ _ Hm)).
    destruct (threads m !! id) as [p|] eqn:Hp; [|done].
    destruct (Ha cpu _ id p Hr Hp) as (a & t & -> & Ht & _).
    exists t. eexists. split; [done|].
    rewrite bind_eq. simpl. rewrite bind_eq. simpl.
    by apply Thread_resume_run.
Qed.

Lemma registry_stays_sound_witness :
  let cs := [(0, do_thread_create (Some (MainOf 0)) 0 0 100);
             (0, do_thread_create (Some (Heap 0)) 0 0 200);
             (0, do_exit (Heap 0));
             (0, do_migrate 0 2 0)] in
  ∃ w', run_calls cs (sample.boot []) = Some w'
        ∧ registry_sound None w'
        ∧ resume 0 1 w' = Trap assert_failed
        ∧ ∃ t w'', load w' (Heap 1) = Some t
                   ∧ resume 0 2 w' = Jump (transfer_of t) w''.
Proof.
  intros cs.
  assert (Hboot : registry_sound None (sample.boot [])).
  { split_and!.
    - intros [|i] r k p; simpl; [|discriminate].
      intros [= <-]. rewrite lookup_empty. discriminate.
    - intros [|i] j r r' k k' p; simpl; [|discriminate].
      intros [= <-]. rewrite lookup_empty. discriminate.
    - discriminate. }
  destruct (run_calls cs (sample.boot [])) as [w'|] eqn:Hrun;
    [|vm_compute in Hrun; discriminate Hrun].
  destruct (registry_stays_sound cs (sample.boot []) w' Hboot Hrun)
    as (Hsound & _ & _ & Hresume).
  assert (Hw' : Some w' = run_calls cs (sample.boot [])) by (by rewrite Hrun).
  vm_compute in Hw'. injection Hw' as Hw'.
  exists w'. split_and!; [reflexivity | exact Hsound | |].
  - assert (Hr : ∃ r, registry 0 w' = Some r ∧ r !! 1%Z = None).
    { rewrite Hw'. eexists. split; reflexivity. }
    destruct Hr as (r & Hr & Hk).
    pose proof (Hresume 0 1%Z r Hr) as Hone. rewrite Hk in Hone. exact Hone.
  - assert (Hr : ∃ r, registry 0 w' = Some r ∧ r !! 2%Z = Some (Heap 1)).
    { rewrite Hw'. eexists. split; reflexivity. }
    destruct Hr as (r & Hr & Hk).
    pose proof (Hresume 0 2%Z r Hr) as Htwo. rewrite Hk in Htwo. exact Htwo.
Defined.
